(** * NetworkPingComparator: a shallow embedding and its verified properties

    The program (src/network_ping_comparator.py) pings every host of two
    IPv4 networks, retries the hosts that did not answer, and reports the
    addresses that fail on one network while the host with the same last
    octet answers on the other.

    Definitions come first and follow the Python source function by
    function:
    - §1  Python values the code relies on: exceptions, [str.split],
          [str.rsplit], [str(int)], [int(str)];
    - §2  the part of the standard library module [ipaddress] the code
          calls: [ip_network], [IPv4Network.hosts], [str(IPv4Address)];
    - §3  the class [NetworkPingComparator]: [ping], [__spawn_ping_procs],
          [__ping_network], [not_pingable], [run], [output];
    - §4  the vocabulary the properties are stated in, and the rest of
          the module: the script under [if __name__ == '__main__'].
    Then the proofs:
    - §5  strings, addresses, networks and the parser;
    - §6  the sweep, [run] and [output];
    - §7  the properties of the specification, each marked with the claim
          it settles;
    - §8  further properties of the code, marked X1, X2, ... *)

From Stdlib Require Import ZArith Ascii String DecimalString.
From stdpp Require Import base tactics option list numbers strings gmap.

Local Open Scope string_scope.
Local Open Scope list_scope.
Local Open Scope Z_scope.

(* ===================================================================== *)
(** * §1 Python values                                                     *)
(* ===================================================================== *)

(** The exceptions that can reach the code under study.  [IPv6Fallback] is
    not a Python exception: it marks the one control path of [ip_network]
    that leaves this embedding (the string is handed to [IPv6Network]). *)
Inductive exn : Set :=
  | ValueError
  | AddressValueError
  | NetmaskValueError
  | KeyError
  | IndexError
  | TypeError
  | OSError
  | RecursionError
  | IPv6Fallback.

#[global] Instance exn_eq_dec : EqDecision exn.
Proof. solve_decision. Defined.

(** A computation that returns or raises. *)
Inductive Res (A : Type) : Type :=
  | Ok (a : A)
  | Raise (e : exn).
Arguments Ok {A} a.
Arguments Raise {A} e.

#[global] Instance Res_ret : MRet Res := @Ok.
#[global] Instance Res_bind : MBind Res := λ A B f m,
  match m with Ok a => f a | Raise e => Raise e end.

(** [try: m except e: h] for one exception class. *)
Definition try_except {A} (m : Res A) (caught : exn → bool) (h : Res A) : Res A :=
  match m with
  | Ok a => Ok a
  | Raise e => if caught e then h else Raise e
  end.

(** ** Strings *)

Definition dot : ascii := "."%char.
Definition slash : ascii := "/"%char.
Definition colon : ascii := ":"%char.

(** [s.split(sep)] for a one-character separator: every occurrence cuts,
    so the result has one more element than [s] has separators. *)
Fixpoint split (sep : ascii) (s : string) : list string :=
  match s with
  | EmptyString => [EmptyString]
  | String c s' =>
      if Ascii.eqb c sep then EmptyString :: split sep s'
      else match split sep s' with
           | [] => [String c EmptyString]
           | w :: ws => String c w :: ws
           end
  end.

(** The last occurrence of [sep] in [s]: the text before it and after it. *)
Fixpoint rpartition (sep : ascii) (s : string) : option (string * string) :=
  match s with
  | EmptyString => None
  | String c s' =>
      match rpartition sep s' with
      | Some (before, after) => Some (String c before, after)
      | None => if Ascii.eqb c sep then Some (EmptyString, s') else None
      end
  end.

(** [s.rsplit(sep, 1)]: at most one cut, made at the last separator. *)
Definition rsplit1 (sep : ascii) (s : string) : list string :=
  match rpartition sep s with
  | Some (before, after) => [before; after]
  | None => [s]
  end.

(** [xs[i]] on a list: [IndexError] when out of range. *)
Definition getitem {A} (xs : list A) (i : nat) : Res A :=
  match xs !! i with
  | Some x => Ok x
  | None => Raise IndexError
  end.

(** [c in s] for a character. *)
Fixpoint contains (c : ascii) (s : string) : bool :=
  match s with
  | EmptyString => false
  | String a s' => Ascii.eqb a c || contains c s'
  end.

(** [s.isascii() and s.isdigit()]: non-empty, ASCII digits only. *)
Definition is_digit (c : ascii) : bool :=
  let n := Z.of_nat (nat_of_ascii c) in (48 <=? n) && (n <=? 57).

Fixpoint all_digits (s : string) : bool :=
  match s with
  | EmptyString => true
  | String c s' => is_digit c && all_digits s'
  end.

Definition isascii_isdigit (s : string) : bool :=
  match s with
  | EmptyString => false
  | _ => all_digits s
  end.

(** [str(n)] for a non-negative integer. *)
Definition str_int (n : Z) : string :=
  NilZero.string_of_uint (N.to_uint (Z.to_N n)).

(** The longest text of digits that [int] converts
    ([sys.int_info.default_max_str_digits]). *)
Definition max_str_digits : nat := 4300.

(** [int(s)] for a string of decimal digits; [ValueError] otherwise, and
    for a text of more than [max_str_digits] digits. *)
Definition int_of_str (s : string) : Res Z :=
  match s with
  | EmptyString => Raise ValueError
  | _ => if (max_str_digits <? String.length s)%nat then Raise ValueError
         else match NilZero.uint_of_string s with
              | Some d => Ok (Z.of_N (N.of_uint d))
              | None => Raise ValueError
              end
  end.

(** [x.bit_length()]. *)
Definition bit_length (x : Z) : Z :=
  if x =? 0 then 0 else Z.log2 (Z.abs x) + 1.

(* ===================================================================== *)
(** * §2 The standard library module [ipaddress], IPv4 part               *)
(* ===================================================================== *)

(** The functions follow Lib/ipaddress.py of CPython 3.11, under the names
    they have there. *)

(** An [IPv4Address] is its 32-bit integer [_ip]. *)
Definition IPv4Address : Set := Z.

(** An [IPv4Network]: its [network_address] and its [_prefixlen]. *)
Record IPv4Network : Set := mkNet {
  network_address : IPv4Address;
  prefixlen : Z
}.

Module ipaddress.

Definition _max_prefixlen : Z := 32.
Definition _ALL_ONES : Z := 2 ^ 32 - 1.

(** [ip_int.to_bytes(4, 'big')]. *)
Definition to_bytes4 (ip_int : Z) : list Z :=
  [Z.land (ip_int ≫ 24) 255; Z.land (ip_int ≫ 16) 255;
   Z.land (ip_int ≫ 8) 255; Z.land ip_int 255].

(** ['.'.join(xs)]. *)
Fixpoint join_dot (xs : list string) : string :=
  match xs with
  | [] => EmptyString
  | [x] => x
  | x :: rest => x +:+ String dot (join_dot rest)
  end.

(** [_string_from_ip_int], which is [str(IPv4Address)]. *)
Definition _string_from_ip_int (ip_int : Z) : string :=
  join_dot (str_int <$> to_bytes4 ip_int).

(** [octet_str[0] == '0']. *)
Definition starts_with_zero (s : string) : bool :=
  match s with
  | String c _ => Ascii.eqb c "0"%char
  | EmptyString => false
  end.

(** [_parse_octet]: a decimal from [0..255], at most three digits, no
    leading zero. *)
Definition _parse_octet (octet_str : string) : Res Z :=
  if negb (isascii_isdigit octet_str) then Raise ValueError
  else if (3 <? String.length octet_str)%nat then Raise ValueError
  else if negb (String.eqb octet_str "0") && starts_with_zero octet_str
  then Raise ValueError
  else octet_int ← int_of_str octet_str;
       if 255 <? octet_int then Raise ValueError else Ok octet_int.

(** [IPv4Address._ip_int_from_string]. *)
Definition _ip_int_from_string (ip_str : string) : Res Z :=
  match ip_str with
  | EmptyString => Raise AddressValueError
  | _ =>
      let octets := split dot ip_str in
      if negb (length octets =? 4)%nat then Raise AddressValueError
      else
        try_except
          (bs ← mapM _parse_octet octets;
           Ok (foldl (λ acc b, acc * 256 + b) 0 bs))
          (λ e, bool_decide (e = ValueError))
          (Raise AddressValueError)
  end.

(** [IPv4Address(address)] for a string. *)
Definition IPv4Address_init (address : string) : Res IPv4Address :=
  if contains slash address then Raise AddressValueError
  else _ip_int_from_string address.

(** [_count_righthand_zero_bits]. *)
Definition _count_righthand_zero_bits (number bits : Z) : Z :=
  if number =? 0 then bits
  else Z.min bits (bit_length (Z.land (Z.lnot number) (number - 1))).

(** [_ip_int_from_prefix]: the netmask of a prefix length. *)
Definition _ip_int_from_prefix (prefixlen : Z) : Z :=
  Z.lxor _ALL_ONES (_ALL_ONES ≫ prefixlen).

(** [_prefix_from_ip_int]: [ValueError] when zeroes and ones are mixed. *)
Definition _prefix_from_ip_int (ip_int : Z) : Res Z :=
  let trailing_zeroes := _count_righthand_zero_bits ip_int _max_prefixlen in
  let prefixlen := _max_prefixlen - trailing_zeroes in
  let leading_ones := ip_int ≫ trailing_zeroes in
  let all_ones := (1 ≪ prefixlen) - 1 in
  if negb (leading_ones =? all_ones) then Raise ValueError
  else Ok prefixlen.

(** [_prefix_from_prefix_string]: a prefix length written in digits. *)
Definition _prefix_from_prefix_string (prefixlen_str : string) : Res Z :=
  if negb (isascii_isdigit prefixlen_str) then Raise NetmaskValueError
  else
    prefixlen ← try_except (int_of_str prefixlen_str)
                  (λ e, bool_decide (e = ValueError)) (Raise NetmaskValueError);
    if negb ((0 <=? prefixlen) && (prefixlen <=? _max_prefixlen))
    then Raise NetmaskValueError
    else Ok prefixlen.

(** [_prefix_from_ip_string]: a netmask or a hostmask in dotted form. *)
Definition _prefix_from_ip_string (ip_str : string) : Res Z :=
  ip_int ← try_except (_ip_int_from_string ip_str)
             (λ e, bool_decide (e = AddressValueError)) (Raise NetmaskValueError);
  try_except (_prefix_from_ip_int ip_int)
    (λ e, bool_decide (e = ValueError))
    (try_except (_prefix_from_ip_int (Z.lxor ip_int _ALL_ONES))
       (λ e, bool_decide (e = ValueError)) (Raise NetmaskValueError)).

(** The mask handed to [_make_netmask]: the text after the slash, or the
    integer [_max_prefixlen] when the address has no slash. *)
Inductive mask_arg : Set :=
  | MaskInt (n : Z)
  | MaskStr (s : string).

(** [_split_optional_netmask] followed by [_split_addr_prefix]. *)
Definition _split_addr_prefix (address : string) : Res (string * mask_arg) :=
  let addr := split slash address in
  if (2 <? length addr)%nat then Raise AddressValueError
  else match addr with
       | [a; m] => Ok (a, MaskStr m)
       | a :: _ => Ok (a, MaskInt _max_prefixlen)
       | [] => Raise IndexError
       end.

(** [_make_netmask], returning the prefix length. *)
Definition _make_netmask (arg : mask_arg) : Res Z :=
  match arg with
  | MaskInt prefixlen =>
      if negb ((0 <=? prefixlen) && (prefixlen <=? _max_prefixlen))
      then Raise NetmaskValueError
      else Ok prefixlen
  | MaskStr arg =>
      try_except (_prefix_from_prefix_string arg)
        (λ e, bool_decide (e = NetmaskValueError))
        (_prefix_from_ip_string arg)
  end.

(** [IPv4Network(address, strict=True)]. *)
Definition IPv4Network_init (address : string) : Res IPv4Network :=
  '(addr, mask) ← _split_addr_prefix address;
  network_address ← IPv4Address_init addr;
  prefixlen ← _make_netmask mask;
  let packed := network_address in
  if negb (Z.land packed (_ip_int_from_prefix prefixlen) =? packed)
  then Raise ValueError
  else Ok (mkNet network_address prefixlen).

(** [ip_network(address)].  When [IPv4Network] rejects the string,
    Python tries [IPv6Network]; that constructor rejects every string
    without a colon (its [_ip_int_from_string] asks for three
    colon-separated parts), and then [ValueError] is raised.  A string
    with a colon leaves the embedding: the library may accept it as an
    IPv6 network or reject it, and [IPv6Fallback] stands for both, so a
    property that depends on which of the two happens is stated for
    strings without a colon. *)
Definition ip_network (address : string) : Res IPv4Network :=
  try_except (IPv4Network_init address)
    (λ e, bool_decide (e = AddressValueError) || bool_decide (e = NetmaskValueError))
    (if contains colon address then Raise IPv6Fallback else Raise ValueError).

(** [hostmask] and [broadcast_address]. *)
Definition hostmask (net : IPv4Network) : Z :=
  Z.lxor (_ip_int_from_prefix (prefixlen net)) _ALL_ONES.

Definition broadcast_address (net : IPv4Network) : IPv4Address :=
  Z.lor (network_address net) (hostmask net).

(** [range(a, b)]. *)
Definition range (a b : Z) : list Z := seqZ a (b - a).

(** [list(net.hosts())].  The constructor rebinds [hosts] for the two
    longest prefixes: a /31 yields both addresses ([__iter__]), a /32
    yields the single address. *)
Definition hosts (net : IPv4Network) : list IPv4Address :=
  if prefixlen net =? _max_prefixlen - 1 then
    range (network_address net) (broadcast_address net + 1)
  else if prefixlen net =? _max_prefixlen then
    [network_address net]
  else
    range (network_address net + 1) (broadcast_address net).

End ipaddress.

(** [str(host)] for an [IPv4Address]. *)
Definition str_ip (host : IPv4Address) : string :=
  ipaddress._string_from_ip_int host.

(* ===================================================================== *)
(** * §3 The class [NetworkPingComparator]                                *)
(* ===================================================================== *)

(** ** The world outside the program *)

(** What [Popen(['ping', ...])] gives for one host: a subprocess whose
    [wait()] returns an exit code, or [OSError] when the command cannot be
    started (no [ping] binary, no permission to execute it). *)
Inductive Spawn : Set :=
  | Exit (code : Z)
  | SpawnFails.

(** The network as one sweep sees it: the outcome of pinging a host during
    the [k]-th call of [__ping_network] (counted from 0).  The hosts of a
    call are distinct (an enumeration, or the keys of a dict), so a host is
    pinged once in a call and this covers every behaviour of the network,
    transient failures included. *)
Definition Env : Type := nat → IPv4Address → Spawn.

(** A [Popen] object, as far as the code uses it. *)
Record Popen : Set := { wait : Z }.

(** The log of one sweep: for every call of [__ping_network], in order,
    the hosts [ping] was called on, in order. *)
Definition Log : Type := list (list IPv4Address).

(** [list(set(a).difference(b))] for lists of strings.  A Python set has no
    order of its own: the order of iteration depends on the hashes of the
    strings, which change from one interpreter run to the next.  What the
    language promises is that the result has no duplicates and holds the
    elements of [a] that are not in [b]. *)
Class SetOrder : Type := {
  set_difference_list : list string → list string → list string;
  set_difference_list_NoDup a b : NoDup (set_difference_list a b);
  set_difference_list_elem a b x :
    x ∈ set_difference_list a b ↔ x ∈ a ∧ x ∉ b
}.

(** ** The object *)

Record NetworkPingComparator : Type := mkSelf {
  networks : list string;
  excluded_host : option (list string);
  hosts : option (list IPv4Address);
  ping_failures : option (gmap string (list IPv4Address));
  NUM_ATTEMPTS : Z
}.

(** [__init__]; [NUM_ATTEMPTS] is the class attribute. *)
Definition init (network_1 network_2 : string) : NetworkPingComparator :=
  {| networks := [network_1; network_2];
     excluded_host := None;
     hosts := None;
     ping_failures := None;
     NUM_ATTEMPTS := 2 |}.

(** [exclude_host]. *)
Definition exclude_host (excluded : list string) (self : NetworkPingComparator)
  : NetworkPingComparator :=
  {| networks := networks self;
     excluded_host := Some excluded;
     hosts := hosts self;
     ping_failures := ping_failures self;
     NUM_ATTEMPTS := NUM_ATTEMPTS self |}.

(** An instance (or subclass) with another number of attempts. *)
Definition with_attempts (n : Z) (self : NetworkPingComparator)
  : NetworkPingComparator :=
  {| networks := networks self;
     excluded_host := excluded_host self;
     hosts := hosts self;
     ping_failures := ping_failures self;
     NUM_ATTEMPTS := n |}.

(** [self.hosts = hs]. *)
Definition set_hosts (hs : list IPv4Address) (self : NetworkPingComparator)
  : NetworkPingComparator :=
  {| networks := networks self;
     excluded_host := excluded_host self;
     hosts := Some hs;
     ping_failures := ping_failures self;
     NUM_ATTEMPTS := NUM_ATTEMPTS self |}.

(** [self.ping_failures = pf]. *)
Definition set_ping_failures (pf : gmap string (list IPv4Address))
    (self : NetworkPingComparator) : NetworkPingComparator :=
  {| networks := networks self;
     excluded_host := excluded_host self;
     hosts := hosts self;
     ping_failures := Some pf;
     NUM_ATTEMPTS := NUM_ATTEMPTS self |}.

(** ** The monad of one sweep: the object, the log, and exceptions *)

Record St : Type := mkSt { self_of : NetworkPingComparator; passes : Log }.

Definition M (A : Type) : Type := St → Res A * St.

#[global] Instance M_ret : MRet M := λ A a st, (Ok a, st).
#[global] Instance M_bind : MBind M := λ A B f m st,
  match m st with
  | (Ok a, st') => f a st'
  | (Raise e, st') => (Raise e, st')
  end.

Definition lift {A} (r : Res A) : M A := λ st, (r, st).
Definition get_self : M NetworkPingComparator := λ st, (Ok (self_of st), st).
Definition modify_self (f : NetworkPingComparator → NetworkPingComparator) : M unit :=
  λ st, (Ok tt, mkSt (f (self_of st)) (passes st)).

(** Log: a new call of [__ping_network] starts; a host is pinged. *)
Definition begin_pass : M unit :=
  λ st, (Ok tt, mkSt (self_of st) (passes st ++ [[]])).

Fixpoint log_ping (host : IPv4Address) (log : Log) : Log :=
  match log with
  | [] => [[host]]
  | [p] => [p ++ [host]]
  | p :: rest => p :: log_ping host rest
  end.

Definition current_pass (log : Log) : nat := Nat.pred (length log).

(** ** The methods *)

Section Methods.

Context (env : Env).

(** [ping]: start the subprocess.  The argument vector (platform
    dependent) has no part in what follows; the exit code has. *)
Definition ping (host : IPv4Address) : M Popen :=
  λ st,
    let st' := mkSt (self_of st) (log_ping host (passes st)) in
    match env (current_pass (passes st)) host with
    | Exit code => (Ok {| wait := code |}, st')
    | SpawnFails => (Raise OSError, st')
    end.

(** [procs[host] = p] on a dict kept in insertion order. *)
Fixpoint dict_set {V} (procs : list (IPv4Address * V)) (host : IPv4Address) (p : V)
  : list (IPv4Address * V) :=
  match procs with
  | [] => [(host, p)]
  | (k, v) :: rest =>
      if bool_decide (k = host) then (k, p) :: rest
      else (k, v) :: dict_set rest host p
  end.

(** The test of [__spawn_ping_procs]:
    [self.excluded_host and str(host).split('.')[3] in self.excluded_host]. *)
Definition is_excluded (excluded : option (list string)) (host : IPv4Address)
  : Res bool :=
  match excluded with
  | None | Some [] => Ok false
  | Some ex =>
      octet ← getitem (split dot (str_ip host)) 3;
      Ok (bool_decide (octet ∈ ex))
  end.

(** The loop of [__spawn_ping_procs]. *)
Fixpoint spawn_loop (hs : list IPv4Address) (procs : list (IPv4Address * Popen))
  : M (list (IPv4Address * Popen)) :=
  match hs with
  | [] => mret procs
  | host :: rest =>
      self ← get_self;
      skip ← lift (is_excluded (excluded_host self) host);
      if skip : bool then spawn_loop rest procs
      else p ← ping host; spawn_loop rest (dict_set procs host p)
  end.

(** [__spawn_ping_procs]. *)
Definition spawn_ping_procs : M (list (IPv4Address * Popen)) :=
  self ← get_self;
  match hosts self with
  | None => lift (Raise TypeError)
  | Some hs => spawn_loop hs []
  end.

(** [__ping_network]. *)
Definition ping_network : M (list IPv4Address) :=
  _ ← begin_pass;
  procs ← spawn_ping_procs;
  let exit_codes := (λ ip_p, (ip_p.1, wait ip_p.2)) <$> procs in
  let failures := filter (λ ip_code, ip_code.2 ≠ 0) exit_codes in
  mret (fst <$> failures).

(** The retry loop of [not_pingable]: [for _ in range(n)], left by
    [break] as soon as nothing fails. *)
Fixpoint retry (n : nat) (failures : list IPv4Address) : M (list IPv4Address) :=
  match n with
  | O => mret failures
  | S n' =>
      match failures with
      | [] => mret failures
      | _ =>
          _ ← modify_self (set_hosts failures);
          failures' ← ping_network;
          retry n' failures'
      end
  end.

(** [not_pingable(network, ping_failures)]; the dict is passed and
    returned. *)
Definition not_pingable (network : string) (pf : gmap string (list IPv4Address))
  : M (gmap string (list IPv4Address)) :=
  net ← lift (ipaddress.ip_network network);
  _ ← modify_self (set_hosts (ipaddress.hosts net));
  failures ← ping_network;
  self ← get_self;
  failures ← retry (Z.to_nat (NUM_ATTEMPTS self - 1)) failures;
  mret (<[network := failures]> pf).

End Methods.

(** ** [run]: one child process per network *)

(** What a child process of [run] leaves behind: the network it was given,
    how [not_pingable] ended in it, and its log. *)
Record Child : Type := mkChild {
  child_network : string;
  child_result : Res unit;
  child_log : Log
}.

(** A child runs [not_pingable] on its own copy of the object, against its
    own view of the network.  It touches the shared dict once, in the last
    statement of [not_pingable]; an exception ends the child and leaves the
    dict as it was. *)
Definition run_child (env : Env) (self : NetworkPingComparator) (network : string)
    (shared : gmap string (list IPv4Address))
  : gmap string (list IPv4Address) * Child :=
  match not_pingable env network shared (mkSt self []) with
  | (Ok shared', st) => (shared', mkChild network (Ok tt) (passes st))
  | (Raise e, st) => (shared, mkChild network (Raise e) (passes st))
  end.

(** [run].  The children run concurrently; since each writes the shared
    dict only once and at its end, the dict after both [join]s is the one
    obtained by letting the children write in the order they finish:
    [in_order = true] when the children finish in the order they were
    started, [false] for the opposite order.  [envs i] is the network as
    the [i]-th child sees it.  [Process.join] does not re-raise what ended a
    child, so [run] returns normally in every case. *)
Definition run (envs : nat → Env) (in_order : bool) (self : NetworkPingComparator)
  : Res unit * NetworkPingComparator * list Child :=
  let self := set_ping_failures ∅ self in
  let procs := imap (λ i network, (i, network)) (networks self) in
  let finish := if in_order then procs else reverse procs in
  let '(shared, children) :=
    foldl (λ acc p,
             let '(shared', c) := run_child (envs p.1) self p.2 acc.1 in
             (shared', acc.2 ++ [c]))
          (∅, []) finish in
  (Ok tt, set_ping_failures shared self, children).

(** ** [output] *)

(** What a Python function can hand back here: [None] or a list of
    strings. *)
Inductive pyvalue : Type :=
  | PyNone
  | PyList (l : list string).

(** [d[k]] on a dict: [KeyError] when the key is absent. *)
Definition getkey {V} (d : gmap string V) (k : string) : Res V :=
  match d !! k with
  | Some v => Ok v
  | None => Raise KeyError
  end.

Section Output.

Context `{SetOrder}.

(** The first loop of [output]: the dicts [subnet] and [octet]. *)
Fixpoint format_loop (pf : gmap string (list IPv4Address)) (nets : list string)
    (subnet : gmap string string) (octet : gmap string (list string))
  : Res (gmap string string * gmap string (list string)) :=
  match nets with
  | [] => Ok (subnet, octet)
  | network :: rest =>
      s ← getitem (rsplit1 dot network) 0;
      fs ← getkey pf network;
      os ← mapM (λ ip, getitem (split dot (str_ip ip)) 3) fs;
      format_loop pf rest (<[network := s]> subnet) (<[network := os]> octet)
  end.

(** The branch of [output] taken when [ping_failures] is not [None]. *)
Definition output_stored (self : NetworkPingComparator)
    (pf : gmap string (list IPv4Address)) : Res (list string) :=
  '(subnet, octet) ← format_loop pf (networks self) ∅ ∅;
  n0 ← getitem (networks self) 0;
  o0 ← getkey octet n0;
  n1 ← getitem (networks self) 1;
  o1 ← getkey octet n1;
  let not_pingable_on_net1 := set_difference_list o0 o1 in
  let not_pingable_on_net2 := set_difference_list o1 o0 in
  s0 ← getkey subnet n0;
  s1 ← getkey subnet n1;
  Ok (((λ ip, s0 +:+ "." +:+ ip) <$> not_pingable_on_net1) ++
      ((λ ip, s1 +:+ "." +:+ ip) <$> not_pingable_on_net2)).

(** [output].  The method calls itself in its [else] branch; [fuel]
    bounds the depth of that recursion ([RecursionError] beyond it).
    The [else] branch has no [return]: it evaluates [self.output()],
    drops the value, and the function ends, which returns [None]. *)
Fixpoint output_fuel (fuel : nat) (envs : nat → Env) (in_order : bool)
    (self : NetworkPingComparator)
  : Res pyvalue * NetworkPingComparator * list Child :=
  match ping_failures self with
  | Some pf =>
      (match output_stored self pf with
       | Ok l => Ok (PyList l)
       | Raise e => Raise e
       end, self, [])
  | None =>
      match fuel with
      | O => (Raise RecursionError, self, [])
      | S fuel' =>
          match run envs in_order self with
          | (Raise e, self', children) => (Raise e, self', children)
          | (Ok _, self', children) =>
              match output_fuel fuel' envs in_order self' with
              | (Raise e, self'', children') => (Raise e, self'', children ++ children')
              | (Ok _, self'', children') => (Ok PyNone, self'', children ++ children')
              end
          end
      end
  end.

(** Python's default recursion limit. *)
Definition recursion_limit : nat := 1000.

Definition output := output_fuel recursion_limit.

End Output.

(** ** Two set orders *)

(** Elements in the order of their first occurrence in [a]. *)
Program Definition first_seen_order : SetOrder :=
  {| set_difference_list a b := remove_dups (list_difference a b) |}.
Next Obligation. intros. apply NoDup_remove_dups. Qed.
Next Obligation.
  intros. cbn. rewrite elem_of_remove_dups, list_elem_of_difference. tauto.
Qed.

(** The opposite order. *)
Program Definition last_seen_order : SetOrder :=
  {| set_difference_list a b := reverse (remove_dups (list_difference a b)) |}.
Next Obligation. intros. cbn. rewrite reverse_Permutation. apply NoDup_remove_dups. Qed.
Next Obligation.
  intros. cbn.
  rewrite elem_of_reverse, elem_of_remove_dups, list_elem_of_difference. tauto.
Qed.

(* ===================================================================== *)
(** * §4 Vocabulary of the properties                                     *)
(* ===================================================================== *)

(** ** Addresses and networks *)

(** The host identifier of an address: the text of its last octet. *)
Definition last_octet (host : IPv4Address) : string := str_int (Z.land host 255).

(** What the constructor [IPv4Network] establishes. *)
Record valid_network (net : IPv4Network) : Prop := {
  valid_prefixlen : 0 ≤ prefixlen net ≤ 32;
  valid_address : 0 ≤ network_address net < 2 ^ 32;
  valid_host_bits :
    Z.land (network_address net) (ipaddress._ip_int_from_prefix (prefixlen net))
    = network_address net
}.

(** ** Passes of a sweep *)

(** The exclusion list in force ([None] excludes nothing). *)
Definition excluded_list (ex : option (list string)) : list string := default [] ex.

(** The hosts of [hs] whose identifier is not excluded. *)
Definition candidates (ex : option (list string)) (hs : list IPv4Address)
  : list IPv4Address :=
  filter (λ h, last_octet h ∉ excluded_list ex) hs.

(** In pass [k], the ping of [h] ran and ended with a non-zero exit code. *)
Definition nonzero_exit (env : Env) (k : nat) (h : IPv4Address) : bool :=
  match env k h with
  | Exit code => negb (code =? 0)
  | SpawnFails => false
  end.

(** The hosts of [hs] that fail in pass [k]. *)
Definition failed (env : Env) (k : nat) (hs : list IPv4Address) : list IPv4Address :=
  filter (λ h, nonzero_exit env k h = true) hs.

(** In pass [k], every ping of [hs] can be started. *)
Definition spawns_ok (env : Env) (k : nat) (hs : list IPv4Address) : bool :=
  forallb (λ h, match env k h with Exit _ => true | SpawnFails => false end) hs.

(** The hosts of [hs] that pass [k] reaches: all of them, or those up to
    the first ping that cannot be started. *)
Fixpoint pinged (env : Env) (k : nat) (hs : list IPv4Address) : list IPv4Address :=
  match hs with
  | [] => []
  | h :: rest =>
      match env k h with
      | Exit _ => h :: pinged env k rest
      | SpawnFails => [h]
      end
  end.

(** The passes of a sweep that starts pass [k] on [hs] and may retry [n]
    times, with its result. *)
Fixpoint sweep_from (env : Env) (ex : option (list string)) (k n : nat)
    (hs : list IPv4Address) : Res (list IPv4Address) * Log :=
  let cs := candidates ex hs in
  if spawns_ok env k cs then
    let fs := failed env k cs in
    match n, fs with
    | S n', _ :: _ =>
        let '(r, log) := sweep_from env ex (S k) n' fs in (r, cs :: log)
    | _, _ => (Ok fs, [cs])
    end
  else (Raise OSError, [pinged env k cs]).

(** The popen table of a pass in which every ping starts. *)
Definition procs_of (env : Env) (k : nat) (hs : list IPv4Address) : list (IPv4Address * Popen) :=
  (λ h, (h, {| wait := match env k h with Exit c => c | SpawnFails => 0 end |})) <$> hs.

(** Two objects that differ at most in [hosts]. *)
Definition same_config (a b : NetworkPingComparator) : Prop :=
  networks a = networks b ∧ excluded_host a = excluded_host b ∧
  ping_failures a = ping_failures b ∧ NUM_ATTEMPTS a = NUM_ATTEMPTS b.

(** A log of passes, numbered from [k], in which every pass after the
    first pings exactly the hosts that failed in the pass before it, no
    pass follows a pass without failures, and the failures of the last
    pass are [final]. *)
Fixpoint narrowing (env : Env) (k : nat) (log : Log) (final : list IPv4Address)
  : Prop :=
  match log with
  | [] => False
  | p :: rest =>
      spawns_ok env k p = true ∧
      match rest with
      | [] => final = failed env k p
      | q :: _ => q = failed env k p ∧ q ≠ [] ∧ narrowing env (S k) rest final
      end
  end.

(** The number of retries [not_pingable] allows itself. *)
Definition retries (self : NetworkPingComparator) : nat :=
  Z.to_nat (NUM_ATTEMPTS self - 1).

(** ** The report *)

(** The text of a network up to its last dot: [network.rsplit('.', 1)[0]]. *)
Definition subnet_of (network : string) : string :=
  match rpartition dot network with
  | Some (before, _) => before
  | None => network
  end.

(** [f"{subnet}.{ip}"]. *)
Definition render (network octet : string) : string :=
  subnet_of network +:+ "." +:+ octet.

(** The host identifiers of a failure list. *)
Definition identifiers (fs : list IPv4Address) : list string := last_octet <$> fs.

(** The report computed from two failure lists. *)
Definition report `{SetOrder} (n1 n2 : string) (f1 f2 : list IPv4Address) : list string :=
  (render n1 <$> set_difference_list (identifiers f1) (identifiers f2)) ++
  (render n2 <$> set_difference_list (identifiers f2) (identifiers f1)).

(** The ten digits, and the strings of at most [n] digits. *)
Definition digits : list ascii :=
  ["0"; "1"; "2"; "3"; "4"; "5"; "6"; "7"; "8"; "9"]%char.

Fixpoint digit_strings (n : nat) : list string :=
  match n with
  | O => [EmptyString]
  | S n' => EmptyString :: (c ← digits; String c <$> digit_strings n')
  end.

(** The network is written with a prefix length (or with no mask), not
    with a dotted netmask. *)
Definition prefix_in_digits (network : string) : Prop :=
  ∀ addr mask, split slash network = [addr; mask] → all_digits mask = true.

(** ** Inputs used in examples *)

(** The module's default networks. *)
Definition NETWORK_1 : string := "192.168.1.0/24".
Definition NETWORK_2 : string := "192.168.2.0/24".

(** The address written [a.b.c.d]. *)
Definition ip (a b c d : Z) : IPv4Address := ((a * 256 + b) * 256 + c) * 256 + d.

(** An object on the default networks with stored failures, as the
    test-suite builds it. *)
Definition stored (f1 f2 : list IPv4Address) : NetworkPingComparator :=
  set_ping_failures (<[NETWORK_2 := f2]> (<[NETWORK_1 := f1]> ∅))
    (init NETWORK_1 NETWORK_2).

(** A network in which 192.168.1.2 and 192.168.1.5 fail the first pass
    and only 192.168.1.2 fails the second. *)
Definition flaky_env : Env := λ k h,
  match k with
  | O => if bool_decide (h = ip 192 168 1 2 ∨ h = ip 192 168 1 5) then Exit 1 else Exit 0
  | _ => if bool_decide (h = ip 192 168 1 2) then Exit 2 else Exit 0
  end.

(** A network in which only 10.0.1.20 does not answer. *)
Definition one_down_env : Env := λ _ h,
  if bool_decide (h = ip 10 0 1 20) then Exit 1 else Exit 0.

(** ** What a sweep stores *)

(** The failure list that a sweep of [network] by a child of [run] leaves
    under the network's key; [None] when the child ends with an
    exception. *)
Definition sweep_result (env : Env) (self : NetworkPingComparator) (network : string)
  : option (list IPv4Address) :=
  match not_pingable env network ∅ (mkSt self []) with
  | (Ok pf, _) => pf !! network
  | (Raise _, _) => None
  end.

(** ** The script *)

(** The module's exclusion list. *)
Definition EXCLUDED_HOST : list string := ["0"; "255"].

(** [bool(v)] for what [output] hands back. *)
Definition truthy (v : pyvalue) : bool :=
  match v with
  | PyNone => false
  | PyList [] => false
  | PyList (_ :: _) => true
  end.

(** [repr(s)] for a string of ASCII text: between single quotes, unless
    the text has a single quote and no double quote; the quote in use and
    the backslash are escaped, and so are the control characters.  (Text
    outside ASCII is copied as it is, which is what Python does for the
    printable characters.) *)
Definition single_quote : ascii := "'"%char.
Definition double_quote : ascii := ascii_of_nat 34.
Definition backslash : ascii := ascii_of_nat 92.

Definition hex_digit (n : nat) : ascii :=
  nth n ["0"; "1"; "2"; "3"; "4"; "5"; "6"; "7"; "8"; "9";
         "a"; "b"; "c"; "d"; "e"; "f"]%char "0"%char.

Definition repr_char (quote c : ascii) : string :=
  let n := nat_of_ascii c in
  if Ascii.eqb c quote || Ascii.eqb c backslash then String backslash (String c EmptyString)
  else if (n =? 9)%nat then String backslash "t"
  else if (n =? 10)%nat then String backslash "n"
  else if (n =? 13)%nat then String backslash "r"
  else if ((n <? 32) || (n =? 127))%nat then
    String backslash
      (String "x" (String (hex_digit (n / 16)) (String (hex_digit (n mod 16)) EmptyString)))
  else String c EmptyString.

Fixpoint repr_chars (quote : ascii) (s : string) : string :=
  match s with
  | EmptyString => EmptyString
  | String c s' => repr_char quote c +:+ repr_chars quote s'
  end.

Definition repr_str (s : string) : string :=
  let quote :=
    if contains single_quote s && negb (contains double_quote s)
    then double_quote else single_quote in
  String quote (repr_chars quote s +:+ String quote EmptyString).

(** [', '.join(xs)]. *)
Fixpoint join_comma (xs : list string) : string :=
  match xs with
  | [] => EmptyString
  | [x] => x
  | x :: rest => x +:+ ", " +:+ join_comma rest
  end.

(** [repr(l)] for a list of strings. *)
Definition repr_list (l : list string) : string :=
  "[" +:+ join_comma (repr_str <$> l) +:+ "]".

(** [str(v)], which is what an f-string prints for [{v}]. *)
Definition str_value (v : pyvalue) : string :=
  match v with
  | PyNone => "None"
  | PyList l => repr_list l
  end.

(** The lines that [run] prints: one for each network. *)
Definition run_prints (self : NetworkPingComparator) : list string :=
  (λ network, "Pinging network " +:+ network) <$> networks self.

(** The lines printed during a call of [output]: those of [run], when the
    [else] branch is taken. *)
Definition output_prints (self : NetworkPingComparator) : list string :=
  match ping_failures self with
  | Some _ => []
  | None => run_prints self
  end.

(** The block under [if __name__ == '__main__']: how the script ends and
    the lines it has printed. *)
Definition main `{SetOrder} (envs : nat → Env) (in_order : bool)
  : Res unit * list string :=
  let comparator := init NETWORK_1 NETWORK_2 in
  let comparator := exclude_host EXCLUDED_HOST comparator in
  let stdout := run_prints comparator in
  match run envs in_order comparator with
  | (Raise e, _, _) => (Raise e, stdout)
  | (Ok _, comparator, _) =>
      let stdout := stdout ++ output_prints comparator in
      match output envs in_order comparator with
      | (Raise e, _, _) => (Raise e, stdout)
      | (Ok result, _, _) =>
          (Ok tt,
           stdout ++
           [if truthy result
            then "Address(es) failed to match ping responses: " +:+ str_value result
            else "Complete, no address response mismatch detected"])
      end
  end.

(* ===================================================================== *)
(** * §5 Strings, addresses, networks                                      *)
(* ===================================================================== *)

(** ** The embedding at work: the parser and the test-suite's cases *)

Example ip_network_24 :
  ipaddress.ip_network "192.168.1.0/24" = Ok (mkNet 3232235776 24).
Proof. vm_compute. reflexivity. Qed.

Example ip_network_netmask :
  ipaddress.ip_network "192.168.1.0/255.255.255.0" = Ok (mkNet 3232235776 24).
Proof. vm_compute. reflexivity. Qed.

Example ip_network_hostmask :
  ipaddress.ip_network "192.168.1.0/0.0.0.255" = Ok (mkNet 3232235776 24).
Proof. vm_compute. reflexivity. Qed.

Example ip_network_no_mask :
  ipaddress.ip_network "192.168.1.7" = Ok (mkNet 3232235783 32).
Proof. vm_compute. reflexivity. Qed.

Example ip_network_host_bits :
  ipaddress.ip_network "192.168.1.5/24" = Raise ValueError.
Proof. vm_compute. reflexivity. Qed.

Example ip_network_leading_zero :
  ipaddress.ip_network "192.168.01.0/24" = Raise ValueError.
Proof. vm_compute. reflexivity. Qed.

Example ip_network_garbage :
  ipaddress.ip_network "not-a-network" = Raise ValueError.
Proof. vm_compute. reflexivity. Qed.

Example hosts_30 :
  (str_ip <$> ipaddress.hosts (mkNet 3232235776 30)) = ["192.168.1.1"; "192.168.1.2"].
Proof. vm_compute. reflexivity. Qed.

Example hosts_24_length :
  length (ipaddress.hosts (mkNet 3232235776 24)) = 254%nat.
Proof. vm_compute. reflexivity. Qed.

Example test_output_pass :
  (@output first_seen_order (λ _ _ _, Exit 0) true (stored [] [])).1.1 = Ok (PyList []).
Proof. vm_compute. reflexivity. Qed.

Example test_output_fail_net1 :
  (@output first_seen_order (λ _ _ _, Exit 0) true (stored [ip 192 168 1 20] [])).1.1
  = Ok (PyList ["192.168.1.20"]).
Proof. vm_compute. reflexivity. Qed.

Example test_output_fail_net2 :
  (@output last_seen_order (λ _ _ _, Exit 0) true (stored [] [ip 192 168 2 20])).1.1
  = Ok (PyList ["192.168.2.20"]).
Proof. vm_compute. reflexivity. Qed.

Section StringFacts.

Lemma append_assoc (a b c : string) : (a +:+ b) +:+ c = a +:+ (b +:+ c).
Proof.
  induction a as [|x a IH]; [done|].
  change (String x ((a +:+ b) +:+ c) = String x (a +:+ (b +:+ c))).
  by rewrite IH.
Qed.

Lemma append_String c (a b : string) : String c a +:+ b = String c (a +:+ b).
Proof. reflexivity. Qed.

Lemma split_nonempty sep s : split sep s ≠ [].
Proof.
  destruct s as [|c s]; simpl; [done|].
  destruct (Ascii.eqb c sep); [done|].
  by destruct (split sep s).
Qed.

Lemma split_no_sep sep s : contains sep s = false → split sep s = [s].
Proof.
  induction s as [|c s IH]; simpl; [done|].
  intros [Hc Hs]%orb_false_iff. rewrite Hc, (IH Hs). done.
Qed.

Lemma split_app sep a b :
  contains sep a = false →
  split sep (a +:+ String sep b) = a :: split sep b.
Proof.
  induction a as [|c a IH]; simpl.
  - intros _. by rewrite Ascii.eqb_refl.
  - intros [Hc Ha]%orb_false_iff. rewrite Hc, (IH Ha). done.
Qed.

Lemma rpartition_no_sep sep s : contains sep s = false → rpartition sep s = None.
Proof.
  induction s as [|c s IH]; simpl; [done|].
  intros [Hc Hs]%orb_false_iff. by rewrite (IH Hs), Hc.
Qed.

Lemma rpartition_app sep p o :
  contains sep o = false →
  rpartition sep (p +:+ String sep o) = Some (p, o).
Proof.
  intros Ho. induction p as [|c p IH]; simpl.
  - by rewrite (rpartition_no_sep _ _ Ho), Ascii.eqb_refl.
  - by rewrite IH.
Qed.

(** The decimal text of a byte has no dot. *)
Lemma str_int_byte_no_dot b : 0 ≤ b < 256 → contains dot (str_int b) = false.
Proof.
  intros Hb.
  assert (Hall : forallb (λ b, negb (contains dot (str_int b))) (seqZ 0 256) = true)
    by (vm_compute; reflexivity).
  rewrite forallb_forall in Hall.
  specialize (Hall b). rewrite negb_true_iff in Hall. apply Hall.
  apply list_elem_of_In, elem_of_seqZ. lia.
Qed.

Lemma land_255_range x : 0 ≤ Z.land x 255 < 256.
Proof.
  change 255 with (Z.ones 8). rewrite Z.land_ones by lia.
  apply Z.mod_pos_bound. lia.
Qed.

Lemma last_octet_no_dot host : contains dot (last_octet host) = false.
Proof. apply str_int_byte_no_dot, land_255_range. Qed.

(** [str(host)] is three dotted bytes, a dot, and the host identifier. *)
Lemma str_ip_last_octet host :
  ∃ p, str_ip host = p +:+ String dot (last_octet host).
Proof.
  unfold str_ip, ipaddress._string_from_ip_int, ipaddress.to_bytes4. cbn.
  exists (str_int (Z.land (host ≫ 24) 255) +:+
          String dot (str_int (Z.land (host ≫ 16) 255) +:+
          String dot (str_int (Z.land (host ≫ 8) 255)))).
  unfold last_octet.
  generalize (str_int (Z.land (host ≫ 24) 255)) (str_int (Z.land (host ≫ 16) 255))
             (str_int (Z.land (host ≫ 8) 255)) (str_int (Z.land host 255)).
  intros a b c d.
  by rewrite append_assoc, append_String, append_assoc, append_String.
Qed.

(** [str(host).split('.')] has four parts, the text of the four bytes. *)
Lemma split_str_ip host :
  split dot (str_ip host) = str_int <$> ipaddress.to_bytes4 host.
Proof.
  unfold str_ip, ipaddress._string_from_ip_int, ipaddress.to_bytes4. cbn.
  rewrite !split_app by apply str_int_byte_no_dot, land_255_range.
  rewrite split_no_sep by apply str_int_byte_no_dot, land_255_range.
  done.
Qed.

(** [str(host).split('.')[3]] never raises and is the host identifier. *)
Lemma split_str_ip_3 host :
  getitem (split dot (str_ip host)) 3 = Ok (last_octet host).
Proof. by rewrite split_str_ip. Qed.

(** A rendered entry [subnet.octet] that is the text of an address has
    that address's host identifier as its [octet]. *)
Lemma rendered_last_octet subnet host' host :
  subnet +:+ "." +:+ last_octet host' = str_ip host →
  last_octet host' = last_octet host.
Proof.
  intros Heq. destruct (str_ip_last_octet host) as [p Hp].
  rewrite Hp in Heq.
  assert (Hr : rpartition dot (subnet +:+ "." +:+ last_octet host')
               = rpartition dot (p +:+ String dot (last_octet host)))
    by (by rewrite Heq).
  change (subnet +:+ "." +:+ last_octet host')
    with (subnet +:+ String dot (last_octet host')) in Hr.
  rewrite !rpartition_app in Hr by apply last_octet_no_dot.
  congruence.
Qed.

End StringFacts.

(** ** Networks *)

Section NetworkFacts.

Import ipaddress.

Lemma masks_by_prefix p :
  0 ≤ p ≤ 32 →
  _ip_int_from_prefix p = 2 ^ 32 - 2 ^ (32 - p) ∧
  Z.lxor (_ip_int_from_prefix p) _ALL_ONES = 2 ^ (32 - p) - 1 ∧
  Z.land (_ip_int_from_prefix p) (Z.lxor (_ip_int_from_prefix p) _ALL_ONES) = 0.
Proof.
  intros Hp.
  assert (Hall : forallb (λ p,
      (_ip_int_from_prefix p =? 2 ^ 32 - 2 ^ (32 - p)) &&
      (Z.lxor (_ip_int_from_prefix p) _ALL_ONES =? 2 ^ (32 - p) - 1) &&
      (Z.land (_ip_int_from_prefix p) (Z.lxor (_ip_int_from_prefix p) _ALL_ONES) =? 0))
      (seqZ 0 33) = true) by (vm_compute; reflexivity).
  rewrite forallb_forall in Hall. specialize (Hall p).
  rewrite !andb_true_iff, !Z.eqb_eq in Hall.
  destruct Hall as [[? ?] ?]; [|done].
  apply list_elem_of_In, elem_of_seqZ. lia.
Qed.

Lemma hostmask_eq net :
  valid_network net → hostmask net = 2 ^ (32 - prefixlen net) - 1.
Proof. intros [Hp _ _]. unfold hostmask. by apply masks_by_prefix. Qed.

(** The broadcast address is the last address of the block. *)
Lemma broadcast_address_eq net :
  valid_network net →
  broadcast_address net = network_address net + 2 ^ (32 - prefixlen net) - 1.
Proof.
  intros Hv. pose proof Hv as [Hp Ha Hb].
  destruct (masks_by_prefix _ Hp) as (_ & Hh & Hz).
  unfold broadcast_address.
  assert (Hland : Z.land (network_address net) (hostmask net) = 0).
  { unfold hostmask. rewrite <- Hb at 1.
    rewrite <- Z.land_assoc, Hz. apply Z.land_0_r. }
  pose proof (Z.add_lor_land (network_address net) (hostmask net)) as Hadd.
  rewrite Hland, Z.add_0_r in Hadd. rewrite Hadd, (hostmask_eq _ Hv). lia.
Qed.

(** Up to /30, the hosts are the addresses strictly between the network
    address and the broadcast address. *)
Lemma hosts_eq net :
  valid_network net → prefixlen net ≤ 30 →
  hosts net = seqZ (network_address net + 1) (2 ^ (32 - prefixlen net) - 2).
Proof.
  intros Hv Hp. unfold hosts, _max_prefixlen, range.
  rewrite (broadcast_address_eq _ Hv).
  destruct (Z.eqb_spec (prefixlen net) (32 - 1)); [lia|].
  destruct (Z.eqb_spec (prefixlen net) 32); [lia|].
  f_equal. lia.
Qed.

Lemma hosts_NoDup net : NoDup (hosts net).
Proof.
  unfold hosts, range.
  repeat case_match; try apply NoDup_seqZ. apply NoDup_singleton.
Qed.

End NetworkFacts.

(** ** What a successful [ip_network] guarantees *)

Section ParserFacts.

Import ipaddress.

Lemma bind_Ok {A B} (m : Res A) (f : A → Res B) b :
  m ≫= f = Ok b → ∃ a, m = Ok a ∧ f a = Ok b.
Proof. destruct m as [a|e]; [eauto|discriminate]. Qed.

Lemma try_except_Ok {A} (m : Res A) caught h a :
  try_except m caught h = Ok a → m = Ok a ∨ h = Ok a.
Proof.
  destruct m as [a'|e]; simpl; [auto|].
  destruct (caught e); [auto|discriminate].
Qed.

Lemma int_of_str_nonneg s n : int_of_str s = Ok n → 0 ≤ n.
Proof.
  unfold int_of_str. destruct s; [discriminate|].
  destruct (max_str_digits <? _)%nat; [discriminate|].
  destruct (NilZero.uint_of_string _); [|discriminate].
  intros [= <-]. lia.
Qed.

Lemma parse_octet_range s b : _parse_octet s = Ok b → 0 ≤ b ≤ 255.
Proof.
  unfold _parse_octet.
  destruct (negb (isascii_isdigit s)); [discriminate|].
  destruct (3 <? String.length s)%nat; [discriminate|].
  destruct (negb (String.eqb s "0") && starts_with_zero s); [discriminate|].
  intros (n & Hn & Hb)%bind_Ok.
  destruct (Z.ltb_spec 255 n); [discriminate|].
  injection Hb as <-. apply int_of_str_nonneg in Hn. lia.
Qed.

Lemma mapM_parse_octet_range os bs :
  mapM _parse_octet os = Ok bs →
  length bs = length os ∧ Forall (λ b, 0 ≤ b ≤ 255) bs.
Proof.
  revert bs. induction os as [|o os IH]; intros bs; cbn.
  - intros [= <-]. by split.
  - intros (b & Hb & H)%bind_Ok.
    apply bind_Ok in H as (bs' & Hbs' & [= <-]).
    destruct (IH _ Hbs') as [Hlen Hall].
    split; [simpl; lia|].
    constructor; [by eapply parse_octet_range|done].
Qed.

Lemma ip_int_from_string_range s a :
  _ip_int_from_string s = Ok a → 0 ≤ a < 2 ^ 32.
Proof.
  unfold _ip_int_from_string. destruct s as [|c s]; [discriminate|].
  destruct (Nat.eqb_spec (length (split dot (String c s))) 4) as [Hlen|];
    [|discriminate].
  cbn [negb].
  intros [H|H]%try_except_Ok; [|discriminate].
  apply bind_Ok in H as (bs & Hbs & [= <-]).
  apply mapM_parse_octet_range in Hbs as [Hl Hall]. rewrite Hlen in Hl.
  destruct bs as [|b1 [|b2 [|b3 [|b4 [|b5 bs]]]]]; try discriminate.
  repeat match goal with
         | H : Forall _ (_ :: _) |- _ => apply Forall_cons in H as [? H]
         end.
  cbn. lia.
Qed.

Lemma bit_length_nonneg x : 0 ≤ bit_length x.
Proof.
  unfold bit_length. destruct (x =? 0); [lia|].
  pose proof (Z.log2_nonneg (Z.abs x)). lia.
Qed.

Lemma prefix_from_ip_int_range x p :
  _prefix_from_ip_int x = Ok p → 0 ≤ p ≤ 32.
Proof.
  unfold _prefix_from_ip_int, _count_righthand_zero_bits, _max_prefixlen.
  destruct (negb _); [discriminate|]. intros [= <-].
  destruct (x =? 0); [lia|].
  pose proof (bit_length_nonneg (Z.land (Z.lnot x) (x - 1))). lia.
Qed.

Lemma make_netmask_range arg p : _make_netmask arg = Ok p → 0 ≤ p ≤ 32.
Proof.
  unfold _make_netmask, _max_prefixlen. destruct arg as [n|s].
  - destruct (Z.leb_spec 0 n), (Z.leb_spec n 32); simpl; intros [= <-]; lia.
  - intros [H|H]%try_except_Ok.
    + unfold _prefix_from_prefix_string, _max_prefixlen in H.
      destruct (negb (isascii_isdigit s)); [discriminate|].
      apply bind_Ok in H as (n & _ & H).
      destruct (Z.leb_spec 0 n), (Z.leb_spec n 32); simpl in H;
        try discriminate.
      injection H as <-. lia.
    + unfold _prefix_from_ip_string in H.
      apply bind_Ok in H as (x & _ & H).
      apply try_except_Ok in H as [H|H];
        [by apply prefix_from_ip_int_range in H|].
      apply try_except_Ok in H as [H|H]; [|discriminate].
      by apply prefix_from_ip_int_range in H.
Qed.

Lemma ip_network_IPv4 s net :
  ip_network s = Ok net → IPv4Network_init s = Ok net.
Proof.
  unfold ip_network. intros [H|H]%try_except_Ok; [done|].
  by destruct (contains colon s).
Qed.

(** Every network [ip_network] returns is a valid one. *)
Lemma ip_network_valid s net : ip_network s = Ok net → valid_network net.
Proof.
  intros H%ip_network_IPv4. unfold IPv4Network_init in H.
  apply bind_Ok in H as ([addr mask] & _ & H).
  apply bind_Ok in H as (a & Ha & H).
  apply bind_Ok in H as (p & Hp & H).
  destruct (Z.eqb_spec (Z.land a (_ip_int_from_prefix p)) a) as [Hb|];
    simpl in H; [|discriminate].
  injection H as <-.
  unfold IPv4Address_init in Ha. destruct (contains slash addr); [discriminate|].
  split; simpl.
  - by apply make_netmask_range in Hp.
  - by apply ip_int_from_string_range in Ha.
  - done.
Qed.

End ParserFacts.

(** ** Rendering gives the address back on networks of at most 256 addresses *)

Section Rendering.

Lemma is_digit_elem c : is_digit c = true → c ∈ digits.
Proof.
  intros Hd. apply list_elem_of_In.
  destruct c as [[] [] [] [] [] [] [] []]; vm_compute in Hd; try discriminate Hd;
    vm_compute; tauto.
Qed.

Lemma digit_strings_elem n : ∀ s,
  all_digits s = true → (String.length s ≤ n)%nat → s ∈ digit_strings n.
Proof.
  induction n as [|n IH]; intros [|c s]; cbn [all_digits String.length digit_strings];
    intros Hd Hl; try (left; fail); [lia|].
  apply andb_true_iff in Hd as [Hc Hs]. right.
  apply list_elem_of_bind. exists c. split; [|by apply is_digit_elem].
  apply list_elem_of_fmap. exists s. split; [done|]. apply IH; [done|lia].
Qed.

(** [_parse_octet] accepts only the text [str] gives to its result. *)
Lemma parse_octet_str o b : ipaddress._parse_octet o = Ok b → str_int b = o.
Proof.
  intros Hp.
  assert (Hall : forallb (λ o, match ipaddress._parse_octet o with
                               | Ok b => String.eqb (str_int b) o
                               | Raise _ => true
                               end) (digit_strings 3) = true)
    by (vm_compute; reflexivity).
  rewrite forallb_forall in Hall. specialize (Hall o).
  rewrite Hp in Hall. apply String.eqb_eq, Hall, list_elem_of_In.
  unfold ipaddress._parse_octet in Hp.
  destruct (isascii_isdigit o) eqn:Hd; [|discriminate].
  destruct (Nat.ltb_spec 3 (String.length o)) as [|Hlen]; [discriminate|].
  apply digit_strings_elem; [|done]. by destruct o.
Qed.

Lemma all_digits_no_dot s : all_digits s = true → contains dot s = false.
Proof.
  induction s as [|c s IH]; [done|]. cbn [all_digits contains].
  intros [Hc Hs]%andb_true_iff. rewrite (IH Hs), orb_false_r.
  destruct (Ascii.eqb_spec c dot) as [->|]; [discriminate Hc|done].
Qed.

(** What [split] tells about the string it has cut. *)
Lemma split_cons_inv sep : ∀ s w ws,
  split sep s = w :: ws →
  contains sep w = false ∧
  match ws with
  | [] => s = w
  | _ :: _ => ∃ s', s = w +:+ String sep s' ∧ split sep s' = ws
  end.
Proof.
  induction s as [|c s IH]; intros w ws; cbn [split].
  - intros [= <- <-]. done.
  - destruct (Ascii.eqb_spec c sep) as [->|Hne].
    + intros [= <- <-]. split; [done|].
      destruct (split sep s) as [|w' ws'] eqn:Hs; [by apply split_nonempty in Hs|].
      exists s. done.
    + destruct (split sep s) as [|w' ws'] eqn:Hs; [by apply split_nonempty in Hs|].
      intros [= <- <-]. destruct (IH w' ws' eq_refl) as [Hw Hrest].
      split.
      * cbn [contains]. rewrite Hw, orb_false_r. by apply Ascii.eqb_neq.
      * destruct ws' as [|w'' ws'']; [by subst|].
        destruct Hrest as (s' & -> & Hs'). exists s'. done.
Qed.

(** The four bytes of an address built from four octets. *)
Lemma to_bytes4_quad b1 b2 b3 b4 :
  0 ≤ b1 ≤ 255 → 0 ≤ b2 ≤ 255 → 0 ≤ b3 ≤ 255 → 0 ≤ b4 ≤ 255 →
  ipaddress.to_bytes4 (((b1 * 256 + b2) * 256 + b3) * 256 + b4) = [b1; b2; b3; b4].
Proof.
  intros H1 H2 H3 H4. unfold ipaddress.to_bytes4.
  change 255 with (Z.ones 8). rewrite !Z.land_ones, !Z.shiftr_div_pow2 by lia.
  change (2 ^ 24) with 16777216. change (2 ^ 16) with 65536.
  change (2 ^ 8) with 256.
  repeat f_equal; Z.div_mod_to_equations; lia.
Qed.

(** The network address has no bit set under the host mask. *)
Lemma network_address_aligned net :
  valid_network net →
  network_address net mod 2 ^ (32 - prefixlen net) = 0.
Proof.
  intros Hv. pose proof Hv as [Hp Ha Hb].
  destruct (masks_by_prefix _ Hp) as (_ & Hh & Hz).
  rewrite <- Z.land_ones by lia.
  replace (Z.ones (32 - prefixlen net))
    with (Z.lxor (ipaddress._ip_int_from_prefix (prefixlen net)) ipaddress._ALL_ONES)
    by (rewrite Hh, Z.ones_equiv; lia).
  rewrite <- Hb at 1. rewrite <- Z.land_assoc, Hz. apply Z.land_0_r.
Qed.

(** Every enumerated host lies in the block of the network. *)
Lemma hosts_in_block net x :
  valid_network net → x ∈ ipaddress.hosts net →
  network_address net ≤ x < network_address net + 2 ^ (32 - prefixlen net).
Proof.
  intros Hv. pose proof Hv as [Hp Ha Hb].
  unfold ipaddress.hosts, ipaddress.range, ipaddress._max_prefixlen.
  rewrite (broadcast_address_eq _ Hv).
  assert (0 < 2 ^ (32 - prefixlen net)) by (apply Z.pow_pos_nonneg; lia).
  destruct (Z.eqb_spec (prefixlen net) (32 - 1)) as [->|].
  { rewrite elem_of_seqZ. change (2 ^ (32 - (32 - 1))) with 2. lia. }
  destruct (Z.eqb_spec (prefixlen net) 32) as [->|].
  { intros ->%list_elem_of_singleton. lia. }
  rewrite elem_of_seqZ. lia.
Qed.

(** On a network of at most 256 addresses a host differs from the network
    address in its last byte only. *)
Lemma hosts_same_block net x :
  valid_network net → 24 ≤ prefixlen net → x ∈ ipaddress.hosts net →
  x ≫ 8 = network_address net ≫ 8.
Proof.
  intros Hv Hp Hx.
  pose proof (hosts_in_block _ _ Hv Hx) as Hr.
  pose proof (network_address_aligned _ Hv) as Hal.
  pose proof (valid_prefixlen _ Hv) as Hpl.
  rewrite !Z.shiftr_div_pow2 by lia. change (2 ^ 8) with 256.
  destruct net as [na p]. cbn [network_address prefixlen] in *.
  assert (Hcases : p = 24 ∨ p = 25 ∨ p = 26 ∨ p = 27 ∨ p = 28 ∨ p = 29 ∨
                   p = 30 ∨ p = 31 ∨ p = 32) by lia.
  repeat destruct Hcases as [->|Hcases]; [..|subst p];
    match type of Hal with
    | _ mod ?k = _ => let v := eval vm_compute in k in change k with v in *
    end;
    Z.div_mod_to_equations; lia.
Qed.

Lemma contains_app c (a b : string) :
  contains c (a +:+ b) = contains c a || contains c b.
Proof.
  induction a as [|x a IH]; [done|].
  rewrite append_String. cbn [contains]. by rewrite IH, orb_assoc.
Qed.

Lemma mapM_cons_Ok {A B} (f : A → Res B) x l ys :
  mapM f (x :: l) = Ok ys →
  ∃ y ys', f x = Ok y ∧ mapM f l = Ok ys' ∧ ys = y :: ys'.
Proof.
  cbn [mapM]. intros (y & Hy & H)%bind_Ok.
  apply bind_Ok in H as (ys' & Hys' & [= <-]). eauto.
Qed.

(** A string [ip_network] accepts, with its mask (if any) in digits, is
    three octets, a dot, and a rest without dot; the octets are the text of
    the first three bytes of the network address. *)
Lemma ip_network_text network net :
  ipaddress.ip_network network = Ok net → prefix_in_digits network →
  ∃ b1 b2 b3 b4 rest,
    network = (str_int b1 +:+ String dot (str_int b2 +:+ String dot (str_int b3)))
              +:+ String dot rest ∧
    contains dot rest = false ∧
    ipaddress.to_bytes4 (network_address net) = [b1; b2; b3; b4].
Proof.
  intros Hnet%ip_network_IPv4 Hdigits. unfold ipaddress.IPv4Network_init in Hnet.
  apply bind_Ok in Hnet as ([addr mask] & Hsplit & Hnet).
  apply bind_Ok in Hnet as (na & Hna & Hnet).
  apply bind_Ok in Hnet as (p & _ & Hnet).
  destruct (negb _); [discriminate|]. injection Hnet as <-.
  cbn [network_address].
  (* the address part and what follows it *)
  assert (Htail : ∃ tail, network = addr +:+ tail ∧ contains dot tail = false).
  { unfold ipaddress._split_addr_prefix in Hsplit.
    destruct (split slash network) as [|a [|m [|? ?]]] eqn:Hs; try discriminate.
    - injection Hsplit as <- <-.
      apply split_cons_inv in Hs as [_ ->]. exists EmptyString.
      split; [|done]. clear. induction a as [|c a IH]; [done|].
      by rewrite append_String, <- IH.
    - injection Hsplit as <- <-.
      pose proof (Hdigits a m Hs) as Hm%all_digits_no_dot.
      apply split_cons_inv in Hs as [_ (s' & -> & Hs')].
      apply split_cons_inv in Hs' as [_ ->].
      exists (String slash m). split; [done|].
      cbn [contains]. by rewrite Hm. }
  destruct Htail as (tail & -> & Htail).
  (* the four octets *)
  unfold ipaddress.IPv4Address_init in Hna.
  destruct (contains slash addr); [discriminate|].
  unfold ipaddress._ip_int_from_string in Hna.
  destruct addr as [|c addr]; [discriminate|].
  destruct (split dot (String c addr)) as [|o1 [|o2 [|o3 [|o4 [|? ?]]]]] eqn:Hs;
    try discriminate.
  cbn [length Nat.eqb negb] in Hna.
  apply try_except_Ok in Hna as [Hna|]; [|discriminate].
  apply bind_Ok in Hna as (bs & Hbs & [= <-]).
  apply mapM_cons_Ok in Hbs as (b1 & bs1 & Hb1 & Hbs & ->).
  apply mapM_cons_Ok in Hbs as (b2 & bs2 & Hb2 & Hbs & ->).
  apply mapM_cons_Ok in Hbs as (b3 & bs3 & Hb3 & Hbs & ->).
  apply mapM_cons_Ok in Hbs as (b4 & bs4 & Hb4 & Hbs & ->).
  injection Hbs as <-.
  apply split_cons_inv in Hs as [_ (s1 & Hs1 & Hs)].
  apply split_cons_inv in Hs as [_ (s2 & -> & Hs)].
  apply split_cons_inv in Hs as [_ (s3 & -> & Hs)].
  apply split_cons_inv in Hs as [H4 ->].
  rewrite Hs1.
  exists b1, b2, b3, b4, (o4 +:+ tail).
  rewrite (parse_octet_str _ _ Hb1), (parse_octet_str _ _ Hb2),
          (parse_octet_str _ _ Hb3).
  split; [|split].
  - by repeat first [rewrite append_assoc | rewrite append_String].
  - by rewrite contains_app, H4, Htail.
  - cbn [foldl]. apply to_bytes4_quad; by eapply parse_octet_range.
Qed.

(** On a network of at most 256 addresses, written with a prefix length,
    rendering the identifier of a host gives the text of the host. *)
Lemma render_host network net x :
  ipaddress.ip_network network = Ok net → prefix_in_digits network →
  24 ≤ prefixlen net → x ∈ ipaddress.hosts net →
  render network (last_octet x) = str_ip x.
Proof.
  intros Hnet Hdigits Hp Hx.
  destruct (ip_network_text _ _ Hnet Hdigits) as (b1 & b2 & b3 & b4 & rest & Htxt & Hrest & Hb).
  pose proof (hosts_same_block _ _ (ip_network_valid _ _ Hnet) Hp Hx) as Hblock.
  unfold render, subnet_of. rewrite Htxt at 1.
  rewrite rpartition_app by done.
  unfold str_ip, ipaddress._string_from_ip_int.
  assert (Hx4 : ipaddress.to_bytes4 x = [b1; b2; b3; Z.land x 255]).
  { unfold ipaddress.to_bytes4 in Hb |- *.
    replace (x ≫ 24) with ((x ≫ 8) ≫ 16) by (rewrite Z.shiftr_shiftr; [done|lia]).
    replace (x ≫ 16) with ((x ≫ 8) ≫ 8) by (rewrite Z.shiftr_shiftr; [done|lia]).
    rewrite Hblock.
    rewrite !Z.shiftr_shiftr by lia.
    change (8 + 16) with 24. change (8 + 8) with 16.
    by injection Hb as -> -> -> _. }
  rewrite Hx4. cbn [fmap list_fmap ipaddress.join_dot]. unfold last_octet.
  change (?a +:+ "." +:+ ?b) with (a +:+ String dot b).
  by repeat first [rewrite append_assoc | rewrite append_String].
Qed.

End Rendering.

(* ===================================================================== *)
(** * §6 The sweep, [run] and [output]                                    *)
(* ===================================================================== *)

Section SweepFacts.

Context (env : Env).

Lemma is_excluded_spec ex h :
  is_excluded ex h = Ok (bool_decide (last_octet h ∈ excluded_list ex)).
Proof.
  unfold is_excluded, excluded_list. destruct ex as [[|e l]|]; cbn [default].
  - by rewrite bool_decide_eq_false_2 by apply not_elem_of_nil.
  - by rewrite split_str_ip_3.
  - by rewrite bool_decide_eq_false_2 by apply not_elem_of_nil.
Qed.

Lemma log_ping_snoc h ps p : log_ping h (ps ++ [p]) = ps ++ [p ++ [h]].
Proof.
  induction ps as [|q ps IH]; [done|].
  simpl. rewrite IH. by destruct ps.
Qed.

Lemma current_pass_snoc (ps : Log) p : current_pass (ps ++ [p]) = length ps.
Proof. unfold current_pass. rewrite length_app. simpl. lia. Qed.

Lemma pinged_spawns_ok k hs : spawns_ok env k hs = true → pinged env k hs = hs.
Proof.
  induction hs as [|h hs IH]; simpl; [done|].
  destruct (env k h); [|done]. intros H. by rewrite IH.
Qed.

Lemma pinged_subseteq k hs : pinged env k hs ⊆ hs.
Proof.
  induction hs as [|h hs IH]; cbn [pinged]; [done|].
  destruct (env k h).
  - intros x [->|Hx]%elem_of_cons; [left|right; by apply IH].
  - intros x ->%list_elem_of_singleton. left.
Qed.

Lemma spawns_ok_false k hs :
  spawns_ok env k hs = false → ∃ h, h ∈ hs ∧ env k h = SpawnFails.
Proof.
  induction hs as [|h hs IH]; simpl; [done|].
  destruct (env k h) eqn:E; simpl.
  - intros (h' & ? & ?)%IH. exists h'. split; [by right|done].
  - intros _. exists h. split; [left|done].
Qed.

Lemma dict_set_fresh {V} (procs : list (IPv4Address * V)) h p :
  h ∉ procs.*1 → dict_set procs h p = procs ++ [(h, p)].
Proof.
  induction procs as [|[k v] procs IH]; simpl; [done|].
  intros Hn. apply not_elem_of_cons in Hn as [Hk Hn].
  rewrite bool_decide_eq_false_2 by congruence.
  by rewrite IH.
Qed.

(** [spawn_loop], in full. *)
Lemma spawn_loop_spec hs procs st ps p :
  passes st = ps ++ [p] →
  NoDup hs → (∀ h, h ∈ hs → h ∉ procs.*1) →
  let cs := candidates (excluded_host (self_of st)) hs in
  spawn_loop env hs procs st =
    (if spawns_ok env (length ps) cs
     then Ok (procs ++ procs_of env (length ps) cs) else Raise OSError,
     mkSt (self_of st) (ps ++ [p ++ pinged env (length ps) cs])).
Proof.
  revert procs st p. induction hs as [|h hs IH]; intros procs st p Hst Hnd Hfresh.
  - simpl. unfold mret, M_ret. rewrite !app_nil_r. destruct st; simpl in *.
    by subst.
  - apply NoDup_cons in Hnd as [Hh Hnd].
    cbn [spawn_loop]. unfold mbind, M_bind, get_self, lift.
    rewrite is_excluded_spec. unfold candidates. rewrite filter_cons.
    destruct (decide (last_octet h ∈ excluded_list (excluded_host (self_of st))))
      as [Hex|Hex].
    + rewrite bool_decide_eq_true_2 by done.
      rewrite decide_False by auto.
      apply IH; [done|done|]. intros h' Hh'. apply Hfresh. set_solver.
    + rewrite bool_decide_eq_false_2 by done.
      rewrite decide_True by done.
      unfold ping. rewrite Hst, current_pass_snoc, log_ping_snoc.
      cbn [spawns_ok forallb pinged].
      destruct (env (length ps) h) eqn:E; [|done].
      simpl.
      rewrite (IH _ (mkSt (self_of st) (ps ++ [p ++ [h]])) (p ++ [h]));
        [|done|done|].
      * simpl. fold (candidates (excluded_host (self_of st)) hs).
        rewrite dict_set_fresh by (apply Hfresh; left).
        rewrite E, <- !app_assoc. done.
      * intros h' Hh'. rewrite dict_set_fresh by (apply Hfresh; left).
        rewrite fmap_app. simpl. intros [?|?%list_elem_of_singleton]%elem_of_app.
        -- eapply Hfresh; [|done]. by right.
        -- congruence.
Qed.

Lemma failures_of_procs k hs :
  spawns_ok env k hs = true →
  (filter (λ ip_code : IPv4Address * Z, ip_code.2 ≠ 0)
     ((λ ip_p : IPv4Address * Popen, (ip_p.1, wait ip_p.2)) <$> procs_of env k hs)).*1
  = failed env k hs.
Proof.
  unfold failed, nonzero_exit, procs_of.
  induction hs as [|h hs IH]; [done|].
  cbn [spawns_ok forallb]. destruct (env k h) as [c|] eqn:E; [|done].
  intros Hok. rewrite !fmap_cons, !filter_cons. cbn [fst snd wait].
  rewrite E. destruct (Z.eqb_spec c 0) as [->|Hc]; cbn [negb].
  - rewrite decide_False by auto. rewrite decide_False by done. by apply IH.
  - rewrite decide_True by done. rewrite decide_True by done.
    rewrite fmap_cons. f_equal. by apply IH.
Qed.

(** [__ping_network], in full. *)
Lemma ping_network_spec st hs :
  hosts (self_of st) = Some hs → NoDup hs →
  let k := length (passes st) in
  let cs := candidates (excluded_host (self_of st)) hs in
  ping_network env st =
    (if spawns_ok env k cs then Ok (failed env k cs) else Raise OSError,
     mkSt (self_of st) (passes st ++ [pinged env k cs])).
Proof.
  intros Hhs Hnd k cs. unfold ping_network, spawn_ping_procs.
  unfold mbind, M_bind, begin_pass, get_self. cbn [self_of passes].
  rewrite Hhs.
  rewrite (spawn_loop_spec hs [] _ (passes st) []); [|done|done|set_solver].
  cbn [self_of app]. fold k cs.
  destruct (spawns_ok env k cs) eqn:Hok; [|done].
  unfold mret, M_ret. by rewrite failures_of_procs.
Qed.

End SweepFacts.

(** ** The retry loop and [not_pingable] *)

Section RetryFacts.

Context (env : Env).

Lemma same_config_refl a : same_config a a.
Proof. by repeat split. Qed.

Lemma same_config_set_hosts hs a b :
  same_config a (set_hosts hs b) → same_config a b.
Proof. intros (? & ? & ? & ?). by repeat split. Qed.

Lemma candidates_subseteq ex hs : candidates ex hs ⊆ hs.
Proof. intros h. unfold candidates. rewrite list_elem_of_filter. tauto. Qed.

Lemma candidates_not_excluded ex hs h :
  h ∈ candidates ex hs → last_octet h ∉ excluded_list ex.
Proof. unfold candidates. rewrite list_elem_of_filter. tauto. Qed.

Lemma candidates_id ex hs :
  Forall (λ h, last_octet h ∉ excluded_list ex) hs → candidates ex hs = hs.
Proof.
  unfold candidates. induction 1 as [|h hs Hh _ IH]; [done|].
  rewrite filter_cons, decide_True by done. by rewrite IH.
Qed.

Lemma failed_subseteq k hs : failed env k hs ⊆ hs.
Proof. intros h. unfold failed. rewrite list_elem_of_filter. tauto. Qed.

Lemma candidates_failed ex k hs :
  candidates ex (failed env k (candidates ex hs)) = failed env k (candidates ex hs).
Proof.
  apply candidates_id, Forall_forall. intros h Hh%failed_subseteq.
  by eapply candidates_not_excluded.
Qed.

Lemma candidates_NoDup ex hs : NoDup hs → NoDup (candidates ex hs).
Proof. apply NoDup_filter. Qed.

Lemma failed_NoDup k hs : NoDup hs → NoDup (failed env k hs).
Proof. apply NoDup_filter. Qed.

(** One pass followed by the retry loop is [sweep_from]. *)
Lemma pass_retry_spec n : ∀ hs st,
  hosts (self_of st) = Some hs → NoDup hs →
  ∃ self', same_config self' (self_of st) ∧
    (ping_network env ≫= retry env n) st =
    ((sweep_from env (excluded_host (self_of st)) (length (passes st)) n hs).1,
     mkSt self'
       (passes st ++
        (sweep_from env (excluded_host (self_of st)) (length (passes st)) n hs).2)).
Proof.
  induction n as [|n IH]; intros hs st Hhs Hnd.
  - exists (self_of st). split; [apply same_config_refl|].
    unfold mbind, M_bind. rewrite (ping_network_spec env st hs) by done.
    cbn [sweep_from].
    destruct (spawns_ok _ _ _) eqn:Hok; [|done].
    rewrite pinged_spawns_ok by done. done.
  - unfold mbind at 1, M_bind at 1.
    rewrite (ping_network_spec env st hs) by done.
    cbn [sweep_from].
    destruct (spawns_ok _ _ _) eqn:Hok;
      [|exists (self_of st); split; [apply same_config_refl|done]].
    rewrite pinged_spawns_ok by done.
    set (cs := candidates (excluded_host (self_of st)) hs) in *.
    destruct (failed env (length (passes st)) cs) as [|f fs] eqn:Hfs.
    { exists (self_of st). split; [apply same_config_refl|done]. }
    cbn [retry].
    set (st2 := mkSt (set_hosts (f :: fs) (self_of st)) (passes st ++ [cs])).
    destruct (IH (f :: fs) st2) as (self' & Hcfg & Heq).
    { done. }
    { rewrite <- Hfs. apply failed_NoDup, candidates_NoDup, Hnd. }
    exists self'. split; [by apply same_config_set_hosts in Hcfg|].
    change ((_ ← modify_self (set_hosts (f :: fs));
             failures' ← ping_network env; retry env n failures')
              (mkSt (self_of st) (passes st ++ [cs])))
      with ((ping_network env ≫= retry env n) st2).
    rewrite Heq. subst st2. cbn [self_of passes set_hosts excluded_host].
    rewrite length_app. cbn [length]. rewrite Nat.add_1_r.
    destruct (sweep_from env (excluded_host (self_of st)) (S (length (passes st))) n
                (f :: fs)) as [r log].
    cbn [fst snd]. by rewrite <- app_assoc.
Qed.

(** [not_pingable], in full. *)
Lemma not_pingable_spec network pf st :
  ∃ self', same_config self' (self_of st) ∧
    not_pingable env network pf st =
    match ipaddress.ip_network network with
    | Raise e => (Raise e, st)
    | Ok net =>
        let sw := sweep_from env (excluded_host (self_of st)) (length (passes st))
                    (Z.to_nat (NUM_ATTEMPTS (self_of st) - 1)) (ipaddress.hosts net) in
        (match sw.1 with
         | Ok fs => Ok (<[network := fs]> pf)
         | Raise e => Raise e
         end, mkSt self' (passes st ++ sw.2))
    end.
Proof.
  unfold not_pingable. unfold mbind at 1, M_bind at 1, lift at 1.
  destruct (ipaddress.ip_network network) as [net|e];
    [|exists (self_of st); split; [apply same_config_refl|done]].
  unfold mbind at 1, M_bind at 1, modify_self at 1.
  set (st1 := mkSt (set_hosts (ipaddress.hosts net) (self_of st)) (passes st)).
  destruct (pass_retry_spec (Z.to_nat (NUM_ATTEMPTS (self_of st) - 1))
              (ipaddress.hosts net) st1) as (self' & Hcfg & Heq);
    [done|apply hosts_NoDup|].
  exists self'. split; [by apply same_config_set_hosts in Hcfg|].
  unfold mbind, M_bind in Heq |- *. unfold get_self.
  rewrite (ping_network_spec env st1 (ipaddress.hosts net)) in Heq |- *
    by (done || apply hosts_NoDup).
  cbn [self_of passes set_hosts excluded_host NUM_ATTEMPTS st1] in Heq |- *.
  destruct (spawns_ok env _ _).
  - rewrite Heq. by destruct (sweep_from _ _ _ _ _).1.
  - injection Heq as Hr Hself Hlog. by rewrite <- Hr, <- Hself, <- Hlog.
Qed.

End RetryFacts.

(** ** What the log of a sweep looks like *)

Section LogFacts.

Context (env : Env).

(** A sweep that returns has a narrowing log that starts with the
    candidates; it stops early only when nothing fails. *)
Lemma sweep_from_narrowing ex n : ∀ k hs final log,
  sweep_from env ex k n hs = (Ok final, log) →
  (∃ rest, log = candidates ex hs :: rest) ∧
  narrowing env k log final ∧
  (length log ≤ S n)%nat ∧
  (final = [] ∨ length log = S n).
Proof.
  induction n as [|n IH]; intros k hs final log; cbn [sweep_from];
    destruct (spawns_ok env k (candidates ex hs)) eqn:Hok; try discriminate.
  - intros [= <- <-].
    split; [eauto|split; [done|split; [cbn; lia|by right]]].
  - destruct (failed env k (candidates ex hs)) as [|f fs] eqn:Hfs.
    + intros [= <- <-].
      split; [eauto|split; [cbn; by rewrite Hfs|split; [cbn; lia|by left]]].
    + destruct (sweep_from env ex (S k) n (f :: fs)) as [r log'] eqn:Hsw.
      intros [= -> <-].
      destruct (IH _ _ _ _ Hsw) as ([rest Hlog] & Hnar & Hlen & Hstop).
      rewrite <- Hfs, candidates_failed, Hfs in Hlog. subst log'.
      split; [eauto|].
      split; [cbn [narrowing]; by rewrite Hfs|].
      split; [cbn in *; lia|].
      destruct Hstop; [auto|right; cbn in *; lia].
Qed.

(** Whatever the outcome, every pass pings only hosts of the first list
    that are not excluded. *)
Lemma sweep_from_log ex n : ∀ k hs p h,
  p ∈ (sweep_from env ex k n hs).2 → h ∈ p →
  h ∈ hs ∧ last_octet h ∉ excluded_list ex.
Proof.
  assert (Hc : ∀ hs h, h ∈ candidates ex hs →
                       h ∈ hs ∧ last_octet h ∉ excluded_list ex).
  { intros hs h Hh. split; [by apply candidates_subseteq in Hh|].
    by eapply candidates_not_excluded. }
  induction n as [|n IH]; intros k hs p h; cbn [sweep_from];
    destruct (spawns_ok env k (candidates ex hs)) eqn:Hok; cbn [snd].
  - intros ->%list_elem_of_singleton. apply Hc.
  - intros ->%list_elem_of_singleton Hh%pinged_subseteq. by apply Hc.
  - destruct (failed env k (candidates ex hs)) as [|f fs] eqn:Hfs; cbn [snd].
    + intros ->%list_elem_of_singleton. apply Hc.
    + destruct (sweep_from env ex (S k) n (f :: fs)) as [r log'] eqn:Hsw.
      cbn [snd]. intros [->|Hp]%elem_of_cons Hh; [by apply Hc|].
      destruct (IH (S k) (f :: fs) p h) as [Hin Hex]; [by rewrite Hsw|done|].
      split; [|done]. rewrite <- Hfs in Hin.
      by apply failed_subseteq, candidates_subseteq in Hin.
  - intros ->%list_elem_of_singleton Hh%pinged_subseteq. by apply Hc.
Qed.

(** A sweep raises only [OSError], and only when a ping of a pinged host
    could not be started. *)
Lemma sweep_from_raise ex n : ∀ k hs e,
  (sweep_from env ex k n hs).1 = Raise e →
  e = OSError ∧ ∃ k' h, h ∈ candidates ex hs ∧ env k' h = SpawnFails.
Proof.
  induction n as [|n IH]; intros k hs e; cbn [sweep_from];
    destruct (spawns_ok env k (candidates ex hs)) eqn:Hok; cbn [fst];
    try discriminate.
  - intros [= <-]. split; [done|].
    apply spawns_ok_false in Hok as (h & ? & ?). eauto.
  - destruct (failed env k (candidates ex hs)) as [|f fs] eqn:Hfs;
      [discriminate|].
    destruct (sweep_from env ex (S k) n (f :: fs)) as [r log'] eqn:Hsw.
    cbn [fst]. intros ->.
    destruct (IH (S k) (f :: fs) e) as (-> & k' & h & Hh & Hf);
      [by rewrite Hsw|].
    split; [done|]. exists k', h. split; [|done].
    rewrite <- Hfs in Hh. by apply candidates_subseteq, failed_subseteq in Hh.
  - intros [= <-]. split; [done|].
    apply spawns_ok_false in Hok as (h & ? & ?). eauto.
Qed.

Lemma narrowing_lookup log : ∀ k final i p q,
  narrowing env k log final →
  log !! i = Some p → log !! S i = Some q →
  q = failed env (k + i) p ∧ q ≠ [].
Proof.
  induction log as [|p0 log IH]; intros k final i p q; [done|].
  cbn [narrowing]. intros [Hok Hrest].
  destruct log as [|q0 log]; [by destruct i|].
  destruct Hrest as (Hq & Hne & Hnar).
  destruct i as [|i]; cbn.
  - intros [= <-] [= <-]. by rewrite Nat.add_0_r.
  - intros Hp Hq'. rewrite <- Nat.add_succ_comm. by eapply IH.
Qed.

Lemma narrowing_last log : ∀ k final p,
  narrowing env k log final →
  last log = Some p → final = failed env (k + (length log - 1)) p.
Proof.
  induction log as [|p0 log IH]; intros k final p; [done|].
  cbn [narrowing]. intros [Hok Hrest].
  destruct log as [|q0 log].
  - cbn. intros [= <-]. by rewrite Nat.add_0_r.
  - destruct Hrest as (Hq & Hne & Hnar).
    change (last (p0 :: q0 :: log)) with (last (q0 :: log)).
    intros Hl. rewrite (IH (S k) final p Hnar Hl). f_equal. cbn. lia.
Qed.

Lemma narrowing_spawns log : ∀ k final i p,
  narrowing env k log final → log !! i = Some p →
  spawns_ok env (k + i) p = true.
Proof.
  induction log as [|p0 log IH]; intros k final i p; [done|].
  cbn [narrowing]. intros [Hok Hrest].
  destruct i as [|i]; cbn.
  - intros [= <-]. by rewrite Nat.add_0_r.
  - destruct log as [|q0 log]; [done|].
    destruct Hrest as (Hq & Hne & Hnar).
    intros Hp. rewrite <- Nat.add_succ_comm. by eapply IH.
Qed.

(** In a narrowing log the passes shrink. *)
Lemma narrowing_shrinks log : ∀ k final i j p q,
  narrowing env k log final → (i ≤ j)%nat →
  log !! i = Some p → log !! j = Some q → q ⊆ p.
Proof.
  intros k final i j p q Hnar Hij Hp. revert q.
  induction Hij as [|j Hij IH]; intros q Hq.
  - by simplify_eq.
  - destruct (log !! j) as [r|] eqn:Hr.
    + destruct (narrowing_lookup _ _ _ _ _ _ Hnar Hr Hq) as [-> _].
      etrans; [apply failed_subseteq|]. by apply IH.
    + apply lookup_ge_None in Hr. apply lookup_lt_Some in Hq. lia.
Qed.

Lemma narrowing_final_subseteq log : ∀ k final p,
  narrowing env k log final → log !! 0%nat = Some p → final ⊆ p.
Proof.
  intros k final p Hnar Hp.
  destruct (last log) as [l|] eqn:Hl.
  - rewrite (narrowing_last _ _ _ _ Hnar Hl).
    etrans; [apply failed_subseteq|].
    rewrite last_lookup in Hl.
    eapply (narrowing_shrinks _ _ _ 0%nat); [done|lia|done|done].
  - destruct log; [done|]. by rewrite last_cons in Hl; destruct (last log).
Qed.

End LogFacts.

(** ** [run] *)

Section RunFacts.

(** A child process, in full. *)
Lemma run_child_spec env self network shared :
  run_child env self network shared =
  match ipaddress.ip_network network with
  | Raise e => (shared, mkChild network (Raise e) [])
  | Ok net =>
      let sw := sweep_from env (excluded_host self) 0
                  (Z.to_nat (NUM_ATTEMPTS self - 1)) (ipaddress.hosts net) in
      match sw.1 with
      | Ok fs => (<[network := fs]> shared, mkChild network (Ok tt) sw.2)
      | Raise e => (shared, mkChild network (Raise e) sw.2)
      end
  end.
Proof.
  unfold run_child.
  destruct (not_pingable_spec env network shared (mkSt self [])) as (self' & _ & ->).
  cbn [self_of passes length app].
  destruct (ipaddress.ip_network network) as [net|e]; [|done].
  cbn zeta. by destruct (sweep_from _ _ _ _ _).1.
Qed.

(** Induction over the children of [run]. *)
Lemma run_ind (P : gmap string (list IPv4Address) → list Child → Prop)
    envs in_order self :
  P ∅ [] →
  (∀ shared children i network,
     networks self !! i = Some network → P shared children →
     let rc := run_child (envs i) (set_ping_failures ∅ self) network shared in
     P rc.1 (children ++ [rc.2])) →
  ∃ shared children,
    run envs in_order self = (Ok tt, set_ping_failures shared self, children) ∧
    P shared children.
Proof.
  intros H0 Hstep. unfold run.
  set (self0 := set_ping_failures ∅ self).
  set (procs := imap (λ i network, (i, network)) (networks self0)).
  set (finish := if in_order then procs else reverse procs).
  set (step := λ (acc : gmap string (list IPv4Address) * list Child)
                 (p : nat * string),
                 let '(shared', c) := run_child (envs p.1) self0 p.2 acc.1 in
                 (shared', acc.2 ++ [c])).
  assert (Hfin : ∀ p, p ∈ finish → networks self !! p.1 = Some p.2).
  { intros [i network] Hp. subst finish procs.
    destruct in_order; [|rewrite elem_of_reverse in Hp];
      apply elem_of_lookup_imap in Hp as (j & y & [= -> ->] & Hy); done. }
  assert (Hfold : ∀ l acc, (∀ p, p ∈ l → networks self !! p.1 = Some p.2) →
                           P acc.1 acc.2 → P (foldl step acc l).1 (foldl step acc l).2).
  { induction l as [|p l IH]; intros acc Hl Hacc; [done|].
    cbn [foldl]. apply IH; [intros q Hq; apply Hl; set_solver|].
    unfold step at 1 2.
    pose proof (Hstep acc.1 acc.2 p.1 p.2 (Hl p ltac:(set_solver)) Hacc) as Hs.
    cbn zeta in Hs. fold self0 in Hs.
    by destruct (run_child (envs p.1) self0 p.2 acc.1). }
  specialize (Hfold finish (∅, []) Hfin H0).
  destruct (foldl step (∅, []) finish) as [shared children].
  exists shared, children. done.
Qed.

(** [run] returns normally, whatever happens in the children. *)
Lemma run_returns envs in_order self :
  ∃ shared children,
    run envs in_order self = (Ok tt, set_ping_failures shared self, children).
Proof.
  destruct (run_ind (λ _ _, True) envs in_order self) as (s & c & H & _);
    eauto.
Qed.

End RunFacts.

(** ** [run] on two networks *)

Section RunTwo.

(** [run] on an object with two networks, written out. *)
Lemma run_two envs in_order self n1 n2 :
  networks self = [n1; n2] →
  let self0 := set_ping_failures ∅ self in
  run envs in_order self =
    if in_order then
      let rc1 := run_child (envs 0%nat) self0 n1 ∅ in
      let rc2 := run_child (envs 1%nat) self0 n2 rc1.1 in
      (Ok tt, set_ping_failures rc2.1 self, [rc1.2; rc2.2])
    else
      let rc2 := run_child (envs 1%nat) self0 n2 ∅ in
      let rc1 := run_child (envs 0%nat) self0 n1 rc2.1 in
      (Ok tt, set_ping_failures rc1.1 self, [rc2.2; rc1.2]).
Proof.
  intros Hn. cbn zeta. unfold run.
  cbn [networks set_ping_failures]. rewrite Hn.
  destruct in_order; unfold reverse;
    cbn [imap foldl rev_append fst snd app compose].
  - destruct (run_child (envs 0%nat) _ n1 ∅) as [s1 c1]. cbn [fst snd app].
    destruct (run_child (envs 1%nat) _ n2 s1) as [s2 c2]. done.
  - destruct (run_child (envs 1%nat) _ n2 ∅) as [s2 c2]. cbn [fst snd app].
    destruct (run_child (envs 0%nat) _ n1 s2) as [s1 c1]. done.
Qed.

(** What a child writes, in terms of [sweep_result]. *)
Lemma run_child_result env self pf network shared :
  let rc := run_child env (set_ping_failures pf self) network shared in
  rc.1 = match sweep_result env self network with
         | Some fs => <[network := fs]> shared
         | None => shared
         end ∧
  child_network rc.2 = network ∧
  (child_result rc.2 = Ok tt ↔ is_Some (sweep_result env self network)).
Proof.
  cbn zeta. rewrite run_child_spec. unfold sweep_result.
  destruct (not_pingable_spec env network ∅ (mkSt self [])) as (s' & _ & ->).
  cbn [self_of passes length app excluded_host NUM_ATTEMPTS set_ping_failures].
  destruct (ipaddress.ip_network network) as [net|e].
  - cbn zeta.
    destruct (sweep_from env (excluded_host self) 0
                (Z.to_nat (NUM_ATTEMPTS self - 1)) (ipaddress.hosts net)).1
      as [fs|e]; cbn [fst snd child_network child_result].
    + rewrite lookup_insert_eq. split; [done|]. split; [done|].
      split; [by eexists|done].
    + split; [done|]. split; [done|]. split; [done|]. by intros [? ?].
  - cbn [fst snd child_network child_result].
    split; [done|]. split; [done|]. split; [done|]. by intros [? ?].
Qed.

(** The record of a child does not depend on what the dict holds. *)
Lemma run_child_record env self network shared :
  (run_child env self network shared).2 = (run_child env self network ∅).2.
Proof.
  rewrite !run_child_spec.
  destruct (ipaddress.ip_network network) as [net|e]; [|done].
  cbn zeta. by destruct (sweep_from _ _ _ _ _).1.
Qed.

(** [run] on two different networks, in full. *)
Lemma run_two_spec envs in_order self n1 n2 :
  networks self = [n1; n2] → n1 ≠ n2 →
  let c1 := (run_child (envs 0%nat) (set_ping_failures ∅ self) n1 ∅).2 in
  let c2 := (run_child (envs 1%nat) (set_ping_failures ∅ self) n2 ∅).2 in
  ∃ shared,
    run envs in_order self =
      (Ok tt, set_ping_failures shared self, if in_order then [c1; c2] else [c2; c1]) ∧
    shared !! n1 = sweep_result (envs 0%nat) self n1 ∧
    shared !! n2 = sweep_result (envs 1%nat) self n2 ∧
    (∀ n, n ≠ n1 → n ≠ n2 → shared !! n = None) ∧
    (child_result c1 = Ok tt ↔ is_Some (sweep_result (envs 0%nat) self n1)) ∧
    (child_result c2 = Ok tt ↔ is_Some (sweep_result (envs 1%nat) self n2)).
Proof.
  intros Hn Hne. cbn zeta. rewrite (run_two envs in_order self n1 n2 Hn). cbn zeta.
  pose proof (run_child_result (envs 0%nat) self ∅ n1) as R1.
  pose proof (run_child_result (envs 1%nat) self ∅ n2) as R2.
  cbn zeta in R1, R2.
  destruct in_order.
  - eexists. split.
    { rewrite (run_child_record _ _ n2 _). reflexivity. }
    destruct (R1 ∅) as (E1 & _ & C1). rewrite E1.
    destruct (R2 (match sweep_result (envs 0%nat) self n1 with
                  | Some fs => <[n1 := fs]> ∅ | None => ∅ end)) as (E2 & _ & _).
    destruct (R2 ∅) as (_ & _ & C2).
    rewrite E2. clear E1 E2.
    destruct (sweep_result (envs 0%nat) self n1) as [f1|],
             (sweep_result (envs 1%nat) self n2) as [f2|];
      repeat split; try apply C1; try apply C2;
      try (intros n H1 H2);
      repeat first [rewrite lookup_insert_eq | rewrite lookup_insert_ne by done
                   | rewrite lookup_empty]; done.
  - eexists. split.
    { rewrite (run_child_record _ _ n1 _). reflexivity. }
    destruct (R2 ∅) as (E2 & _ & C2). rewrite E2.
    destruct (R1 (match sweep_result (envs 1%nat) self n2 with
                  | Some fs => <[n2 := fs]> ∅ | None => ∅ end)) as (E1 & _ & _).
    destruct (R1 ∅) as (_ & _ & C1).
    rewrite E1. clear E1 E2.
    destruct (sweep_result (envs 0%nat) self n1) as [f1|],
             (sweep_result (envs 1%nat) self n2) as [f2|];
      repeat split; try apply C1; try apply C2;
      try (intros n H1 H2);
      repeat first [rewrite lookup_insert_eq | rewrite lookup_insert_ne by done
                   | rewrite lookup_empty]; done.
Qed.

End RunTwo.

(** ** [output] on stored failures *)

Section OutputFacts.

Context `{SetOrder}.

Lemma getitem_rsplit1 network :
  getitem (rsplit1 dot network) 0 = Ok (subnet_of network).
Proof.
  unfold rsplit1, subnet_of.
  by destruct (rpartition dot network) as [[before after]|].
Qed.

Lemma mapM_octets fs :
  mapM (λ ip, getitem (split dot (str_ip ip)) 3) fs = Ok (identifiers fs).
Proof.
  induction fs as [|h fs IH]; [done|].
  cbn [mapM]. rewrite split_str_ip_3, IH. done.
Qed.

(** [output] with stored failures, in full. *)
Lemma output_stored_spec self pf n1 n2 :
  networks self = [n1; n2] →
  output_stored self pf =
  match pf !! n1, pf !! n2 with
  | Some f1, Some f2 => Ok (report n1 n2 f1 f2)
  | _, _ => Raise KeyError
  end.
Proof.
  intros Hn. unfold output_stored. rewrite Hn. cbn [format_loop].
  rewrite !getitem_rsplit1. unfold getkey.
  destruct (pf !! n1) as [f1|] eqn:H1; [|done].
  cbn [mbind Res_bind]. rewrite mapM_octets.
  destruct (pf !! n2) as [f2|] eqn:H2; [|done].
  cbn [mbind Res_bind]. rewrite mapM_octets.
  cbn [mbind Res_bind getitem lookup list_lookup].
  destruct (decide (n1 = n2)) as [->|Hne].
  - assert (f1 = f2) as -> by congruence.
    rewrite !lookup_insert_eq. done.
  - rewrite !lookup_insert_eq.
    rewrite !(lookup_insert_ne _ n2 n1) by done.
    rewrite !lookup_insert_eq. done.
Qed.

Lemma elem_of_report n1 n2 f1 f2 s :
  s ∈ report n1 n2 f1 f2 ↔
  (∃ o, s = render n1 o ∧ o ∈ identifiers f1 ∧ o ∉ identifiers f2) ∨
  (∃ o, s = render n2 o ∧ o ∈ identifiers f2 ∧ o ∉ identifiers f1).
Proof.
  unfold report. rewrite elem_of_app, !list_elem_of_fmap.
  setoid_rewrite set_difference_list_elem. naive_solver.
Qed.

End OutputFacts.

(* ===================================================================== *)
(** * §7 The properties of the specification                              *)
(* ===================================================================== *)

(** ** Host enumeration *)

(** C4, as stated, fails on the two longest prefixes: for
    ["10.0.0.0/31"] the enumeration is both addresses of the block, so it
    holds the network address and the broadcast address, and it has two
    elements where [2^(32-31) - 2] is zero. *)
Lemma hosts_slash31_counterexample :
  ∃ net, ipaddress.ip_network "10.0.0.0/31" = Ok net ∧
         network_address net ∈ ipaddress.hosts net ∧
         ipaddress.broadcast_address net ∈ ipaddress.hosts net ∧
         Z.of_nat (length (ipaddress.hosts net)) ≠ 2 ^ (32 - prefixlen net) - 2.
Proof.
  exists (mkNet (ip 10 0 0 0) 31). vm_compute.
  split; [reflexivity|]. split; [left|]. split; [right; left|]. discriminate.
Qed.

(** C4 (amended): for every string that [ip_network] accepts with a
    prefix length of at most 30, the enumerated hosts hold neither the
    network address nor the broadcast address, and there are
    [2^(32 - prefixlen) - 2] of them. *)
Theorem hosts_excludes_network_and_broadcast (s : string) (net : IPv4Network) :
  ipaddress.ip_network s = Ok net →
  prefixlen net ≤ 30 →
  (network_address net ∉ ipaddress.hosts net) ∧
  (ipaddress.broadcast_address net ∉ ipaddress.hosts net) ∧
  Z.of_nat (length (ipaddress.hosts net)) = 2 ^ (32 - prefixlen net) - 2.
Proof.
  intros Hv%ip_network_valid Hp.
  rewrite (hosts_eq _ Hv Hp), (broadcast_address_eq _ Hv).
  pose proof (valid_prefixlen _ Hv) as Hpl.
  assert (4 ≤ 2 ^ (32 - prefixlen net)).
  { change 4 with (2 ^ 2). apply Z.pow_le_mono_r; lia. }
  rewrite !elem_of_seqZ, length_seqZ. lia.
Qed.

(** C4 (amended) at [192.168.1.0/24]. *)
Lemma hosts_excludes_network_and_broadcast_witness :
  (network_address (mkNet (ip 192 168 1 0) 24)
     ∉ ipaddress.hosts (mkNet (ip 192 168 1 0) 24)) ∧
  (ipaddress.broadcast_address (mkNet (ip 192 168 1 0) 24)
     ∉ ipaddress.hosts (mkNet (ip 192 168 1 0) 24)) ∧
  Z.of_nat (length (ipaddress.hosts (mkNet (ip 192 168 1 0) 24)))
    = 2 ^ (32 - prefixlen (mkNet (ip 192 168 1 0) 24)) - 2.
Proof.
  apply (hosts_excludes_network_and_broadcast "192.168.1.0/24").
  - vm_compute. reflexivity.
  - vm_compute. discriminate.
Defined.

(** ** The sweep *)

Section SweepProperties.

Context (env : Env).

(** A sweep that returns: its stored result and its log. *)
Lemma not_pingable_ok network pf self pf' st' :
  not_pingable env network pf (mkSt self []) = (Ok pf', st') →
  ∃ net final,
    ipaddress.ip_network network = Ok net ∧
    pf' = <[network := final]> pf ∧
    sweep_from env (excluded_host self) 0 (retries self) (ipaddress.hosts net)
    = (Ok final, passes st').
Proof.
  destruct (not_pingable_spec env network pf (mkSt self [])) as (self' & _ & ->).
  cbn [self_of passes length app].
  destruct (ipaddress.ip_network network) as [net|e]; [|discriminate].
  cbn zeta. fold (retries self).
  destruct (sweep_from env (excluded_host self) 0 (retries self) (ipaddress.hosts net))
    as [[final|e] log] eqn:Hsw; cbn [fst snd]; [|discriminate].
  intros [= <- <-]. by exists net, final.
Qed.

End SweepProperties.

(** C6: if every ping of the first pass ends with exit code 0, the sweep
    stores an empty failure list and its log has that one pass only,
    whatever the number of attempts (in particular for every number of
    attempts from 1 on). *)
Theorem all_pass_single_round (env : Env) (network : string) (net : IPv4Network)
    (pf : gmap string (list IPv4Address)) (self : NetworkPingComparator) :
  ipaddress.ip_network network = Ok net →
  (∀ h, h ∈ candidates (excluded_host self) (ipaddress.hosts net) → env 0%nat h = Exit 0) →
  ∃ self',
    not_pingable env network pf (mkSt self []) =
    (Ok (<[network := []]> pf),
     mkSt self' [candidates (excluded_host self) (ipaddress.hosts net)]).
Proof.
  intros Hnet Hall.
  destruct (not_pingable_spec env network pf (mkSt self [])) as (self' & _ & ->).
  exists self'. rewrite Hnet. cbn [self_of passes length app].
  set (cs := candidates (excluded_host self) (ipaddress.hosts net)) in *.
  assert (Hok : spawns_ok env 0 cs = true).
  { unfold spawns_ok. apply forallb_forall. intros h Hh%list_elem_of_In.
    by rewrite (Hall h Hh). }
  assert (Hf : failed env 0 cs = []).
  { destruct (failed env 0 cs) as [|h t] eqn:E; [done|].
    assert (Hh : h ∈ failed env 0 cs) by (rewrite E; left).
    unfold failed in Hh. apply list_elem_of_filter in Hh as [Hn Hh].
    unfold nonzero_exit in Hn. by rewrite (Hall h Hh) in Hn. }
  assert (Hsw : ∀ n, sweep_from env (excluded_host self) 0 n (ipaddress.hosts net)
                     = (Ok [], [cs])).
  { intros [|n]; cbn [sweep_from]; fold cs; by rewrite Hok, Hf. }
  cbn zeta. by rewrite Hsw.
Qed.

(** C6 at [192.168.1.0/29], every host answering, host 1 excluded. *)
Lemma all_pass_single_round_witness :
  ∃ self',
    not_pingable (λ _ _, Exit 0) "192.168.1.0/29" ∅
      (mkSt (exclude_host ["1"] (init "192.168.1.0/29" "192.168.2.0/29")) []) =
    (Ok (<["192.168.1.0/29" := []]> ∅),
     mkSt self'
       [candidates (excluded_host (exclude_host ["1"] (init "192.168.1.0/29" "192.168.2.0/29")))
          (ipaddress.hosts (mkNet (ip 192 168 1 0) 29))]).
Proof.
  apply (all_pass_single_round (λ _ _, Exit 0) "192.168.1.0/29"
           (mkNet (ip 192 168 1 0) 29)).
  - vm_compute. reflexivity.
  - intros h _. reflexivity.
Defined.

(** C3: in a sweep that returns, the first pass pings the candidates; every
    later pass pings exactly the hosts that failed in the pass before it
    (which was not empty); there are at most [NUM_ATTEMPTS - 1] later
    passes; the stored failure list is the failure list of the last pass,
    and the sweep stops before its last allowed pass only when nothing is
    failing.  With two attempts: if the first pass fails [A] and [B] and
    both answer in the second, nothing is stored; if only [A] fails the
    second, [A] alone is stored. *)
Theorem retry_narrows (env : Env) (network : string)
    (pf pf' : gmap string (list IPv4Address)) (self : NetworkPingComparator)
    (st' : St) :
  not_pingable env network pf (mkSt self []) = (Ok pf', st') →
  ∃ net final,
    ipaddress.ip_network network = Ok net ∧
    pf' = <[network := final]> pf ∧
    let log := passes st' in
    let first := candidates (excluded_host self) (ipaddress.hosts net) in
    log !! 0%nat = Some first ∧
    (length log - 1 ≤ Z.to_nat (NUM_ATTEMPTS self - 1))%nat ∧
    (∀ i p q, log !! i = Some p → log !! S i = Some q →
              q = failed env i p ∧ q ≠ []) ∧
    (∀ p, last log = Some p → final = failed env (length log - 1) p) ∧
    (final = [] ∨ (length log - 1)%nat = Z.to_nat (NUM_ATTEMPTS self - 1)) ∧
    (NUM_ATTEMPTS self = 2 → ∀ A B, failed env 0 first = [A; B] →
       (env 1%nat A = Exit 0 → env 1%nat B = Exit 0 → final = []) ∧
       (∀ c, env 1%nat A = Exit c → c ≠ 0 → env 1%nat B = Exit 0 → final = [A])).
Proof.
  intros (net & final & Hnet & -> & Hsw)%not_pingable_ok.
  exists net, final. split; [done|]. split; [done|]. cbn zeta.
  destruct (sweep_from_narrowing env _ _ _ _ _ _ Hsw)
    as ([rest Hlog] & Hnar & Hlen & Hstop).
  unfold retries in *.
  split; [by rewrite Hlog|]. split; [lia|].
  split; [intros i p q Hp Hq; by apply (narrowing_lookup env (passes st') 0 final i p q)|].
  split; [intros p Hp; by apply (narrowing_last env (passes st') 0 final p)|].
  split; [destruct Hstop; [by left|right; lia]|].
  intros Hnum A B HAB. rewrite Hnum in Hsw. change (Z.to_nat (2 - 1)) with 1%nat in Hsw.
  cbn [sweep_from] in Hsw.
  destruct (spawns_ok env 0 _); [|discriminate].
  rewrite HAB in Hsw. rewrite <- HAB, candidates_failed, HAB in Hsw.
  destruct (spawns_ok env 1 [A; B]); [|discriminate].
  injection Hsw as <- _. unfold failed, nonzero_exit.
  split.
  - intros HA HB. rewrite !filter_cons, HA, HB. done.
  - intros c HA Hc HB. rewrite !filter_cons, HA, HB.
    destruct (Z.eqb_spec c 0); [done|]. done.
Qed.

(** C3 at [192.168.1.0/29] on the flaky network: two passes, one failure
    stored. *)
Lemma retry_narrows_witness :
  ∃ net final,
    ipaddress.ip_network "192.168.1.0/29" = Ok net ∧
    <["192.168.1.0/29" := [ip 192 168 1 2]]> (∅ : gmap string (list IPv4Address))
      = <["192.168.1.0/29" := final]> ∅ ∧
    let log := [[ip 192 168 1 1; ip 192 168 1 2; ip 192 168 1 3;
                 ip 192 168 1 4; ip 192 168 1 5; ip 192 168 1 6];
                [ip 192 168 1 2; ip 192 168 1 5]] in
    let first := candidates None (ipaddress.hosts net) in
    log !! 0%nat = Some first ∧
    (length log - 1 ≤ Z.to_nat (2 - 1))%nat ∧
    (∀ i p q, log !! i = Some p → log !! S i = Some q →
              q = failed flaky_env i p ∧ q ≠ []) ∧
    (∀ p, last log = Some p → final = failed flaky_env (length log - 1) p) ∧
    (final = [] ∨ (length log - 1)%nat = Z.to_nat (2 - 1)) ∧
    (2 = 2 → ∀ A B, failed flaky_env 0 first = [A; B] →
       (flaky_env 1%nat A = Exit 0 → flaky_env 1%nat B = Exit 0 → final = []) ∧
       (∀ c, flaky_env 1%nat A = Exit c → c ≠ 0 → flaky_env 1%nat B = Exit 0 →
             final = [A])).
Proof.
  apply (retry_narrows flaky_env "192.168.1.0/29" ∅
           (<["192.168.1.0/29" := [ip 192 168 1 2]]> ∅)
           (init "192.168.1.0/29" "192.168.2.0/29")
           (mkSt (set_hosts [ip 192 168 1 2; ip 192 168 1 5]
                    (init "192.168.1.0/29" "192.168.2.0/29"))
                 [[ip 192 168 1 1; ip 192 168 1 2; ip 192 168 1 3;
                   ip 192 168 1 4; ip 192 168 1 5; ip 192 168 1 6];
                  [ip 192 168 1 2; ip 192 168 1 5]])).
  vm_compute. reflexivity.
Defined.

(** C10: one call of [__ping_network] returns a sublist of the hosts it
    pinged, which are hosts of [self.hosts]; and in a sweep that returns,
    every retry pass pings exactly the failures of the pass before it, the
    passes shrink, and the stored failure list is contained in the last
    pass, hence in the candidates: the enumerated hosts that are not
    excluded. *)
Theorem failures_shrink (env : Env) (network : string)
    (pf pf' : gmap string (list IPv4Address)) (self : NetworkPingComparator)
    (st' : St) :
  not_pingable env network pf (mkSt self []) = (Ok pf', st') →
  (∀ st hs fs st1,
     hosts (self_of st) = Some hs → NoDup hs →
     ping_network env st = (Ok fs, st1) →
     ∃ p, passes st1 = passes st ++ [p] ∧ fs ⊆ p ∧ p ⊆ hs) ∧
  ∃ net final,
    ipaddress.ip_network network = Ok net ∧
    pf' = <[network := final]> pf ∧
    let log := passes st' in
    let first := candidates (excluded_host self) (ipaddress.hosts net) in
    log !! 0%nat = Some first ∧
    (∀ i p, log !! i = Some p → failed env i p ⊆ p) ∧
    (∀ i p q, log !! i = Some p → log !! S i = Some q → q = failed env i p) ∧
    (∀ i j p q, (i ≤ j)%nat → log !! i = Some p → log !! j = Some q → q ⊆ p) ∧
    (∀ p, last log = Some p → final ⊆ p) ∧
    final ⊆ first ∧
    first ⊆ ipaddress.hosts net.
Proof.
  intros (net & final & Hnet & -> & Hsw)%not_pingable_ok. split.
  { intros st hs fs st1 Hhs Hnd. rewrite (ping_network_spec env st hs) by done.
    cbn zeta. destruct (spawns_ok env _ _) eqn:Hok; [|discriminate].
    intros [= <- <-]. eexists. split; [done|].
    rewrite pinged_spawns_ok by done.
    split; [apply failed_subseteq|apply candidates_subseteq]. }
  exists net, final. split; [done|]. split; [done|]. cbn zeta.
  destruct (sweep_from_narrowing env _ _ _ _ _ _ Hsw)
    as ([rest Hlog] & Hnar & Hlen & Hstop).
  assert (H0 : passes st' !! 0%nat = Some
                 (candidates (excluded_host self) (ipaddress.hosts net)))
    by (by rewrite Hlog).
  split; [done|].
  split; [intros i p _; apply failed_subseteq|].
  split; [intros i p q Hp Hq; by apply (narrowing_lookup env (passes st') 0 final i p q)|].
  split; [intros i j p q; by apply (narrowing_shrinks env (passes st') 0 final)|].
  split.
  { intros p Hp. rewrite (narrowing_last env (passes st') 0 final p Hnar Hp).
    apply failed_subseteq. }
  split; [by apply (narrowing_final_subseteq env (passes st') 0)|].
  apply candidates_subseteq.
Qed.

(** C10 at the same sweep. *)
Lemma failures_shrink_witness :
  ∃ net final,
    ipaddress.ip_network "192.168.1.0/29" = Ok net ∧
    <["192.168.1.0/29" := [ip 192 168 1 2]]> (∅ : gmap string (list IPv4Address))
      = <["192.168.1.0/29" := final]> ∅ ∧
    final ⊆ candidates None (ipaddress.hosts net).
Proof.
  destruct (failures_shrink flaky_env "192.168.1.0/29" ∅
           (<["192.168.1.0/29" := [ip 192 168 1 2]]> ∅)
           (init "192.168.1.0/29" "192.168.2.0/29")
           (mkSt (set_hosts [ip 192 168 1 2; ip 192 168 1 5]
                    (init "192.168.1.0/29" "192.168.2.0/29"))
                 [[ip 192 168 1 1; ip 192 168 1 2; ip 192 168 1 3;
                   ip 192 168 1 4; ip 192 168 1 5; ip 192 168 1 6];
                  [ip 192 168 1 2; ip 192 168 1 5]]))
    as [_ (net & final & Hnet & Hpf & Hrest)].
  - vm_compute. reflexivity.
  - exists net, final. split; [exact Hnet|]. split; [exact Hpf|].
    apply Hrest.
Defined.

(** ** Probes and errors *)




(** ** Exclusion *)

Section Exclusion.

Context `{SetOrder}.

(** C7: after [run], no host whose identifier is in the exclusion list
    was pinged by any child in any pass, none is in a stored failure
    list, and the text of none is in the report that [output] then
    returns. *)
Theorem excluded_hosts_never_appear (envs envs' : nat → Env)
    (in_order in_order' : bool) (self : NetworkPingComparator)
    (n1 n2 : string) (excl : list string) :
  networks self = [n1; n2] →
  excluded_host self = Some excl →
  ∃ shared children,
    run envs in_order self = (Ok tt, set_ping_failures shared self, children) ∧
    (∀ c p h, c ∈ children → p ∈ child_log c → h ∈ p → last_octet h ∉ excl) ∧
    (∀ network fs h, shared !! network = Some fs → h ∈ fs → last_octet h ∉ excl) ∧
    (∀ l h, (output envs' in_order' (set_ping_failures shared self)).1.1
            = Ok (PyList l) →
            last_octet h ∈ excl → str_ip h ∉ l).
Proof.
  intros Hnets Hex.
  destruct (run_ind
    (λ shared children,
       (∀ c p h, c ∈ children → p ∈ child_log c → h ∈ p → last_octet h ∉ excl) ∧
       (∀ network fs h, shared !! network = Some fs → h ∈ fs → last_octet h ∉ excl))
    envs in_order self) as (shared & children & Hrun & Hlog & Hsh).
  { split; [intros c p h Hc; by apply elem_of_nil in Hc|].
    intros network fs h Hl. by rewrite lookup_empty in Hl. }
  { intros shared children i network _ [IHlog IHsh]. cbn zeta.
    rewrite run_child_spec. cbn [excluded_host set_ping_failures NUM_ATTEMPTS].
    rewrite Hex.
    destruct (ipaddress.ip_network network) as [net|e]; cbn [fst snd].
    - cbn zeta.
      destruct (sweep_from (envs i) (Some excl) 0 (Z.to_nat (NUM_ATTEMPTS self - 1))
                  (ipaddress.hosts net)) as [[fs|e] log] eqn:Hsw; cbn [fst snd].
      + split.
        * intros c p h [Hc|Hc%list_elem_of_singleton]%elem_of_app;
          [by eapply IHlog|subst c].
          cbn [child_log]. intros Hp Hh.
          eapply (sweep_from_log (envs i) (Some excl)); [|done].
          rewrite Hsw. done.
        * intros network' fs' h.
          destruct (decide (network = network')) as [<-|Hne].
          -- rewrite lookup_insert_eq. intros [= <-] Hh.
             destruct (sweep_from_narrowing _ _ _ _ _ _ _ Hsw)
               as ([rest Hl] & Hnar & _).
             eapply (candidates_not_excluded (Some excl)).
             eapply (narrowing_final_subseteq (envs i) log 0); [done| |done].
             by rewrite Hl.
          -- rewrite lookup_insert_ne by done. apply IHsh.
      + split; [|done].
        intros c p h [Hc|Hc%list_elem_of_singleton]%elem_of_app;
          [by eapply IHlog|subst c].
        cbn [child_log]. intros Hp Hh.
        eapply (sweep_from_log (envs i) (Some excl)); [|done].
        rewrite Hsw. done.
    - split; [|done].
      intros c p h [Hc|Hc%list_elem_of_singleton]%elem_of_app;
          [by eapply IHlog|subst c].
      cbn [child_log]. intros Hp. by apply elem_of_nil in Hp. }
  exists shared, children. split; [done|]. split; [done|]. split; [done|].
  intros l h. unfold output, recursion_limit. cbn [output_fuel ping_failures set_ping_failures fst].
  rewrite (output_stored_spec _ shared n1 n2) by done.
  destruct (shared !! n1) as [f1|] eqn:H1; [|discriminate].
  destruct (shared !! n2) as [f2|] eqn:H2; [|discriminate].
  intros [= <-] Hh Hin.
  apply elem_of_report in Hin as [(o & Hs & Ho & _)|(o & Hs & Ho & _)];
    unfold identifiers in Ho; apply list_elem_of_fmap in Ho as (h' & -> & Hh');
    symmetry in Hs; apply rendered_last_octet in Hs; rewrite <- Hs in Hh.
  - by apply (Hsh n1 f1 h' H1 Hh').
  - by apply (Hsh n2 f2 h' H2 Hh').
Qed.

End Exclusion.

(** C7 at two /29 networks with host 2 excluded. *)
Lemma excluded_hosts_never_appear_witness :
  ∃ shared children,
    run (λ _, flaky_env) true
      (exclude_host ["2"] (init "192.168.1.0/29" "192.168.2.0/29"))
    = (Ok tt,
       set_ping_failures shared
         (exclude_host ["2"] (init "192.168.1.0/29" "192.168.2.0/29")),
       children) ∧
    (∀ c p h, c ∈ children → p ∈ child_log c → h ∈ p → last_octet h ∉ ["2"]).
Proof.
  destruct (@excluded_hosts_never_appear first_seen_order
              (λ _, flaky_env) (λ _, flaky_env) true true
              (exclude_host ["2"] (init "192.168.1.0/29" "192.168.2.0/29"))
              "192.168.1.0/29" "192.168.2.0/29" ["2"])
    as (shared & children & Hrun & Hlog & _).
  - reflexivity.
  - reflexivity.
  - exists shared, children. split; [exact Hrun|exact Hlog].
Defined.

(** ** Invalid networks *)


Section InvalidSubnet.

Context `{SetOrder}.











End InvalidSubnet.


(** ** [output] before [run] *)

Section OutputBeforeRun.

Context `{SetOrder}.

(** After [run] the failures are stored, so the call of [output] inside
    [output] takes the first branch: one level of recursion is enough. *)
Lemma output_fuel_enough fuel envs in_order self :
  output_fuel (S fuel) envs in_order self = output_fuel 1 envs in_order self.
Proof.
  cbn [output_fuel]. destruct (ping_failures self); [done|].
  destruct (run_returns envs in_order self) as (shared & children & ->).
  destruct fuel; reflexivity.
Qed.

Lemma output_before_run_no_list fuel envs in_order self l :
  ping_failures self = None →
  (output_fuel fuel envs in_order self).1.1 ≠ Ok (PyList l).
Proof.
  intros Hnone. destruct fuel as [|fuel]; cbn [output_fuel]; rewrite Hnone; [done|].
  destruct (run envs in_order self) as [[[[]|e] self'] children]; [|done].
  by destruct (output_fuel fuel envs in_order self') as [[[v|e] self''] children'].
Qed.

End OutputBeforeRun.

(** C1 (the code departs from it): called on a fresh object, [output]
    never returns a list.  In the example the sweep it runs stores the
    failure of 192.168.1.2, and a second call returns the report, but the
    first call returns [None]. *)
Theorem output_before_run_returns_None :
  (∀ (O : SetOrder) fuel envs in_order n1 n2 l,
     (@output_fuel O fuel envs in_order (init n1 n2)).1.1 ≠ Ok (PyList l)) ∧
  let first_call :=
    @output first_seen_order (λ _, flaky_env) true
      (init "192.168.1.0/29" "192.168.2.0/29") in
  first_call.1.1 = Ok PyNone ∧
  ping_failures first_call.1.2
    = Some (<["192.168.2.0/29" := []]> (<["192.168.1.0/29" := [ip 192 168 1 2]]> ∅)) ∧
  (@output first_seen_order (λ _, flaky_env) true first_call.1.2).1.1
    = Ok (PyList ["192.168.1.2"]).
Proof.
  split.
  - intros O fuel envs in_order n1 n2 l. by apply output_before_run_no_list.
  - cbn zeta. unfold output, recursion_limit. rewrite !output_fuel_enough.
    vm_compute. split_and!; reflexivity.
Qed.

(** ** The mismatch report *)

(** C2, as stated, fails on networks wider than a /24: the report is
    rendered from the text of the network up to its last dot.  On
    [10.0.0.0/23] the only failure, 10.0.1.20, is reported as
    ["10.0.0.20"], which is not that address (and is the address of a host
    that answered). *)
Lemma output_renders_network_prefix_counterexample :
  let after_run :=
    (run (λ _, one_down_env) true (init "10.0.0.0/23" "10.0.2.0/23")).1.2 in
  ping_failures after_run
    = Some (<["10.0.2.0/23" := []]> (<["10.0.0.0/23" := [ip 10 0 1 20]]> ∅)) ∧
  (@output first_seen_order (λ _, one_down_env) true after_run).1.1
    = Ok (PyList ["10.0.0.20"]) ∧
  str_ip (ip 10 0 1 20) = "10.0.1.20" ∧
  str_ip (ip 10 0 1 20) ∉ ["10.0.0.20"].
Proof.
  cbn zeta. unfold output, recursion_limit. rewrite output_fuel_enough.
  vm_compute. split_and!; try reflexivity.
  intros Hin%list_elem_of_singleton. discriminate Hin.
Qed.

Section Report.

Context `{SetOrder}.

Lemma NoDup_only (l : list string) a :
  NoDup l → (∀ o, o ∈ l ↔ o = a) → l = [a].
Proof.
  intros Hnd Hl. destruct l as [|x l]; [exfalso; by eapply elem_of_nil, Hl|].
  assert (x = a) as -> by (apply Hl; left).
  destruct l as [|y l]; [done|].
  assert (y = a) as -> by (apply Hl; right; left).
  apply NoDup_cons in Hnd as [Hn _]. exfalso. apply Hn. left.
Qed.

Lemma nil_no_elem (l : list string) : (∀ o, o ∉ l) → l = [].
Proof. destruct l as [|x l]; [done|]. intros Hl. exfalso. apply (Hl x). left. Qed.

(** [output] on a stored pair of failure lists: the value, the object
    and the children (none). *)
Lemma output_of_stored envs in_order self pf n1 n2 f1 f2 :
  networks self = [n1; n2] → ping_failures self = Some pf →
  pf !! n1 = Some f1 → pf !! n2 = Some f2 →
  output envs in_order self = (Ok (PyList (report n1 n2 f1 f2)), self, []).
Proof.
  intros Hn Hpf H1 H2. unfold output, recursion_limit. cbn [output_fuel].
  by rewrite Hpf, (output_stored_spec self pf n1 n2), H1, H2.
Qed.

(** C2 (amended): on a stored pair of failure lists, [output] returns
    the subnet-1-only entries followed by the subnet-2-only entries, the
    two sides being the set differences of the host identifiers, each
    identifier rendered once behind the text of its own network up to the
    last dot.  A single failure on one side gives one entry; equal
    identifier sets give the empty report.  The entry of a failing
    address is that address whenever the text of the address is the
    rendering of its identifier, which is so for every host of a network
    of at most 256 addresses (prefix length 24 or more) written with its
    prefix length. *)
Theorem output_mismatch_report (envs : nat → Env) (in_order : bool)
    (self : NetworkPingComparator) (pf : gmap string (list IPv4Address))
    (n1 n2 : string) (f1 f2 : list IPv4Address) :
  networks self = [n1; n2] → ping_failures self = Some pf →
  pf !! n1 = Some f1 → pf !! n2 = Some f2 →
  ∃ only1 only2,
    (output envs in_order self).1.1
      = Ok (PyList ((render n1 <$> only1) ++ (render n2 <$> only2))) ∧
    NoDup only1 ∧ NoDup only2 ∧
    (∀ o, o ∈ only1 ↔ o ∈ identifiers f1 ∧ o ∉ identifiers f2) ∧
    (∀ o, o ∈ only2 ↔ o ∈ identifiers f2 ∧ o ∉ identifiers f1) ∧
    (∀ x, f1 = [x] → f2 = [] → only1 = [last_octet x] ∧ only2 = []) ∧
    (∀ y, f1 = [] → f2 = [y] → only1 = [] ∧ only2 = [last_octet y]) ∧
    ((∀ o, o ∈ identifiers f1 ↔ o ∈ identifiers f2) → only1 = [] ∧ only2 = []) ∧
    (∀ x, x ∈ f1 → last_octet x ∉ identifiers f2 →
          str_ip x = render n1 (last_octet x) →
          str_ip x ∈ (render n1 <$> only1) ++ (render n2 <$> only2)) ∧
    (∀ y, y ∈ f2 → last_octet y ∉ identifiers f1 →
          str_ip y = render n2 (last_octet y) →
          str_ip y ∈ (render n1 <$> only1) ++ (render n2 <$> only2)) ∧
    (∀ net x, ipaddress.ip_network n1 = Ok net → prefix_in_digits n1 →
              24 ≤ prefixlen net → x ∈ ipaddress.hosts net →
              x ∈ f1 → last_octet x ∉ identifiers f2 →
              str_ip x ∈ (render n1 <$> only1) ++ (render n2 <$> only2)) ∧
    (∀ net y, ipaddress.ip_network n2 = Ok net → prefix_in_digits n2 →
              24 ≤ prefixlen net → y ∈ ipaddress.hosts net →
              y ∈ f2 → last_octet y ∉ identifiers f1 →
              str_ip y ∈ (render n1 <$> only1) ++ (render n2 <$> only2)).
Proof.
  intros Hn Hpf H1 H2.
  exists (set_difference_list (identifiers f1) (identifiers f2)),
         (set_difference_list (identifiers f2) (identifiers f1)).
  rewrite (output_of_stored envs in_order self pf n1 n2 f1 f2) by done.
  split; [done|].
  split; [apply set_difference_list_NoDup|].
  split; [apply set_difference_list_NoDup|].
  split; [apply set_difference_list_elem|].
  split; [apply set_difference_list_elem|].
  split.
  { intros x -> ->. split.
    - apply NoDup_only; [apply set_difference_list_NoDup|].
      intros o. rewrite set_difference_list_elem. cbn.
      rewrite list_elem_of_singleton. split; [tauto|].
      intros ->. split; [done|apply not_elem_of_nil].
    - apply nil_no_elem. intros o. rewrite set_difference_list_elem. cbn.
      intros [[]%elem_of_nil _]. }
  split.
  { intros y -> ->. split.
    - apply nil_no_elem. intros o. rewrite set_difference_list_elem. cbn.
      intros [[]%elem_of_nil _].
    - apply NoDup_only; [apply set_difference_list_NoDup|].
      intros o. rewrite set_difference_list_elem. cbn.
      rewrite list_elem_of_singleton. split; [tauto|].
      intros ->. split; [done|apply not_elem_of_nil]. }
  split.
  { intros Heq. split; apply nil_no_elem; intros o;
      rewrite set_difference_list_elem, Heq; tauto. }
  assert (Hin1 : ∀ x, x ∈ f1 → last_octet x ∉ identifiers f2 →
            str_ip x = render n1 (last_octet x) →
            str_ip x ∈ (render n1 <$> set_difference_list (identifiers f1) (identifiers f2))
                       ++ (render n2 <$> set_difference_list (identifiers f2) (identifiers f1))).
  { intros x Hx Hno ->. apply elem_of_app. left.
    apply list_elem_of_fmap. exists (last_octet x). split; [done|].
    apply set_difference_list_elem. split; [|done].
    unfold identifiers. apply list_elem_of_fmap. eauto. }
  assert (Hin2 : ∀ y, y ∈ f2 → last_octet y ∉ identifiers f1 →
            str_ip y = render n2 (last_octet y) →
            str_ip y ∈ (render n1 <$> set_difference_list (identifiers f1) (identifiers f2))
                       ++ (render n2 <$> set_difference_list (identifiers f2) (identifiers f1))).
  { intros y Hy Hno ->. apply elem_of_app. right.
    apply list_elem_of_fmap. exists (last_octet y). split; [done|].
    apply set_difference_list_elem. split; [|done].
    unfold identifiers. apply list_elem_of_fmap. eauto. }
  split; [exact Hin1|]. split; [exact Hin2|]. split.
  - intros net x Hnet Hdig Hp Hhost Hx Hno. apply Hin1; [done|done|].
    symmetry. by eapply render_host.
  - intros net y Hnet Hdig Hp Hhost Hy Hno. apply Hin2; [done|done|].
    symmetry. by eapply render_host.
Qed.

End Report.

(** C5 (amended): [output] on stored failure lists changes nothing in the
    object, so calling it again gives the same list.  The list is the
    rendering of two lists of identifiers, one for each side: the first
    holds, once each, the identifiers that fail on network 1 and not on
    network 2, the second those that fail on network 2 and not on
    network 1.  Nothing fixes the order inside a side, which is the
    iteration order of a Python set: under another order each side is a
    permutation of what it was. *)
Theorem output_fixed_up_to_set_order (O O' : SetOrder)
    (envs envs' : nat → Env) (in_order in_order' : bool)
    (self : NetworkPingComparator) (pf : gmap string (list IPv4Address))
    (n1 n2 : string) (f1 f2 : list IPv4Address) :
  networks self = [n1; n2] → ping_failures self = Some pf →
  pf !! n1 = Some f1 → pf !! n2 = Some f2 →
  ∃ only1 only2 only1' only2',
    @output O envs in_order self
      = (Ok (PyList ((render n1 <$> only1) ++ (render n2 <$> only2))), self, []) ∧
    @output O envs' in_order' (@output O envs in_order self).1.2
      = (Ok (PyList ((render n1 <$> only1) ++ (render n2 <$> only2))), self, []) ∧
    @output O' envs' in_order' self
      = (Ok (PyList ((render n1 <$> only1') ++ (render n2 <$> only2'))), self, []) ∧
    (NoDup only1 ∧ ∀ o, o ∈ only1 ↔ o ∈ identifiers f1 ∧ o ∉ identifiers f2) ∧
    (NoDup only2 ∧ ∀ o, o ∈ only2 ↔ o ∈ identifiers f2 ∧ o ∉ identifiers f1) ∧
    (NoDup only1' ∧ ∀ o, o ∈ only1' ↔ o ∈ identifiers f1 ∧ o ∉ identifiers f2) ∧
    (NoDup only2' ∧ ∀ o, o ∈ only2' ↔ o ∈ identifiers f2 ∧ o ∉ identifiers f1) ∧
    only1 ≡ₚ only1' ∧ only2 ≡ₚ only2' ∧
    (render n1 <$> only1) ≡ₚ (render n1 <$> only1') ∧
    (render n2 <$> only2) ≡ₚ (render n2 <$> only2').
Proof.
  intros Hn Hpf H1 H2.
  exists (@set_difference_list O (identifiers f1) (identifiers f2)),
         (@set_difference_list O (identifiers f2) (identifiers f1)),
         (@set_difference_list O' (identifiers f1) (identifiers f2)),
         (@set_difference_list O' (identifiers f2) (identifiers f1)).
  rewrite (@output_of_stored O envs in_order self pf n1 n2 f1 f2) by done.
  cbn [fst snd].
  rewrite (@output_of_stored O envs' in_order' self pf n1 n2 f1 f2) by done.
  rewrite (@output_of_stored O' envs' in_order' self pf n1 n2 f1 f2) by done.
  assert (Hperm : ∀ a b : list string,
            @set_difference_list O a b ≡ₚ @set_difference_list O' a b).
  { intros a b. apply NoDup_Permutation; try apply set_difference_list_NoDup.
    intros o. by rewrite !set_difference_list_elem. }
  split; [done|]. split; [done|]. split; [done|].
  repeat (split; [split; [apply set_difference_list_NoDup
                         |intros o; apply set_difference_list_elem]|]).
  split; [apply Hperm|]. split; [apply Hperm|].
  split; apply fmap_Permutation, Hperm.
Qed.

(** C2 (amended) at the test-suite's case of one failure on network 1. *)
Lemma output_mismatch_report_witness :
  ∃ only1 only2,
    (@output first_seen_order (λ _ _ _, Exit 0) true
       (stored [ip 192 168 1 20] [])).1.1
      = Ok (PyList ((render NETWORK_1 <$> only1) ++ (render NETWORK_2 <$> only2))) ∧
    only1 = ["20"] ∧ only2 = [].
Proof.
  destruct (@output_mismatch_report first_seen_order (λ _ _ _, Exit 0) true
              (stored [ip 192 168 1 20] [])
              (<[NETWORK_2 := []]> (<[NETWORK_1 := [ip 192 168 1 20]]> ∅))
              NETWORK_1 NETWORK_2 [ip 192 168 1 20] [])
    as (only1 & only2 & Hout & _ & _ & _ & _ & Hone & _);
    [reflexivity|reflexivity|vm_compute; reflexivity|vm_compute; reflexivity|].
  exists only1, only2. split; [exact Hout|].
  exact (Hone (ip 192 168 1 20) eq_refl eq_refl).
Defined.

(** C5, as stated, fails: nothing sorts the two sides.  The same stored
    failures give two different lists under the two set orders, so no
    order on the entries has both lists sorted. *)
Lemma output_order_counterexample :
  let self := stored [ip 192 168 1 3; ip 192 168 1 20] [] in
  (@output first_seen_order (λ _ _ _, Exit 0) true self).1.1
    = Ok (PyList ["192.168.1.3"; "192.168.1.20"]) ∧
  (@output last_seen_order (λ _ _ _, Exit 0) true self).1.1
    = Ok (PyList ["192.168.1.20"; "192.168.1.3"]).
Proof. vm_compute. split; reflexivity. Qed.

(** C5 (amended) at two failures on network 1 and the two set orders. *)
Lemma output_fixed_up_to_set_order_witness :
  ∃ only1 only2 only1' only2',
    @output first_seen_order (λ _ _ _, Exit 0) true
      (stored [ip 192 168 1 3; ip 192 168 1 20] [])
    = (Ok (PyList ((render NETWORK_1 <$> only1) ++ (render NETWORK_2 <$> only2))),
       stored [ip 192 168 1 3; ip 192 168 1 20] [], []) ∧
    @output last_seen_order (λ _ _ _, Exit 0) true
      (stored [ip 192 168 1 3; ip 192 168 1 20] [])
    = (Ok (PyList ((render NETWORK_1 <$> only1') ++ (render NETWORK_2 <$> only2'))),
       stored [ip 192 168 1 3; ip 192 168 1 20] [], []) ∧
    (∀ o, o ∈ only1 ↔
          o ∈ identifiers [ip 192 168 1 3; ip 192 168 1 20] ∧ o ∉ identifiers []) ∧
    only1 ≡ₚ only1' ∧ only2 ≡ₚ only2'.
Proof.
  destruct (@output_fixed_up_to_set_order first_seen_order last_seen_order
              (λ _ _ _, Exit 0) (λ _ _ _, Exit 0) true true
              (stored [ip 192 168 1 3; ip 192 168 1 20] [])
              (<[NETWORK_2 := []]> (<[NETWORK_1 := [ip 192 168 1 3; ip 192 168 1 20]]> ∅))
              NETWORK_1 NETWORK_2 [ip 192 168 1 3; ip 192 168 1 20] [])
    as (o1 & o2 & o1' & o2' & Hout & _ & Hout' & [_ Hm1] & _ & _ & _ & Hp1 & Hp2 & _);
    [reflexivity|reflexivity|vm_compute; reflexivity|vm_compute; reflexivity|].
  exists o1, o2, o1', o2'. split; [exact Hout|]. split; [exact Hout'|].
  split; [exact Hm1|]. split; [exact Hp1|exact Hp2].
Defined.

(* ===================================================================== *)
(** * §8 Further properties of the code                                   *)
(* ===================================================================== *)

(** ** More on the passes of a sweep *)

Section SweepBounds.

Context (env : Env).

Lemma pinged_NoDup k hs : NoDup hs → NoDup (pinged env k hs).
Proof.
  induction 1 as [|h hs Hh Hnd IH]; cbn [pinged]; [constructor|].
  destruct (env k h).
  - constructor; [|done]. intros Hin%pinged_subseteq. done.
  - apply NoDup_singleton.
Qed.

(** A sweep makes at least one pass and at most one more than it may
    retry, whatever its outcome. *)
Lemma sweep_from_length ex n : ∀ k hs,
  (1 ≤ length (sweep_from env ex k n hs).2 ≤ S n)%nat.
Proof.
  induction n as [|n IH]; intros k hs; cbn [sweep_from];
    destruct (spawns_ok env k (candidates ex hs)); cbn [snd length]; try lia.
  destruct (failed env k (candidates ex hs)) as [|f fs]; cbn [snd length]; [lia|].
  specialize (IH (S k) (f :: fs)).
  destruct (sweep_from env ex (S k) n (f :: fs)) as [r log'].
  cbn [snd length] in *. lia.
Qed.

(** No pass pings a host twice. *)
Lemma sweep_from_NoDup ex n : ∀ k hs p,
  NoDup hs → p ∈ (sweep_from env ex k n hs).2 → NoDup p.
Proof.
  induction n as [|n IH]; intros k hs p Hnd; cbn [sweep_from];
    destruct (spawns_ok env k (candidates ex hs)); cbn [snd].
  - intros ->%list_elem_of_singleton. by apply candidates_NoDup.
  - intros ->%list_elem_of_singleton. by apply pinged_NoDup, candidates_NoDup.
  - destruct (failed env k (candidates ex hs)) as [|f fs] eqn:Hfs; cbn [snd].
    + intros ->%list_elem_of_singleton. by apply candidates_NoDup.
    + destruct (sweep_from env ex (S k) n (f :: fs)) as [r log'] eqn:Hsw.
      cbn [snd]. intros [->|Hp]%elem_of_cons; [by apply candidates_NoDup|].
      apply (IH (S k) (f :: fs)); [|by rewrite Hsw].
      rewrite <- Hfs. by apply failed_NoDup, candidates_NoDup.
  - intros ->%list_elem_of_singleton. by apply pinged_NoDup, candidates_NoDup.
Qed.

(** A host pinged in a later pass was pinged in every earlier pass and
    ended there with a non-zero exit code, whatever the outcome of the
    sweep. *)
Lemma sweep_from_later ex n : ∀ k hs i j p q h,
  (i < j)%nat →
  (sweep_from env ex k n hs).2 !! i = Some p →
  (sweep_from env ex k n hs).2 !! j = Some q →
  h ∈ q → h ∈ p ∧ nonzero_exit env (k + i) h = true.
Proof.
  induction n as [|n IH]; intros k hs i j p q h Hij; cbn [sweep_from];
    destruct (spawns_ok env k (candidates ex hs)); cbn [snd];
    try (intros _ Hq; destruct j as [|[|j]]; [lia|done|done]).
  destruct (failed env k (candidates ex hs)) as [|f fs] eqn:Hfs; cbn [snd];
    try (intros _ Hq; destruct j as [|[|j]]; [lia|done|done]).
  destruct (sweep_from env ex (S k) n (f :: fs)) as [r log'] eqn:Hsw.
  cbn [snd]. destruct j as [|j]; [lia|]. cbn [lookup list_lookup].
  destruct i as [|i].
  - intros [= <-] Hq Hh. rewrite Nat.add_0_r.
    assert (Hin : h ∈ failed env k (candidates ex hs)).
    { rewrite Hfs. apply (sweep_from_log env ex n (S k) (f :: fs) q h); [|done].
      rewrite Hsw. by eapply list_elem_of_lookup_2. }
    unfold failed in Hin. apply list_elem_of_filter in Hin as [? ?]. done.
  - intros Hp Hq Hh. rewrite <- Nat.add_succ_comm.
    apply (IH (S k) (f :: fs) i j p q h); [lia| | |done]; by rewrite Hsw.
Qed.

(** What a narrowing log ends with: the hosts of its first pass that
    failed in every pass. *)
Lemma narrowing_final log : ∀ k final p h,
  narrowing env k log final → log !! 0%nat = Some p →
  h ∈ final ↔
  h ∈ p ∧ ∀ i, (i < length log)%nat → nonzero_exit env (k + i) h = true.
Proof.
  induction log as [|p0 log IH]; intros k final p h; [done|].
  cbn [narrowing]. intros [Hok Hrest] [= <-].
  destruct log as [|q0 log].
  - subst final. unfold failed. rewrite list_elem_of_filter. cbn [length].
    split.
    + intros [Hn Hin]. split; [done|]. intros i Hi.
      replace i with 0%nat by lia. by rewrite Nat.add_0_r.
    + intros [Hin Hall]. split; [|done].
      specialize (Hall 0%nat). rewrite Nat.add_0_r in Hall. apply Hall. lia.
  - destruct Hrest as (Hq & Hne & Hnar).
    rewrite (IH (S k) final q0 h Hnar eq_refl). subst q0.
    unfold failed at 1. rewrite list_elem_of_filter.
    split.
    + intros [[Hn Hin] Hall]. split; [done|]. intros [|i] Hi.
      * by rewrite Nat.add_0_r.
      * rewrite <- Nat.add_succ_comm. apply Hall. cbn [length] in *. lia.
    + intros [Hin Hall]. split; [split; [|done]|].
      * specialize (Hall 0%nat). rewrite Nat.add_0_r in Hall. apply Hall.
        cbn [length]. lia.
      * intros i Hi. rewrite Nat.add_succ_comm. apply Hall. cbn [length] in *. lia.
Qed.

End SweepBounds.

Section CountFacts.

Lemma filter_eq_NoDup_length (h : IPv4Address) (l : list IPv4Address) :
  NoDup l → (length (filter (λ x, x = h) l) ≤ 1)%nat.
Proof.
  induction 1 as [|x l Hx Hnd IH]; [cbn; lia|].
  rewrite filter_cons. destruct (decide (x = h)) as [->|Hne]; [|done].
  cbn [length].
  assert (Hnil : filter (λ x, x = h) l = []).
  { destruct (filter (λ x, x = h) l) as [|y t] eqn:E; [done|].
    assert (Hy : y ∈ filter (λ x, x = h) l) by (rewrite E; left).
    apply list_elem_of_filter in Hy as [-> Hy]. done. }
  rewrite Hnil. cbn. lia.
Qed.

Lemma filter_eq_concat_length (h : IPv4Address) (log : Log) :
  (∀ p, p ∈ log → NoDup p) →
  (length (filter (λ x, x = h) (concat log)) ≤ length log)%nat.
Proof.
  induction log as [|p log IH]; intros Hnd; [cbn; lia|].
  cbn [concat]. rewrite filter_app, length_app. cbn [length].
  pose proof (filter_eq_NoDup_length h p (Hnd p ltac:(left))).
  specialize (IH (λ q Hq, Hnd q ltac:(by right))). lia.
Qed.

End CountFacts.

(** X1: the failure list that a sweep stores holds exactly the enumerated
    hosts that are not excluded and whose ping ended with a non-zero exit
    code in every pass the sweep made. *)
Theorem stored_failures_failed_every_pass (env : Env) (network : string)
    (pf pf' : gmap string (list IPv4Address)) (self : NetworkPingComparator)
    (st' : St) :
  not_pingable env network pf (mkSt self []) = (Ok pf', st') →
  ∃ net final,
    ipaddress.ip_network network = Ok net ∧
    pf' !! network = Some final ∧
    ∀ h, h ∈ final ↔
         h ∈ ipaddress.hosts net ∧
         (last_octet h ∉ excluded_list (excluded_host self)) ∧
         ∀ i, (i < length (passes st'))%nat → nonzero_exit env i h = true.
Proof.
  intros (net & final & Hnet & -> & Hsw)%not_pingable_ok.
  exists net, final. split; [done|]. split; [by rewrite lookup_insert_eq|].
  destruct (sweep_from_narrowing env _ _ _ _ _ _ Hsw)
    as ([rest Hlog] & Hnar & _ & _).
  intros h.
  rewrite (narrowing_final env (passes st') 0 final
             (candidates (excluded_host self) (ipaddress.hosts net)) h Hnar)
    by (by rewrite Hlog).
  unfold candidates. rewrite list_elem_of_filter. cbn [Nat.add]. tauto.
Qed.

(** X1 on the flaky network: only 192.168.1.2 fails both passes. *)
Lemma stored_failures_failed_every_pass_witness :
  ∃ net final,
    ipaddress.ip_network "192.168.1.0/29" = Ok net ∧
    (<["192.168.1.0/29" := [ip 192 168 1 2]]> ∅ : gmap string (list IPv4Address))
      !! "192.168.1.0/29" = Some final ∧
    ∀ h, h ∈ final ↔
         h ∈ ipaddress.hosts net ∧
         (last_octet h ∉ excluded_list None) ∧
         ∀ i, (i < 2)%nat → nonzero_exit flaky_env i h = true.
Proof.
  apply (stored_failures_failed_every_pass flaky_env "192.168.1.0/29" ∅
           (<["192.168.1.0/29" := [ip 192 168 1 2]]> ∅)
           (init "192.168.1.0/29" "192.168.2.0/29")
           (mkSt (set_hosts [ip 192 168 1 2; ip 192 168 1 5]
                    (init "192.168.1.0/29" "192.168.2.0/29"))
                 [[ip 192 168 1 1; ip 192 168 1 2; ip 192 168 1 3;
                   ip 192 168 1 4; ip 192 168 1 5; ip 192 168 1 6];
                  [ip 192 168 1 2; ip 192 168 1 5]])).
  vm_compute. reflexivity.
Defined.

(** X2: however a sweep ends (also when a ping cannot be started), a host
    pinged in some pass was pinged in every earlier pass and its ping
    ended there with a non-zero exit code; so a host that answered once
    is never pinged again. *)
Theorem retry_pings_only_earlier_failures (env : Env) (network : string)
    (pf : gmap string (list IPv4Address)) (self : NetworkPingComparator)
    (r : Res (gmap string (list IPv4Address))) (st' : St)
    (i j : nat) (p q : list IPv4Address) (h : IPv4Address) :
  not_pingable env network pf (mkSt self []) = (r, st') →
  (i < j)%nat → passes st' !! i = Some p → passes st' !! j = Some q → h ∈ q →
  h ∈ p ∧ ∃ code, env i h = Exit code ∧ code ≠ 0.
Proof.
  destruct (not_pingable_spec env network pf (mkSt self [])) as (self' & _ & ->).
  cbn [self_of passes length app].
  destruct (ipaddress.ip_network network) as [net|e].
  - cbn zeta. intros [= _ <-] Hij Hp Hq Hh. cbn [passes] in *.
    destruct (sweep_from_later env _ _ _ _ _ _ _ _ _ Hij Hp Hq Hh) as [Hin Hnz].
    split; [done|]. cbn [Nat.add] in Hnz. unfold nonzero_exit in Hnz.
    destruct (env i h) as [code|]; [|done].
    apply negb_true_iff, Z.eqb_neq in Hnz.
    by exists code.
  - intros [= _ <-] _ Hp. done.
Qed.

(** X2 on the flaky network: 192.168.1.5 is pinged in the second pass. *)
Lemma retry_pings_only_earlier_failures_witness :
  ip 192 168 1 5 ∈ [ip 192 168 1 1; ip 192 168 1 2; ip 192 168 1 3;
                    ip 192 168 1 4; ip 192 168 1 5; ip 192 168 1 6] ∧
  ∃ code, flaky_env 0%nat (ip 192 168 1 5) = Exit code ∧ code ≠ 0.
Proof.
  apply (retry_pings_only_earlier_failures flaky_env "192.168.1.0/29" ∅
           (init "192.168.1.0/29" "192.168.2.0/29")
           (Ok (<["192.168.1.0/29" := [ip 192 168 1 2]]> ∅))
           (mkSt (set_hosts [ip 192 168 1 2; ip 192 168 1 5]
                    (init "192.168.1.0/29" "192.168.2.0/29"))
                 [[ip 192 168 1 1; ip 192 168 1 2; ip 192 168 1 3;
                   ip 192 168 1 4; ip 192 168 1 5; ip 192 168 1 6];
                  [ip 192 168 1 2; ip 192 168 1 5]])
           0%nat 1%nat _ [ip 192 168 1 2; ip 192 168 1 5]).
  - vm_compute. reflexivity.
  - lia.
  - reflexivity.
  - reflexivity.
  - right. left.
Defined.

(** X3: on a valid network a sweep makes at least one pass and at most
    [max(1, NUM_ATTEMPTS)] passes, however it ends: with [NUM_ATTEMPTS] of
    1, 0 or a negative number it makes exactly one.  No pass pings a host
    twice and every pinged host is a host of the network, so no host is
    pinged more than [max(1, NUM_ATTEMPTS)] times. *)
Theorem pings_per_host_bounded (env : Env) (network : string) (net : IPv4Network)
    (pf : gmap string (list IPv4Address)) (self : NetworkPingComparator)
    (r : Res (gmap string (list IPv4Address))) (st' : St) :
  ipaddress.ip_network network = Ok net →
  not_pingable env network pf (mkSt self []) = (r, st') →
  1 ≤ Z.of_nat (length (passes st')) ≤ Z.max 1 (NUM_ATTEMPTS self) ∧
  (∀ p, p ∈ passes st' → NoDup p ∧ p ⊆ ipaddress.hosts net) ∧
  (∀ h, Z.of_nat (length (filter (λ x, x = h) (concat (passes st'))))
        ≤ Z.max 1 (NUM_ATTEMPTS self)).
Proof.
  intros Hnet.
  destruct (not_pingable_spec env network pf (mkSt self [])) as (self' & _ & ->).
  rewrite Hnet. cbn [self_of passes length app]. cbn zeta.
  intros [= _ <-]. cbn [passes].
  set (n := Z.to_nat (NUM_ATTEMPTS self - 1)).
  pose proof (sweep_from_length env (excluded_host self) n 0 (ipaddress.hosts net))
    as Hlen.
  assert (Hnd : ∀ p, p ∈ (sweep_from env (excluded_host self) 0 n
                            (ipaddress.hosts net)).2 → NoDup p).
  { intros p. apply sweep_from_NoDup, hosts_NoDup. }
  split; [subst n; lia|]. split.
  - intros p Hp. split; [by apply Hnd|].
    intros h Hh. by eapply sweep_from_log.
  - intros h. pose proof (filter_eq_concat_length h _ Hnd). subst n. lia.
Qed.

(** X3 with [NUM_ATTEMPTS = 0] on the flaky network: one pass. *)
Lemma pings_per_host_bounded_witness :
  let log := [[ip 192 168 1 1; ip 192 168 1 2; ip 192 168 1 3;
               ip 192 168 1 4; ip 192 168 1 5; ip 192 168 1 6]] in
  1 ≤ Z.of_nat (length log) ≤ Z.max 1 0 ∧
  (∀ p, p ∈ log → NoDup p ∧ p ⊆ ipaddress.hosts (mkNet (ip 192 168 1 0) 29)) ∧
  (∀ h, Z.of_nat (length (filter (λ x, x = h) (concat log))) ≤ Z.max 1 0).
Proof.
  apply (pings_per_host_bounded flaky_env "192.168.1.0/29"
           (mkNet (ip 192 168 1 0) 29) ∅
           (with_attempts 0 (init "192.168.1.0/29" "192.168.2.0/29"))
           (Ok (<["192.168.1.0/29" := [ip 192 168 1 2; ip 192 168 1 5]]> ∅))
           (mkSt (set_hosts (ipaddress.hosts (mkNet (ip 192 168 1 0) 29))
                    (with_attempts 0 (init "192.168.1.0/29" "192.168.2.0/29")))
                 [[ip 192 168 1 1; ip 192 168 1 2; ip 192 168 1 3;
                   ip 192 168 1 4; ip 192 168 1 5; ip 192 168 1 6]])).
  - vm_compute. reflexivity.
  - vm_compute. reflexivity.
Defined.

(** ** Exclusion *)

Section ExclusionFacts.

Context (env : Env).

(** A property of the decimal texts of all bytes, by enumeration. *)
Lemma byte_text_cases (P : string → bool) :
  forallb (λ b, P (str_int b)) (seqZ 0 256) = true →
  ∀ b, 0 ≤ b ≤ 255 → P (str_int b) = true.
Proof.
  intros Hall b Hb. rewrite forallb_forall in Hall. apply (Hall b).
  apply list_elem_of_In, elem_of_seqZ. lia.
Qed.

Lemma candidates_ext ex ex' hs :
  (∀ b, 0 ≤ b ≤ 255 →
        str_int b ∈ excluded_list ex ↔ str_int b ∈ excluded_list ex') →
  candidates ex hs = candidates ex' hs.
Proof.
  intros Hsame. unfold candidates. apply list_filter_iff. intros h.
  unfold last_octet. pose proof (land_255_range h).
  rewrite (Hsame (Z.land h 255)) by lia. done.
Qed.

Lemma sweep_from_ext ex ex' n :
  (∀ b, 0 ≤ b ≤ 255 →
        str_int b ∈ excluded_list ex ↔ str_int b ∈ excluded_list ex') →
  ∀ k hs, sweep_from env ex k n hs = sweep_from env ex' k n hs.
Proof.
  intros Hsame. induction n as [|n IH]; intros k hs; cbn [sweep_from];
    rewrite (candidates_ext ex ex' hs Hsame); [done|].
  destruct (spawns_ok env k (candidates ex' hs)); [|done].
  destruct (failed env k (candidates ex' hs)) as [|f fs]; [done|].
  by rewrite IH.
Qed.

(** On a network of 4 to 256 addresses the last byte of a host is neither
    0 nor 255. *)
Lemma hosts_last_byte net h :
  valid_network net → 24 ≤ prefixlen net ≤ 30 → h ∈ ipaddress.hosts net →
  1 ≤ Z.land h 255 ≤ 254.
Proof.
  intros Hv Hp. rewrite (hosts_eq net Hv) by lia. rewrite elem_of_seqZ.
  pose proof (network_address_aligned _ Hv) as Hal.
  change 255 with (Z.ones 8). rewrite Z.land_ones by lia. change (2 ^ 8) with 256.
  destruct net as [na p]. cbn [network_address prefixlen] in *.
  assert (Hcases : p = 24 ∨ p = 25 ∨ p = 26 ∨ p = 27 ∨ p = 28 ∨ p = 29 ∨ p = 30)
    by lia.
  repeat destruct Hcases as [->|Hcases]; [..|subst p];
    match type of Hal with
    | _ mod ?k = _ => let v := eval vm_compute in k in change k with v in *
    end;
    intros Hh; Z.div_mod_to_equations; lia.
Qed.

End ExclusionFacts.

(** X4: on a network string without a colon (so not IPv6 text), a sweep
    depends on the object only through [NUM_ATTEMPTS] and through the
    byte texts (the decimal texts of 0 to 255) that the exclusion list
    holds.  So an entry that is no such text (["01"], ["256"], a full
    address) excludes nothing, an empty list is the same as no list, and
    order and repetition of the entries are of no account. *)
Theorem exclusion_only_by_byte_text (env : Env) (network : string)
    (pf : gmap string (list IPv4Address)) (self self' : NetworkPingComparator) :
  contains colon network = false →
  NUM_ATTEMPTS self = NUM_ATTEMPTS self' →
  (∀ b, 0 ≤ b ≤ 255 →
        str_int b ∈ excluded_list (excluded_host self) ↔
        str_int b ∈ excluded_list (excluded_host self')) →
  (not_pingable env network pf (mkSt self [])).1
    = (not_pingable env network pf (mkSt self' [])).1 ∧
  passes (not_pingable env network pf (mkSt self [])).2
    = passes (not_pingable env network pf (mkSt self' [])).2.
Proof.
  intros _ Hnum Hsame.
  destruct (not_pingable_spec env network pf (mkSt self [])) as (s1 & _ & ->).
  destruct (not_pingable_spec env network pf (mkSt self' [])) as (s2 & _ & ->).
  cbn [self_of passes length app].
  destruct (ipaddress.ip_network network) as [net|e]; [|done].
  cbn zeta. rewrite Hnum.
  rewrite (sweep_from_ext env _ _ _ Hsame). done.
Qed.

(** X4 with a full address and a zero-padded number in the list. *)
Lemma exclusion_only_by_byte_text_witness :
  (not_pingable flaky_env "192.168.1.0/29" ∅
     (mkSt (exclude_host ["192.168.1.5"; "05"]
              (init "192.168.1.0/29" "192.168.2.0/29")) [])).1
    = (not_pingable flaky_env "192.168.1.0/29" ∅
         (mkSt (init "192.168.1.0/29" "192.168.2.0/29") [])).1 ∧
  passes (not_pingable flaky_env "192.168.1.0/29" ∅
            (mkSt (exclude_host ["192.168.1.5"; "05"]
                     (init "192.168.1.0/29" "192.168.2.0/29")) [])).2
    = passes (not_pingable flaky_env "192.168.1.0/29" ∅
                (mkSt (init "192.168.1.0/29" "192.168.2.0/29") [])).2.
Proof.
  apply (exclusion_only_by_byte_text flaky_env "192.168.1.0/29" ∅
           (exclude_host ["192.168.1.5"; "05"]
              (init "192.168.1.0/29" "192.168.2.0/29"))
           (init "192.168.1.0/29" "192.168.2.0/29")).
  - reflexivity.
  - reflexivity.
  - intros b Hb. cbn [excluded_list excluded_host exclude_host init default].
    split; [|by intros ?%not_elem_of_nil].
    intros Hin. exfalso.
    assert (Hall : forallb (λ b, negb (bool_decide (str_int b ∈ ["192.168.1.5"; "05"])))
                     (seqZ 0 256) = true) by (vm_compute; reflexivity).
    pose proof (byte_text_cases
                  (λ s, negb (bool_decide (s ∈ ["192.168.1.5"; "05"]))) Hall b Hb) as Hn.
    apply negb_true_iff, bool_decide_eq_false in Hn. done.
Defined.

(** X5: on a valid network with a prefix length from 24 to 30 the last
    octet of an enumerated host is never 0 or 255, so the exclusion test
    of [__spawn_ping_procs] with the module's list [EXCLUDED_HOST] is
    false for every host: the list removes nothing. *)
Theorem default_exclusion_removes_nothing (network : string) (net : IPv4Network)
    (h : IPv4Address) :
  ipaddress.ip_network network = Ok net →
  24 ≤ prefixlen net ≤ 30 →
  h ∈ ipaddress.hosts net →
  1 ≤ Z.land h 255 ≤ 254 ∧ is_excluded (Some EXCLUDED_HOST) h = Ok false.
Proof.
  intros Hnet%ip_network_valid Hp Hh.
  pose proof (hosts_last_byte net h Hnet Hp Hh) as Hb.
  split; [done|]. rewrite is_excluded_spec. f_equal.
  apply bool_decide_eq_false. unfold last_octet.
  cbn [excluded_list default EXCLUDED_HOST].
  assert (Hall : forallb (λ b, negb (bool_decide (str_int b ∈ ["0"; "255"])))
                   (seqZ 1 254) = true) by (vm_compute; reflexivity).
  rewrite forallb_forall in Hall.
  specialize (Hall (Z.land h 255)). rewrite negb_true_iff in Hall.
  apply (bool_decide_eq_false_1 (str_int (Z.land h 255) ∈ ["0"; "255"])), Hall,
    list_elem_of_In, elem_of_seqZ. lia.
Qed.

(** X5 at the first host of the module's first network. *)
Lemma default_exclusion_removes_nothing_witness :
  1 ≤ Z.land (ip 192 168 1 1) 255 ≤ 254 ∧
  is_excluded (Some EXCLUDED_HOST) (ip 192 168 1 1) = Ok false.
Proof.
  apply (default_exclusion_removes_nothing NETWORK_1 (mkNet (ip 192 168 1 0) 24)).
  - vm_compute. reflexivity.
  - cbn. lia.
  - vm_compute. left.
Defined.

(** ** Addresses as text *)

Section TextFacts.

(** Joining the pieces of a split gives the text back. *)
Lemma join_dot_split s : ipaddress.join_dot (split dot s) = s.
Proof.
  induction s as [|c s IH]; [done|]. cbn [split].
  destruct (Ascii.eqb_spec c dot) as [->|Hc].
  - pose proof (split_nonempty dot s) as Hne.
    destruct (split dot s) as [|w ws] eqn:E; [done|].
    change (ipaddress.join_dot (EmptyString :: w :: ws))
      with (EmptyString +:+ String dot (ipaddress.join_dot (w :: ws))).
    by rewrite IH.
  - pose proof (split_nonempty dot s) as Hne.
    destruct (split dot s) as [|w ws] eqn:E; [done|].
    destruct ws as [|w' ws].
    + cbn [ipaddress.join_dot] in *. by rewrite IH.
    + change (ipaddress.join_dot (String c w :: w' :: ws))
        with (String c w +:+ String dot (ipaddress.join_dot (w' :: ws))).
      change (ipaddress.join_dot (w :: w' :: ws))
        with (w +:+ String dot (ipaddress.join_dot (w' :: ws))) in IH.
      by rewrite append_String, IH.
Qed.

(** The parser of octets reads the decimal text of every byte. *)
Lemma parse_octet_byte b : 0 ≤ b ≤ 255 → ipaddress._parse_octet (str_int b) = Ok b.
Proof.
  intros Hb.
  assert (Hall : forallb (λ b, match ipaddress._parse_octet (str_int b) with
                               | Ok x => x =? b
                               | Raise _ => false
                               end) (seqZ 0 256) = true)
    by (vm_compute; reflexivity).
  rewrite forallb_forall in Hall. specialize (Hall b).
  destruct (ipaddress._parse_octet (str_int b)) as [x|e].
  - f_equal. apply Z.eqb_eq, Hall, list_elem_of_In, elem_of_seqZ. lia.
  - discriminate Hall. apply list_elem_of_In, elem_of_seqZ. lia.
Qed.

Lemma str_int_byte_no_slash b : 0 ≤ b ≤ 255 → contains slash (str_int b) = false.
Proof.
  intros Hb.
  assert (Hall : forallb (λ b, negb (contains slash (str_int b))) (seqZ 0 256) = true)
    by (vm_compute; reflexivity).
  rewrite forallb_forall in Hall.
  specialize (Hall b). rewrite negb_true_iff in Hall. apply Hall.
  apply list_elem_of_In, elem_of_seqZ. lia.
Qed.

(** The four bytes of an address, and the address of four bytes. *)
Lemma to_bytes4_range h :
  Forall (λ b, 0 ≤ b ≤ 255) (ipaddress.to_bytes4 h).
Proof.
  unfold ipaddress.to_bytes4.
  repeat constructor; match goal with |- context [Z.land ?x 255] =>
    pose proof (land_255_range x); lia end.
Qed.

Lemma foldl_to_bytes4 h :
  0 ≤ h < 2 ^ 32 →
  foldl (λ acc b, acc * 256 + b) 0 (ipaddress.to_bytes4 h) = h.
Proof.
  intros Hh. unfold ipaddress.to_bytes4. cbn [foldl].
  change 255 with (Z.ones 8). rewrite !Z.land_ones by lia.
  rewrite !Z.shiftr_div_pow2 by lia.
  change (2 ^ 24) with 16777216. change (2 ^ 16) with 65536.
  change (2 ^ 8) with 256. change (2 ^ 32) with 4294967296 in Hh.
  Z.div_mod_to_equations. lia.
Qed.

Lemma mapM_parse_octet_bytes bs :
  Forall (λ b, 0 ≤ b ≤ 255) bs →
  mapM ipaddress._parse_octet (str_int <$> bs) = Ok bs.
Proof.
  induction 1 as [|b bs Hb _ IH]; [done|].
  rewrite fmap_cons. cbn [mapM]. by rewrite (parse_octet_byte b Hb), IH.
Qed.

Lemma str_ip_nonempty h : str_ip h ≠ EmptyString.
Proof.
  destruct (str_ip_last_octet h) as [p ->]. by destruct p.
Qed.

(** Printing an address and reading the text gives the address. *)
Lemma ip_int_from_string_str_ip h :
  0 ≤ h < 2 ^ 32 → ipaddress._ip_int_from_string (str_ip h) = Ok h.
Proof.
  intros Hh. unfold ipaddress._ip_int_from_string.
  pose proof (str_ip_nonempty h) as Hne.
  destruct (str_ip h) as [|c s] eqn:E; [done|]. rewrite <- E.
  rewrite split_str_ip.
  rewrite (mapM_parse_octet_bytes _ (to_bytes4_range h)).
  cbn [length fmap list_fmap ipaddress.to_bytes4 Nat.eqb negb].
  cbn [mbind Res_bind try_except].
  f_equal. by apply foldl_to_bytes4.
Qed.

Lemma str_ip_no_slash h : contains slash (str_ip h) = false.
Proof.
  unfold str_ip, ipaddress._string_from_ip_int, ipaddress.to_bytes4.
  cbn [fmap list_fmap ipaddress.join_dot].
  repeat first [rewrite contains_app | rewrite orb_false_iff | split
               | progress cbn [contains Ascii.eqb Bool.eqb dot slash orb]];
    apply str_int_byte_no_slash;
    match goal with |- context [Z.land ?x 255] =>
      pose proof (land_255_range x); lia end.
Qed.

Lemma IPv4Address_init_str_ip h :
  0 ≤ h < 2 ^ 32 → ipaddress.IPv4Address_init (str_ip h) = Ok h.
Proof.
  intros Hh. unfold ipaddress.IPv4Address_init.
  by rewrite str_ip_no_slash, ip_int_from_string_str_ip.
Qed.

(** Reading a text and printing the address gives the text. *)
Lemma str_ip_of_parsed s a :
  ipaddress._ip_int_from_string s = Ok a → str_ip a = s ∧ 0 ≤ a < 2 ^ 32.
Proof.
  intros Hs. split; [|by eapply ip_int_from_string_range].
  unfold ipaddress._ip_int_from_string in Hs.
  destruct s as [|c s0] eqn:Es; [discriminate|]. rewrite <- Es in *. clear c s0 Es.
  destruct (length (split dot s) =? 4)%nat eqn:Hlen; [|discriminate].
  cbn [negb] in Hs.
  destruct (mapM ipaddress._parse_octet (split dot s)) as [bs|e] eqn:Hm;
    [|cbn in Hs; by destruct (bool_decide _)].
  cbn [mbind Res_bind try_except] in Hs. injection Hs as <-.
  apply Nat.eqb_eq in Hlen.
  destruct (split dot s) as [|o1 [|o2 [|o3 [|o4 [|? ?]]]]] eqn:Hsp; try discriminate.
  apply mapM_cons_Ok in Hm as (b1 & bs1 & H1 & Hm & ->).
  apply mapM_cons_Ok in Hm as (b2 & bs2 & H2 & Hm & ->).
  apply mapM_cons_Ok in Hm as (b3 & bs3 & H3 & Hm & ->).
  apply mapM_cons_Ok in Hm as (b4 & bs4 & H4 & Hm & ->).
  injection Hm as <-.
  pose proof (parse_octet_range _ _ H1). pose proof (parse_octet_range _ _ H2).
  pose proof (parse_octet_range _ _ H3). pose proof (parse_octet_range _ _ H4).
  apply parse_octet_str in H1, H2, H3, H4.
  cbn [foldl]. unfold str_ip, ipaddress._string_from_ip_int.
  replace (0 * 256 + b1) with b1 by lia.
  rewrite to_bytes4_quad by done.
  cbn [fmap list_fmap]. rewrite H1, H2, H3, H4, <- Hsp.
  apply join_dot_split.
Qed.

End TextFacts.

(** X6: [str] and the address parser undo each other: the text of an
    address of 32 bits is read back as that address, and a text that the
    parser accepts is the text [str] gives for the address read; so every
    address has one accepted text. *)
Theorem address_text_round_trip (h : IPv4Address) (s : string) (a : IPv4Address) :
  (0 ≤ h < 2 ^ 32 → ipaddress.IPv4Address_init (str_ip h) = Ok h) ∧
  (ipaddress.IPv4Address_init s = Ok a → str_ip a = s ∧ 0 ≤ a < 2 ^ 32).
Proof.
  split; [apply IPv4Address_init_str_ip|].
  unfold ipaddress.IPv4Address_init.
  destruct (contains slash s); [discriminate|]. apply str_ip_of_parsed.
Qed.

(** X6 at 192.168.1.20. *)
Lemma address_text_round_trip_witness :
  ipaddress.IPv4Address_init (str_ip (ip 192 168 1 20)) = Ok (ip 192 168 1 20) ∧
  str_ip (ip 192 168 1 20) = "192.168.1.20".
Proof.
  destruct (address_text_round_trip (ip 192 168 1 20) "192.168.1.20"
              (ip 192 168 1 20)) as [Hprint Hread].
  split.
  - apply Hprint. vm_compute. split; [discriminate|reflexivity].
  - apply Hread. vm_compute. reflexivity.
Defined.

(** ** Networks as text *)

Section CidrFacts.

(** An aligned address keeps all its bits under the netmask. *)
Lemma land_netmask_aligned a p :
  0 ≤ a < 2 ^ 32 → 0 ≤ p ≤ 32 → a mod 2 ^ (32 - p) = 0 →
  Z.land a (ipaddress._ip_int_from_prefix p) = a.
Proof.
  intros Ha Hp Hal.
  destruct (masks_by_prefix p Hp) as (Hm & _ & _). rewrite Hm.
  assert (Hk : 0 < 2 ^ (32 - p)) by (apply Z.pow_pos_nonneg; lia).
  assert (H32 : 2 ^ 32 = 2 ^ (32 - p) * 2 ^ p).
  { rewrite <- Z.pow_add_r by lia. f_equal. lia. }
  assert (Hq : a = Z.shiftl (a / 2 ^ (32 - p)) (32 - p)).
  { rewrite Z.shiftl_mul_pow2 by lia.
    pose proof (Z.div_mod a (2 ^ (32 - p)) ltac:(lia)). lia. }
  assert (Hmask : 2 ^ 32 - 2 ^ (32 - p) = Z.shiftl (Z.ones p) (32 - p)).
  { rewrite Z.shiftl_mul_pow2, Z.ones_equiv by lia. lia. }
  rewrite Hmask. rewrite Hq at 1. rewrite <- Z.shiftl_land, Z.land_ones by lia.
  rewrite Z.mod_small; [by rewrite <- Hq|].
  split; [apply Z.div_pos; lia|].
  apply Z.div_lt_upper_bound; lia.
Qed.

Lemma str_int_prefix_no_slash p : 0 ≤ p ≤ 32 → contains slash (str_int p) = false.
Proof. intros Hp. apply str_int_byte_no_slash. lia. Qed.

(** A prefix length written in decimal is read as written. *)
Lemma make_netmask_str_int p :
  0 ≤ p ≤ 32 → ipaddress._make_netmask (ipaddress.MaskStr (str_int p)) = Ok p.
Proof.
  intros Hp.
  assert (Hall : forallb (λ p, match ipaddress._make_netmask
                                       (ipaddress.MaskStr (str_int p)) with
                               | Ok x => x =? p
                               | Raise _ => false
                               end) (seqZ 0 33) = true)
    by (vm_compute; reflexivity).
  rewrite forallb_forall in Hall. specialize (Hall p).
  destruct (ipaddress._make_netmask (ipaddress.MaskStr (str_int p))) as [x|e].
  - f_equal. apply Z.eqb_eq, Hall, list_elem_of_In, elem_of_seqZ. lia.
  - discriminate Hall. apply list_elem_of_In, elem_of_seqZ. lia.
Qed.

Lemma split_cidr a p :
  0 ≤ p ≤ 32 →
  split slash (str_ip a +:+ "/" +:+ str_int p) = [str_ip a; str_int p].
Proof.
  intros Hp. change ("/" +:+ str_int p) with (String slash (str_int p)).
  rewrite split_app by apply str_ip_no_slash.
  by rewrite split_no_sep by by apply str_int_prefix_no_slash.
Qed.

End CidrFacts.

(** X7: [ip_network] on an address of 32 bits followed by a slash and a
    prefix length from 0 to 32 in decimal: the network is accepted exactly
    when the address has no bit set below the prefix, and then it is the
    network of that address and prefix length; otherwise [ValueError] is
    raised (host bits set). *)
Theorem ip_network_accepts_aligned_cidr (a p : Z) :
  0 ≤ a < 2 ^ 32 → 0 ≤ p ≤ 32 →
  ipaddress.ip_network (str_ip a +:+ "/" +:+ str_int p) =
  if a mod 2 ^ (32 - p) =? 0 then Ok (mkNet a p) else Raise ValueError.
Proof.
  intros Ha Hp.
  unfold ipaddress.ip_network, ipaddress.IPv4Network_init,
    ipaddress._split_addr_prefix.
  rewrite (split_cidr a p Hp). cbn [length Nat.ltb Nat.leb mbind Res_bind].
  rewrite (IPv4Address_init_str_ip a Ha). cbn [mbind Res_bind].
  rewrite (make_netmask_str_int p Hp). cbn [mbind Res_bind].
  destruct (Z.eqb_spec (a mod 2 ^ (32 - p)) 0) as [Hal|Hal].
  - rewrite (land_netmask_aligned a p Ha Hp Hal), Z.eqb_refl. done.
  - destruct (Z.eqb_spec (Z.land a (ipaddress._ip_int_from_prefix p)) a)
      as [Hland|Hland]; [|done].
    exfalso. apply Hal.
    apply (network_address_aligned (mkNet a p)). by constructor.
Qed.

(** X7 at 10.0.0.0/23. *)
Lemma ip_network_accepts_aligned_cidr_witness :
  ipaddress.ip_network (str_ip (ip 10 0 0 0) +:+ "/" +:+ str_int 23) =
  if ip 10 0 0 0 mod 2 ^ (32 - 23) =? 0 then Ok (mkNet (ip 10 0 0 0) 23)
  else Raise ValueError.
Proof.
  apply (ip_network_accepts_aligned_cidr (ip 10 0 0 0) 23).
  - vm_compute. split; [discriminate|reflexivity].
  - lia.
Defined.

(** X9: [run] on two different networks returns normally with a dict
    that holds, under each network, the failure list its sweep stored,
    when that sweep returned, and no entry for a network whose child ended
    with an exception.  The dict has no other key, and nothing of an
    earlier [ping_failures] is left in it. *)
Theorem run_stores_sweep_results (envs : nat → Env) (in_order : bool)
    (self : NetworkPingComparator) (n1 n2 : string) :
  networks self = [n1; n2] → n1 ≠ n2 →
  ∃ shared children,
    run envs in_order self = (Ok tt, set_ping_failures shared self, children) ∧
    shared !! n1 = sweep_result (envs 0%nat) self n1 ∧
    shared !! n2 = sweep_result (envs 1%nat) self n2 ∧
    (∀ n, n ≠ n1 → n ≠ n2 → shared !! n = None) ∧
    (∀ c, c ∈ children →
          (child_result c = Ok tt ↔ is_Some (shared !! child_network c))).
Proof.
  intros Hn Hne.
  destruct (run_two_spec envs in_order self n1 n2 Hn Hne)
    as (shared & Hrun & H1 & H2 & Hother & C1 & C2).
  exists shared. eexists. split; [exact Hrun|].
  split; [done|]. split; [done|]. split; [done|].
  pose proof (run_child_result (envs 0%nat) self ∅ n1 ∅) as (_ & N1 & _).
  pose proof (run_child_result (envs 1%nat) self ∅ n2 ∅) as (_ & N2 & _).
  intros c Hc.
  assert (Hcases : c = (run_child (envs 0%nat) (set_ping_failures ∅ self) n1 ∅).2 ∨
                   c = (run_child (envs 1%nat) (set_ping_failures ∅ self) n2 ∅).2).
  { destruct in_order;
      repeat (apply elem_of_cons in Hc as [Hc|Hc]; [by auto|]);
      by apply not_elem_of_nil in Hc. }
  destruct Hcases as [-> | ->].
  - by rewrite N1, H1.
  - by rewrite N2, H2.
Qed.

(** X9 on the flaky network. *)
Lemma run_stores_sweep_results_witness :
  ∃ shared children,
    run (λ _, flaky_env) true (init "192.168.1.0/29" "192.168.2.0/29")
      = (Ok tt, set_ping_failures shared (init "192.168.1.0/29" "192.168.2.0/29"),
         children) ∧
    shared !! "192.168.1.0/29"
      = sweep_result flaky_env (init "192.168.1.0/29" "192.168.2.0/29") "192.168.1.0/29" ∧
    shared !! "192.168.2.0/29"
      = sweep_result flaky_env (init "192.168.1.0/29" "192.168.2.0/29") "192.168.2.0/29" ∧
    (∀ n, n ≠ "192.168.1.0/29" → n ≠ "192.168.2.0/29" → shared !! n = None) ∧
    (∀ c, c ∈ children →
          (child_result c = Ok tt ↔ is_Some (shared !! child_network c))).
Proof.
  apply (run_stores_sweep_results (λ _, flaky_env) true
           (init "192.168.1.0/29" "192.168.2.0/29")
           "192.168.1.0/29" "192.168.2.0/29").
  - reflexivity.
  - intros Heq. discriminate Heq.
Defined.

(** X10: on two different networks the object that [run] leaves does not
    depend on which child finishes first; only the order of the children
    differs. *)
Theorem run_independent_of_finish_order (envs : nat → Env)
    (self : NetworkPingComparator) (n1 n2 : string) :
  networks self = [n1; n2] → n1 ≠ n2 →
  (run envs true self).1 = (run envs false self).1 ∧
  (run envs false self).2 = reverse (run envs true self).2.
Proof.
  intros Hn Hne.
  destruct (run_two_spec envs true self n1 n2 Hn Hne)
    as (s & -> & H1 & H2 & Hother & _).
  destruct (run_two_spec envs false self n1 n2 Hn Hne)
    as (s' & -> & H1' & H2' & Hother' & _).
  cbn [fst snd]. split; [|done].
  do 2 f_equal. apply map_eq. intros n.
  destruct (decide (n = n1)) as [->|]; [by rewrite H1, H1'|].
  destruct (decide (n = n2)) as [->|]; [by rewrite H2, H2'|].
  by rewrite Hother, Hother'.
Qed.

(** X10 on the flaky network. *)
Lemma run_independent_of_finish_order_witness :
  (run (λ _, flaky_env) true (init "192.168.1.0/29" "192.168.2.0/29")).1
    = (run (λ _, flaky_env) false (init "192.168.1.0/29" "192.168.2.0/29")).1 ∧
  (run (λ _, flaky_env) false (init "192.168.1.0/29" "192.168.2.0/29")).2
    = reverse (run (λ _, flaky_env) true (init "192.168.1.0/29" "192.168.2.0/29")).2.
Proof.
  apply (run_independent_of_finish_order (λ _, flaky_env)
           (init "192.168.1.0/29" "192.168.2.0/29")
           "192.168.1.0/29" "192.168.2.0/29").
  - reflexivity.
  - intros Heq. discriminate Heq.
Defined.

Section OutputAfterRun.

Context `{SetOrder}.

(** X11: after [run] on two different networks, written without a colon
    (so not IPv6 text), [output] makes no ping and leaves the object as it
    is; it returns a list when both children ended normally, and raises
    [KeyError] when one of them ended with an exception.  It never
    returns [None] and raises nothing else. *)
Theorem output_after_run (envs envs' : nat → Env) (in_order in_order' : bool)
    (self : NetworkPingComparator) (n1 n2 : string) :
  contains colon n1 = false → contains colon n2 = false →
  networks self = [n1; n2] → n1 ≠ n2 →
  let after := (run envs in_order self).1.2 in
  let children := (run envs in_order self).2 in
  ∃ r, output envs' in_order' after = (r, after, []) ∧
       ((∀ c, c ∈ children → child_result c = Ok tt) → ∃ l, r = Ok (PyList l)) ∧
       ((∃ c, c ∈ children ∧ child_result c ≠ Ok tt) → r = Raise KeyError).
Proof.
  intros _ _ Hn Hne.
  destruct (run_two_spec envs in_order self n1 n2 Hn Hne)
    as (shared & Hrun & H1 & H2 & _ & C1 & C2).
  cbn zeta in Hrun, C1, C2. cbn zeta. rewrite Hrun. cbn [fst snd].
  set (c1 := (run_child (envs 0%nat) (set_ping_failures ∅ self) n1 ∅).2) in *.
  set (c2 := (run_child (envs 1%nat) (set_ping_failures ∅ self) n2 ∅).2) in *.
  assert (Hin : ∀ c, c ∈ (if in_order then [c1; c2] else [c2; c1]) ↔ c = c1 ∨ c = c2).
  { intros c. destruct in_order; rewrite !elem_of_cons, elem_of_nil; tauto. }
  unfold output, recursion_limit. cbn [output_fuel ping_failures set_ping_failures].
  rewrite (output_stored_spec _ shared n1 n2) by done.
  rewrite H1, H2. eexists. split; [reflexivity|].
  destruct (sweep_result (envs 0%nat) self n1) as [f1|],
           (sweep_result (envs 1%nat) self n2) as [f2|].
  - split; [by eexists|].
    intros (c & [-> | ->]%Hin & Hc); exfalso; apply Hc; [apply C1|apply C2]; by eexists.
  - split; [|done]. intros Hall.
    destruct (proj1 C2 (Hall c2 (proj2 (Hin c2) (or_intror eq_refl)))) as [? [=]].
  - split; [|done]. intros Hall.
    destruct (proj1 C1 (Hall c1 (proj2 (Hin c1) (or_introl eq_refl)))) as [? [=]].
  - split; [|done]. intros Hall.
    destruct (proj1 C1 (Hall c1 (proj2 (Hin c1) (or_introl eq_refl)))) as [? [=]].
Qed.

End OutputAfterRun.

(** X11 on the flaky network. *)
Lemma output_after_run_witness :
  ∃ r, @output first_seen_order (λ _, flaky_env) true
         (run (λ _, flaky_env) true (init "192.168.1.0/29" "192.168.2.0/29")).1.2
       = (r, (run (λ _, flaky_env) true (init "192.168.1.0/29" "192.168.2.0/29")).1.2,
          []) ∧
       ((∀ c, c ∈ (run (λ _, flaky_env) true
                     (init "192.168.1.0/29" "192.168.2.0/29")).2 →
              child_result c = Ok tt) → ∃ l, r = Ok (PyList l)) ∧
       ((∃ c, c ∈ (run (λ _, flaky_env) true
                     (init "192.168.1.0/29" "192.168.2.0/29")).2 ∧
              child_result c ≠ Ok tt) → r = Raise KeyError).
Proof.
  apply (@output_after_run first_seen_order (λ _, flaky_env) (λ _, flaky_env)
           true true (init "192.168.1.0/29" "192.168.2.0/29")
           "192.168.1.0/29" "192.168.2.0/29").
  - reflexivity.
  - reflexivity.
  - reflexivity.
  - intros Heq. discriminate Heq.
Defined.

(** ** More on the report *)

Section ReportFacts.

Context `{SetOrder}.

Lemma append_inj_r (p a b : string) : p +:+ a = p +:+ b → a = b.
Proof.
  induction p as [|c p IH]; [done|].
  rewrite !append_String. intros [= Heq]. by apply IH.
Qed.

Lemma render_eq n o : render n o = subnet_of n +:+ String dot o.
Proof. reflexivity. Qed.

Lemma render_inj n o o' : render n o = render n o' → o = o'.
Proof. rewrite !render_eq. intros Heq%append_inj_r. by injection Heq. Qed.

Lemma identifiers_no_dot fs o : o ∈ identifiers fs → contains dot o = false.
Proof.
  unfold identifiers. intros (h & -> & _)%list_elem_of_fmap.
  apply last_octet_no_dot.
Qed.

(** Two rendered identifiers that give the same text are the same. *)
Lemma render_same_text n n' o o' :
  contains dot o = false → contains dot o' = false →
  render n o = render n' o' → o = o'.
Proof.
  intros Ho Ho' Heq.
  pose proof (rpartition_app dot (subnet_of n) o Ho) as R.
  pose proof (rpartition_app dot (subnet_of n') o' Ho') as R'.
  rewrite <- render_eq in R, R'. rewrite Heq in R. congruence.
Qed.

Lemma NoDup_fmap_render n l : NoDup l → NoDup (render n <$> l).
Proof.
  induction 1 as [|o l Ho Hnd IH]; [constructor|].
  rewrite fmap_cons. constructor; [|done].
  intros (o' & Heq%render_inj & Ho')%list_elem_of_fmap. by subst.
Qed.

Lemma report_NoDup n1 n2 f1 f2 : NoDup (report n1 n2 f1 f2).
Proof.
  unfold report. apply NoDup_app.
  split; [apply NoDup_fmap_render, set_difference_list_NoDup|].
  split; [|apply NoDup_fmap_render, set_difference_list_NoDup].
  intros s (o & -> & Ho)%list_elem_of_fmap (o' & Heq & Ho')%list_elem_of_fmap.
  apply set_difference_list_elem in Ho as [Ho1 Ho2].
  apply set_difference_list_elem in Ho' as [Ho1' Ho2'].
  apply render_same_text in Heq; [by subst|by eapply identifiers_no_dot..].
Qed.

(** The report of failures on networks of at most 256 addresses written
    with a prefix length: the texts of the failing addresses whose
    identifier does not fail on the other network. *)
Lemma report_addresses n1 n2 net1 net2 f1 f2 s :
  ipaddress.ip_network n1 = Ok net1 → ipaddress.ip_network n2 = Ok net2 →
  prefix_in_digits n1 → prefix_in_digits n2 →
  24 ≤ prefixlen net1 → 24 ≤ prefixlen net2 →
  f1 ⊆ ipaddress.hosts net1 → f2 ⊆ ipaddress.hosts net2 →
  s ∈ report n1 n2 f1 f2 ↔
  (∃ x, x ∈ f1 ∧ s = str_ip x ∧ ∀ y, y ∈ f2 → last_octet y ≠ last_octet x) ∨
  (∃ y, y ∈ f2 ∧ s = str_ip y ∧ ∀ x, x ∈ f1 → last_octet x ≠ last_octet y).
Proof.
  intros Hn1 Hn2 Hd1 Hd2 Hp1 Hp2 Hf1 Hf2.
  rewrite elem_of_report. unfold identifiers.
  assert (Hside : ∀ n net (f g : list IPv4Address),
            ipaddress.ip_network n = Ok net → prefix_in_digits n →
            24 ≤ prefixlen net → f ⊆ ipaddress.hosts net →
            (∃ o, s = render n o ∧ o ∈ last_octet <$> f ∧ o ∉ last_octet <$> g) ↔
            (∃ x, x ∈ f ∧ s = str_ip x ∧ ∀ y, y ∈ g → last_octet y ≠ last_octet x)).
  { intros n net f g Hn Hd Hp Hf. split.
    - intros (o & -> & (x & -> & Hx)%list_elem_of_fmap & Hno).
      exists x. split; [done|].
      split; [by apply (render_host n net x Hn Hd Hp), Hf|].
      intros y Hy Heq. apply Hno. rewrite <- Heq. by apply list_elem_of_fmap_2.
    - intros (x & Hx & -> & Hno). exists (last_octet x).
      split; [symmetry; by apply (render_host n net x Hn Hd Hp), Hf|].
      split; [by apply list_elem_of_fmap_2|].
      intros (y & Heq & Hy)%list_elem_of_fmap. by apply (Hno y Hy). }
  rewrite (Hside n1 net1 f1 f2 Hn1 Hd1 Hp1 Hf1).
  rewrite (Hside n2 net2 f2 f1 Hn2 Hd2 Hp2 Hf2). done.
Qed.

(** X12: the list that [output] returns never holds the same text
    twice. *)
Theorem output_lists_no_text_twice (envs : nat → Env) (in_order : bool)
    (self : NetworkPingComparator) (n1 n2 : string) (l : list string) :
  networks self = [n1; n2] →
  (output envs in_order self).1.1 = Ok (PyList l) →
  NoDup l.
Proof.
  intros Hn. unfold output, recursion_limit.
  destruct (ping_failures self) as [pf|] eqn:Hpf.
  - cbn [output_fuel]. rewrite Hpf, (output_stored_spec self pf n1 n2 Hn).
    destruct (pf !! n1) as [f1|]; [|discriminate].
    destruct (pf !! n2) as [f2|]; [|discriminate].
    cbn [fst]. intros [= <-]. apply report_NoDup.
  - intros Hl. by apply output_before_run_no_list in Hl.
Qed.

(** X13: with stored failures that are hosts of their networks, on two
    networks of at most 256 addresses (prefix length 24 or more) written
    with their prefix length, [output] returns exactly the texts of the
    addresses that failed on their network while no address with the same
    last octet failed on the other network. *)
Theorem output_lists_failing_addresses (envs : nat → Env) (in_order : bool)
    (self : NetworkPingComparator) (pf : gmap string (list IPv4Address))
    (n1 n2 : string) (net1 net2 : IPv4Network) (f1 f2 : list IPv4Address) :
  networks self = [n1; n2] → ping_failures self = Some pf →
  pf !! n1 = Some f1 → pf !! n2 = Some f2 →
  ipaddress.ip_network n1 = Ok net1 → ipaddress.ip_network n2 = Ok net2 →
  prefix_in_digits n1 → prefix_in_digits n2 →
  24 ≤ prefixlen net1 → 24 ≤ prefixlen net2 →
  f1 ⊆ ipaddress.hosts net1 → f2 ⊆ ipaddress.hosts net2 →
  ∃ l, (output envs in_order self).1.1 = Ok (PyList l) ∧
       ∀ s, s ∈ l ↔
            (∃ x, x ∈ f1 ∧ s = str_ip x ∧
                  ∀ y, y ∈ f2 → last_octet y ≠ last_octet x) ∨
            (∃ y, y ∈ f2 ∧ s = str_ip y ∧
                  ∀ x, x ∈ f1 → last_octet x ≠ last_octet y).
Proof.
  intros Hn Hpf H1 H2 Hn1 Hn2 Hd1 Hd2 Hp1 Hp2 Hf1 Hf2.
  exists (report n1 n2 f1 f2). split.
  - unfold output, recursion_limit. cbn [output_fuel]. rewrite Hpf.
    by rewrite (output_stored_spec self pf n1 n2 Hn), H1, H2.
  - intros s. by apply (report_addresses n1 n2 net1 net2).
Qed.

(** X14: naming the two networks in the opposite order gives the same
    report with its two sides exchanged: there are two lists of
    identifiers, the first holding once each the identifiers that fail on
    network 1 and not on network 2, the second those that fail on
    network 2 and not on network 1, such that [output] returns the
    rendering of the first on network 1 followed by that of the second on
    network 2, and with the networks exchanged the rendering of the second
    on network 2 followed by that of the first on network 1. *)
Theorem output_swapped_networks (envs : nat → Env) (in_order : bool)
    (self self' : NetworkPingComparator) (pf : gmap string (list IPv4Address))
    (n1 n2 : string) (f1 f2 : list IPv4Address) :
  networks self = [n1; n2] → networks self' = [n2; n1] →
  ping_failures self = Some pf → ping_failures self' = Some pf →
  pf !! n1 = Some f1 → pf !! n2 = Some f2 →
  ∃ only1 only2,
    output envs in_order self
      = (Ok (PyList ((render n1 <$> only1) ++ (render n2 <$> only2))), self, []) ∧
    output envs in_order self'
      = (Ok (PyList ((render n2 <$> only2) ++ (render n1 <$> only1))), self', []) ∧
    NoDup only1 ∧ NoDup only2 ∧
    (∀ o, o ∈ only1 ↔ o ∈ identifiers f1 ∧ o ∉ identifiers f2) ∧
    (∀ o, o ∈ only2 ↔ o ∈ identifiers f2 ∧ o ∉ identifiers f1).
Proof.
  intros Hn Hn' Hpf Hpf' H1 H2.
  exists (set_difference_list (identifiers f1) (identifiers f2)),
         (set_difference_list (identifiers f2) (identifiers f1)).
  unfold output, recursion_limit. cbn [output_fuel]. rewrite Hpf, Hpf'.
  rewrite (output_stored_spec self pf n1 n2 Hn), H1, H2.
  rewrite (output_stored_spec self' pf n2 n1 Hn'), H1, H2.
  split; [done|]. split; [done|].
  split; [apply set_difference_list_NoDup|].
  split; [apply set_difference_list_NoDup|].
  split; intros o; apply set_difference_list_elem.
Qed.

End ReportFacts.

Section ReportWitnesses.

Lemma prefix_in_digits_NETWORK_1 : prefix_in_digits NETWORK_1.
Proof. intros addr mask Hs. vm_compute in Hs. by injection Hs as <- <-. Qed.

Lemma prefix_in_digits_NETWORK_2 : prefix_in_digits NETWORK_2.
Proof. intros addr mask Hs. vm_compute in Hs. by injection Hs as <- <-. Qed.

End ReportWitnesses.

(** X12 on the module's networks. *)
Lemma output_lists_no_text_twice_witness :
  NoDup ["192.168.1.20"; "192.168.1.3"].
Proof.
  apply (@output_lists_no_text_twice first_seen_order (λ _ _ _, Exit 0) true
           (stored [ip 192 168 1 3; ip 192 168 1 20; ip 192 168 1 3] [])
           NETWORK_1 NETWORK_2).
  - reflexivity.
  - vm_compute. reflexivity.
Defined.

(** X13 on the module's networks. *)
Lemma output_lists_failing_addresses_witness :
  ∃ l, (@output first_seen_order (λ _ _ _, Exit 0) true
          (stored [ip 192 168 1 3; ip 192 168 1 20] [ip 192 168 2 20])).1.1
       = Ok (PyList l) ∧
       ∀ s, s ∈ l ↔
            (∃ x, x ∈ [ip 192 168 1 3; ip 192 168 1 20] ∧ s = str_ip x ∧
                  ∀ y, y ∈ [ip 192 168 2 20] → last_octet y ≠ last_octet x) ∨
            (∃ y, y ∈ [ip 192 168 2 20] ∧ s = str_ip y ∧
                  ∀ x, x ∈ [ip 192 168 1 3; ip 192 168 1 20] →
                       last_octet x ≠ last_octet y).
Proof.
  apply (@output_lists_failing_addresses first_seen_order (λ _ _ _, Exit 0) true
           (stored [ip 192 168 1 3; ip 192 168 1 20] [ip 192 168 2 20])
           (<[NETWORK_2 := [ip 192 168 2 20]]>
              (<[NETWORK_1 := [ip 192 168 1 3; ip 192 168 1 20]]> ∅))
           NETWORK_1 NETWORK_2 (mkNet (ip 192 168 1 0) 24) (mkNet (ip 192 168 2 0) 24)).
  - reflexivity.
  - reflexivity.
  - vm_compute. reflexivity.
  - vm_compute. reflexivity.
  - vm_compute. reflexivity.
  - vm_compute. reflexivity.
  - apply prefix_in_digits_NETWORK_1.
  - apply prefix_in_digits_NETWORK_2.
  - cbn. lia.
  - cbn. lia.
  - intros x Hx.
    repeat (apply elem_of_cons in Hx as [->|Hx]);
      [..|by apply not_elem_of_nil in Hx]; vm_compute; repeat constructor.
  - intros x Hx.
    repeat (apply elem_of_cons in Hx as [->|Hx]);
      [..|by apply not_elem_of_nil in Hx]; vm_compute; repeat constructor.
Defined.

(** X14 on the module's networks. *)
Lemma output_swapped_networks_witness :
  ∃ only1 only2,
    @output first_seen_order (λ _ _ _, Exit 0) true
      (stored [ip 192 168 1 3] [ip 192 168 2 20])
      = (Ok (PyList ((render NETWORK_1 <$> only1) ++ (render NETWORK_2 <$> only2))),
         stored [ip 192 168 1 3] [ip 192 168 2 20], []) ∧
    @output first_seen_order (λ _ _ _, Exit 0) true
      (set_ping_failures
         (<[NETWORK_2 := [ip 192 168 2 20]]> (<[NETWORK_1 := [ip 192 168 1 3]]> ∅))
         (init NETWORK_2 NETWORK_1))
      = (Ok (PyList ((render NETWORK_2 <$> only2) ++ (render NETWORK_1 <$> only1))),
         set_ping_failures
           (<[NETWORK_2 := [ip 192 168 2 20]]> (<[NETWORK_1 := [ip 192 168 1 3]]> ∅))
           (init NETWORK_2 NETWORK_1), []) ∧
    NoDup only1 ∧ NoDup only2 ∧
    (∀ o, o ∈ only1 ↔
          o ∈ identifiers [ip 192 168 1 3] ∧ o ∉ identifiers [ip 192 168 2 20]) ∧
    (∀ o, o ∈ only2 ↔
          o ∈ identifiers [ip 192 168 2 20] ∧ o ∉ identifiers [ip 192 168 1 3]).
Proof.
  apply (@output_swapped_networks first_seen_order (λ _ _ _, Exit 0) true
           (stored [ip 192 168 1 3] [ip 192 168 2 20])
           (set_ping_failures
              (<[NETWORK_2 := [ip 192 168 2 20]]> (<[NETWORK_1 := [ip 192 168 1 3]]> ∅))
              (init NETWORK_2 NETWORK_1))
           (<[NETWORK_2 := [ip 192 168 2 20]]> (<[NETWORK_1 := [ip 192 168 1 3]]> ∅))
           NETWORK_1 NETWORK_2 [ip 192 168 1 3] [ip 192 168 2 20]).
  - reflexivity.
  - reflexivity.
  - reflexivity.
  - reflexivity.
  - vm_compute. reflexivity.
  - vm_compute. reflexivity.
Defined.

(** ** A steady network, from [run] to the report *)

Section SteadyFacts.

Context (env : Env) (code : IPv4Address → Z).
Hypothesis steady : ∀ k h, env k h = Exit (code h).

Lemma steady_spawns_ok k hs : spawns_ok env k hs = true.
Proof.
  unfold spawns_ok. apply forallb_forall. intros h _. by rewrite steady.
Qed.

Lemma steady_failed k hs : failed env k hs = filter (λ h, code h ≠ 0) hs.
Proof.
  unfold failed. apply list_filter_iff. intros h.
  unfold nonzero_exit. rewrite steady.
  destruct (Z.eqb_spec (code h) 0); cbn [negb]; split; done.
Qed.

Lemma filter_idemp (P : IPv4Address → Prop) `{!∀ x, Decision (P x)}
    (l : list IPv4Address) :
  filter P (filter P l) = filter P l.
Proof.
  induction l as [|x l IH]; [done|].
  rewrite filter_cons. destruct (decide (P x)) as [Hx|Hx]; [|done].
  by rewrite filter_cons, decide_True, IH by done.
Qed.

(** On a steady network every sweep returns the candidates whose exit
    code is not zero. *)
Lemma steady_sweep ex n : ∀ k hs,
  (sweep_from env ex k n hs).1 = Ok (filter (λ h, code h ≠ 0) (candidates ex hs)).
Proof.
  induction n as [|n IH]; intros k hs; cbn [sweep_from];
    rewrite steady_spawns_ok, steady_failed; [done|].
  destruct (filter (λ h, code h ≠ 0) (candidates ex hs)) as [|f fs] eqn:Hfs; [done|].
  specialize (IH (S k) (f :: fs)).
  destruct (sweep_from env ex (S k) n (f :: fs)) as [r log]. cbn [fst] in *.
  assert (Hc : candidates ex (f :: fs) = f :: fs).
  { rewrite <- Hfs, <- (steady_failed k). apply candidates_failed. }
  rewrite IH, Hc, <- Hfs. f_equal. apply filter_idemp.
Qed.

Lemma steady_sweep_result self network net :
  ipaddress.ip_network network = Ok net →
  sweep_result env self network
  = Some (filter (λ h, code h ≠ 0)
            (candidates (excluded_host self) (ipaddress.hosts net))).
Proof.
  intros Hnet. unfold sweep_result.
  destruct (not_pingable_spec env network ∅ (mkSt self [])) as (s' & _ & ->).
  rewrite Hnet. cbn [self_of passes length app]. cbn zeta.
  rewrite steady_sweep. by rewrite lookup_insert_eq.
Qed.

End SteadyFacts.

Section Steady.

Context `{SetOrder}.

(** X15: two different networks of at most 256 addresses, written with
    their prefix length, on which every ping can be started and a host
    always answers or never does.  Then [run] followed by [output]
    returns exactly the texts of the addresses that are hosts of one
    network, are not excluded, do not answer, and have no host with the
    same last octet on the other network that does not answer. *)
Theorem steady_networks_report (envs envs' : nat → Env) (in_order in_order' : bool)
    (self : NetworkPingComparator) (n1 n2 : string) (net1 net2 : IPv4Network)
    (code1 code2 : IPv4Address → Z) :
  networks self = [n1; n2] → n1 ≠ n2 →
  ipaddress.ip_network n1 = Ok net1 → ipaddress.ip_network n2 = Ok net2 →
  prefix_in_digits n1 → prefix_in_digits n2 →
  24 ≤ prefixlen net1 → 24 ≤ prefixlen net2 →
  (∀ k h, envs 0%nat k h = Exit (code1 h)) →
  (∀ k h, envs 1%nat k h = Exit (code2 h)) →
  ∃ l, (output envs' in_order' (run envs in_order self).1.2).1.1 = Ok (PyList l) ∧
       ∀ s, s ∈ l ↔
            (∃ x, s = str_ip x ∧ x ∈ ipaddress.hosts net1 ∧
                  (last_octet x ∉ excluded_list (excluded_host self)) ∧
                  code1 x ≠ 0 ∧
                  ∀ y, y ∈ ipaddress.hosts net2 → last_octet y = last_octet x →
                       code2 y = 0) ∨
            (∃ y, s = str_ip y ∧ y ∈ ipaddress.hosts net2 ∧
                  (last_octet y ∉ excluded_list (excluded_host self)) ∧
                  code2 y ≠ 0 ∧
                  ∀ x, x ∈ ipaddress.hosts net1 → last_octet x = last_octet y →
                       code1 x = 0).
Proof.
  intros Hn Hne Hn1 Hn2 Hd1 Hd2 Hp1 Hp2 Hs1 Hs2.
  destruct (run_two_spec envs in_order self n1 n2 Hn Hne)
    as (shared & Hrun & H1 & H2 & _).
  cbn zeta in Hrun. rewrite Hrun. cbn [fst snd].
  rewrite (steady_sweep_result _ code1 Hs1 self n1 net1 Hn1) in H1.
  rewrite (steady_sweep_result _ code2 Hs2 self n2 net2 Hn2) in H2.
  set (ex := excluded_host self) in *.
  set (f1 := filter (λ h, code1 h ≠ 0) (candidates ex (ipaddress.hosts net1))) in *.
  set (f2 := filter (λ h, code2 h ≠ 0) (candidates ex (ipaddress.hosts net2))) in *.
  exists (report n1 n2 f1 f2). split.
  { unfold output, recursion_limit. cbn [output_fuel ping_failures set_ping_failures].
    by rewrite (output_stored_spec (set_ping_failures shared self) shared n1 n2 Hn),
         H1, H2. }
  assert (Hf : ∀ (code : IPv4Address → Z) hs x,
            x ∈ filter (λ h, code h ≠ 0) (candidates ex hs) ↔
            x ∈ hs ∧ (last_octet x ∉ excluded_list ex) ∧ code x ≠ 0).
  { intros code hs x. unfold candidates. rewrite !list_elem_of_filter. tauto. }
  assert (Hside : ∀ (code code' : IPv4Address → Z) hs hs' s,
            (∃ x, x ∈ filter (λ h, code h ≠ 0) (candidates ex hs) ∧ s = str_ip x ∧
                  ∀ y, y ∈ filter (λ h, code' h ≠ 0) (candidates ex hs') →
                       last_octet y ≠ last_octet x) ↔
            (∃ x, s = str_ip x ∧ x ∈ hs ∧ (last_octet x ∉ excluded_list ex) ∧
                  code x ≠ 0 ∧
                  ∀ y, y ∈ hs' → last_octet y = last_octet x → code' y = 0)).
  { intros code code' hs hs' s. split.
    - intros (x & (Hx & Hex & Hc)%Hf & -> & Hno). exists x.
      repeat (split; [done|]). intros y Hy Heq.
      destruct (decide (code' y = 0)) as [|Hc']; [done|].
      exfalso. apply (Hno y); [|done]. apply Hf. by rewrite Heq.
    - intros (x & -> & Hx & Hex & Hc & Hno). exists x.
      split; [by apply Hf|]. split; [done|].
      intros y (Hy & _ & Hc')%Hf Heq. by apply Hc', Hno. }
  intros s.
  rewrite (report_addresses n1 n2 net1 net2 f1 f2 s Hn1 Hn2 Hd1 Hd2 Hp1 Hp2).
  - subst f1 f2. rewrite (Hside code1 code2), (Hside code2 code1). done.
  - intros x (Hx & _)%Hf. done.
  - intros x (Hx & _)%Hf. done.
Qed.

End Steady.

(** X15 on the module's networks with 192.168.1.20 down. *)
Lemma steady_networks_report_witness :
  let code := λ h : IPv4Address, if bool_decide (h = ip 192 168 1 20) then 1 else 0 in
  let self := exclude_host EXCLUDED_HOST (init NETWORK_1 NETWORK_2) in
  let net1 := mkNet (ip 192 168 1 0) 24 in
  let net2 := mkNet (ip 192 168 2 0) 24 in
  ∃ l, (@output first_seen_order (λ _ _ _, Exit 0) true
          (run (λ _ _ h, Exit (code h)) true self).1.2).1.1 = Ok (PyList l) ∧
       ∀ s, s ∈ l ↔
            (∃ x, s = str_ip x ∧ x ∈ ipaddress.hosts net1 ∧
                  (last_octet x ∉ excluded_list (excluded_host self)) ∧
                  code x ≠ 0 ∧
                  ∀ y, y ∈ ipaddress.hosts net2 → last_octet y = last_octet x →
                       code y = 0) ∨
            (∃ y, s = str_ip y ∧ y ∈ ipaddress.hosts net2 ∧
                  (last_octet y ∉ excluded_list (excluded_host self)) ∧
                  code y ≠ 0 ∧
                  ∀ x, x ∈ ipaddress.hosts net1 → last_octet x = last_octet y →
                       code x = 0).
Proof.
  intros code self net1 net2.
  apply (@steady_networks_report first_seen_order (λ _ _ h, Exit (code h))
           (λ _ _ _, Exit 0) true true self NETWORK_1 NETWORK_2 net1 net2 code code).
  - reflexivity.
  - intros Heq. discriminate Heq.
  - vm_compute. reflexivity.
  - vm_compute. reflexivity.
  - apply prefix_in_digits_NETWORK_1.
  - apply prefix_in_digits_NETWORK_2.
  - cbn. lia.
  - cbn. lia.
  - reflexivity.
  - reflexivity.
Defined.

(** ** A ping that cannot be started *)

Section SpawnFailure.

Context (env : Env).

Lemma pinged_split k cs :
  spawns_ok env k cs = false →
  ∃ before h after,
    cs = before ++ h :: after ∧ pinged env k cs = before ++ [h] ∧
    env k h = SpawnFails ∧ ∀ b, b ∈ before → ∃ c, env k b = Exit c.
Proof.
  induction cs as [|x cs IH]; [done|].
  cbn [spawns_ok forallb pinged]. destruct (env k x) as [c|] eqn:E.
  - cbn [andb]. intros (before & h & after & -> & -> & Hh & Hb)%IH.
    exists (x :: before), h, after. repeat split; [done|].
    intros b [->|Hin]%elem_of_cons; [by exists c|by apply Hb].
  - intros _. exists [], x, cs. repeat split; [done|].
    intros b Hb. by apply not_elem_of_nil in Hb.
Qed.

End SpawnFailure.

(** X16: a call of [__ping_network] that raises stops at the first host,
    in the order of [self.hosts], whose ping cannot be started: the hosts
    before it (those not excluded) were pinged, that host is the last one
    tried, and no host after it is pinged. *)
Theorem spawn_failure_ends_pass (env : Env) (st st' : St) (hs : list IPv4Address)
    (e : exn) :
  hosts (self_of st) = Some hs → NoDup hs →
  ping_network env st = (Raise e, st') →
  ∃ before h after,
    candidates (excluded_host (self_of st)) hs = before ++ h :: after ∧
    passes st' = passes st ++ [before ++ [h]] ∧
    env (length (passes st)) h = SpawnFails ∧
    (∀ b, b ∈ before → ∃ c, env (length (passes st)) b = Exit c) ∧
    (∀ a, a ∈ after → a ∉ before ++ [h]).
Proof.
  intros Hhs Hnd. rewrite (ping_network_spec env st hs Hhs Hnd). cbn zeta.
  destruct (spawns_ok env _ _) eqn:Hok; [discriminate|]. intros [= _ <-].
  destruct (pinged_split env _ _ Hok) as (before & h & after & Hcs & Hp & Hh & Hb).
  exists before, h, after. cbn [passes]. rewrite Hp.
  repeat (split; [done|]).
  pose proof (candidates_NoDup (excluded_host (self_of st)) hs Hnd) as Hc.
  rewrite Hcs in Hc. apply NoDup_app in Hc as (_ & Hdis & Hha).
  apply NoDup_cons in Hha as [Hha _].
  intros a Ha [Hin|Heq%list_elem_of_singleton]%elem_of_app; [|by subst].
  apply (Hdis a Hin). by right.
Qed.

(** X16 on three hosts of which the second cannot be pinged. *)
Lemma spawn_failure_ends_pass_witness :
  let env : Env := λ _ h, if bool_decide (h = ip 192 168 1 2) then SpawnFails else Exit 0 in
  let st := mkSt (set_hosts [ip 192 168 1 1; ip 192 168 1 2; ip 192 168 1 3]
                    (init "192.168.1.0/29" "192.168.2.0/29")) [] in
  ∃ before h after,
    candidates (excluded_host (self_of st))
      [ip 192 168 1 1; ip 192 168 1 2; ip 192 168 1 3] = before ++ h :: after ∧
    [[ip 192 168 1 1; ip 192 168 1 2]] = [] ++ [before ++ [h]] ∧
    env 0%nat h = SpawnFails ∧
    (∀ b, b ∈ before → ∃ c, env 0%nat b = Exit c) ∧
    (∀ a, a ∈ after → a ∉ before ++ [h]).
Proof.
  intros env st.
  apply (spawn_failure_ends_pass env st
           (mkSt (self_of st) [[ip 192 168 1 1; ip 192 168 1 2]])
           [ip 192 168 1 1; ip 192 168 1 2; ip 192 168 1 3] OSError).
  - reflexivity.
  - apply (bool_decide_unpack _). vm_compute. exact I.
  - vm_compute. reflexivity.
Defined.

(** ** The script *)

Section Script.

Context `{SetOrder}.

Lemma difference_nil a b :
  set_difference_list a b = [] ↔ ∀ o, o ∈ a → o ∈ b.
Proof.
  split.
  - intros Hnil o Ha. destruct (decide (o ∈ b)) as [|Hb]; [done|].
    assert (Hin : o ∈ set_difference_list a b) by by apply set_difference_list_elem.
    rewrite Hnil in Hin. by apply not_elem_of_nil in Hin.
  - intros Hsub. apply nil_no_elem. intros o [Ha Hb]%set_difference_list_elem.
    by apply Hb, Hsub.
Qed.

(** The report is empty exactly when the same identifiers fail on both
    networks. *)
Lemma report_nil n1 n2 f1 f2 :
  report n1 n2 f1 f2 = [] ↔ ∀ o, o ∈ identifiers f1 ↔ o ∈ identifiers f2.
Proof.
  unfold report. split.
  - intros [H1%fmap_nil_inv H2%fmap_nil_inv]%app_eq_nil.
    rewrite difference_nil in H1, H2. intros o. split; auto.
  - intros Hsame.
    rewrite (proj2 (difference_nil (identifiers f1) (identifiers f2)))
      by (intros o; apply Hsame).
    rewrite (proj2 (difference_nil (identifiers f2) (identifiers f1)))
      by (intros o; apply Hsame).
    done.
Qed.

(** A sweep of a valid network in which every ping can be started
    returns. *)
Lemma sweep_result_Some env self network net :
  ipaddress.ip_network network = Ok net →
  (∀ k h, ∃ c, env k h = Exit c) →
  is_Some (sweep_result env self network).
Proof.
  intros Hnet Hall. unfold sweep_result.
  destruct (not_pingable_spec env network ∅ (mkSt self [])) as (s' & _ & ->).
  rewrite Hnet. cbn [self_of passes length app]. cbn zeta.
  destruct (sweep_from env (excluded_host self) 0
              (Z.to_nat (NUM_ATTEMPTS self - 1)) (ipaddress.hosts net)).1
    as [fs|e] eqn:Hsw.
  - rewrite lookup_insert_eq. by eexists.
  - apply sweep_from_raise in Hsw as (_ & k & h & _ & Hf).
    destruct (Hall k h) as [c Hc]. congruence.
Qed.

(** X17: the script.  It prints one line for each of the module's two
    networks.  When both sweeps return, it ends normally after one more
    line: the line of completion when the same last octets fail on both
    networks, and otherwise the line of mismatches followed by the list
    [output] returns, as Python prints a list of strings.  When a sweep
    ends with an exception, the script ends with [KeyError] after the
    first two lines.  In particular it ends normally whenever every ping
    can be started. *)
Theorem script_outcome (envs : nat → Env) (in_order : bool) :
  let comparator := exclude_host EXCLUDED_HOST (init NETWORK_1 NETWORK_2) in
  let pinging := ["Pinging network 192.168.1.0/24"; "Pinging network 192.168.2.0/24"] in
  match sweep_result (envs 0%nat) comparator NETWORK_1,
        sweep_result (envs 1%nat) comparator NETWORK_2 with
  | Some f1, Some f2 =>
      ∃ l, (output envs in_order (run envs in_order comparator).1.2).1.1
             = Ok (PyList l) ∧
           (l = [] ↔ ∀ o, o ∈ identifiers f1 ↔ o ∈ identifiers f2) ∧
           main envs in_order =
             (Ok tt,
              pinging ++
              [match l with
               | [] => "Complete, no address response mismatch detected"
               | _ :: _ => "Address(es) failed to match ping responses: "
                           +:+ repr_list l
               end])
  | _, _ => main envs in_order = (Raise KeyError, pinging)
  end ∧
  ((∀ i k h, ∃ c, envs i k h = Exit c) →
   ∃ line, main envs in_order = (Ok tt, pinging ++ [line])).
Proof.
  intros comparator pinging.
  assert (Hn : networks comparator = [NETWORK_1; NETWORK_2]) by done.
  assert (Hne : NETWORK_1 ≠ NETWORK_2) by (intros Heq; discriminate Heq).
  destruct (run_two_spec envs in_order comparator _ _ Hn Hne)
    as (shared & Hrun & H1 & H2 & _).
  cbn zeta in Hrun.
  assert (Hmain : main envs in_order =
            match shared !! NETWORK_1, shared !! NETWORK_2 with
            | Some f1, Some f2 =>
                (Ok tt,
                 pinging ++
                 [match report NETWORK_1 NETWORK_2 f1 f2 with
                  | [] => "Complete, no address response mismatch detected"
                  | _ :: _ => "Address(es) failed to match ping responses: "
                              +:+ repr_list (report NETWORK_1 NETWORK_2 f1 f2)
                  end])
            | _, _ => (Raise KeyError, pinging)
            end).
  { unfold main. fold comparator. rewrite Hrun.
    unfold output_prints, output, recursion_limit.
    cbn [output_fuel ping_failures set_ping_failures].
    rewrite (output_stored_spec (set_ping_failures shared comparator) shared _ _ Hn).
    destruct (shared !! NETWORK_1) as [f1|]; [|done].
    destruct (shared !! NETWORK_2) as [f2|]; [|done].
    rewrite app_nil_r.
    by destruct (report NETWORK_1 NETWORK_2 f1 f2). }
  assert (Hout : (output envs in_order (run envs in_order comparator).1.2).1.1 =
            match shared !! NETWORK_1, shared !! NETWORK_2 with
            | Some f1, Some f2 => Ok (PyList (report NETWORK_1 NETWORK_2 f1 f2))
            | _, _ => Raise KeyError
            end).
  { rewrite Hrun. unfold output, recursion_limit.
    cbn [output_fuel ping_failures set_ping_failures fst snd].
    rewrite (output_stored_spec (set_ping_failures shared comparator) shared _ _ Hn).
    destruct (shared !! NETWORK_1) as [f1|]; [|done].
    by destruct (shared !! NETWORK_2) as [f2|]. }
  rewrite Hmain, Hout, H1, H2. clear Hmain Hout. split.
  - destruct (sweep_result (envs 0%nat) comparator NETWORK_1) as [f1|]; [|done].
    destruct (sweep_result (envs 1%nat) comparator NETWORK_2) as [f2|]; [|done].
    exists (report NETWORK_1 NETWORK_2 f1 f2).
    split; [done|]. split; [apply report_nil|done].
  - intros Hall.
    destruct (sweep_result_Some (envs 0%nat) comparator NETWORK_1
                (mkNet (ip 192 168 1 0) 24)) as [f1 ->];
      [vm_compute; reflexivity|apply Hall|].
    destruct (sweep_result_Some (envs 1%nat) comparator NETWORK_2
                (mkNet (ip 192 168 2 0) 24)) as [f2 ->];
      [vm_compute; reflexivity|apply Hall|].
    by eexists.
Qed.

End Script.

(** The script on a network where only 192.168.1.20 does not answer, and
    on one where [ping] cannot be started. *)
Example script_one_down :
  @main first_seen_order
    (λ _ _ h, if bool_decide (h = ip 192 168 1 20) then Exit 1 else Exit 0) true
  = (Ok tt, ["Pinging network 192.168.1.0/24"; "Pinging network 192.168.2.0/24";
             "Address(es) failed to match ping responses: ['192.168.1.20']"]).
Proof. vm_compute. reflexivity. Qed.

Example repr_list_quotes :
  repr_list ["192.168.1.20"; "a'b"]
  = "['192.168.1.20', " +:+ String double_quote ("a'b" +:+ String double_quote "]").
Proof. vm_compute. reflexivity. Qed.

Example repr_str_escapes :
  repr_str (String (ascii_of_nat 9) (String (ascii_of_nat 1) (String backslash "x")))
  = "'\t\x01\\x'".
Proof. vm_compute. reflexivity. Qed.

Example script_no_ping_binary :
  @main first_seen_order (λ _ _ _, SpawnFails) true
  = (Raise KeyError,
     ["Pinging network 192.168.1.0/24"; "Pinging network 192.168.2.0/24"]).
Proof. vm_compute. reflexivity. Qed.

(** ** A network given as a bare address *)

(** X18: a network string without a slash and without a colon (so not
    IPv6 text) that [ip_network] accepts is the text of one IPv4 address;
    the network has prefix length 32 and that address is its only host,
    so a sweep pings exactly this address (unless it is excluded). *)
Theorem bare_address_is_single_host (network : string) (net : IPv4Network) :
  contains slash network = false →
  contains colon network = false →
  ipaddress.ip_network network = Ok net →
  prefixlen net = 32 ∧
  ipaddress.hosts net = [network_address net] ∧
  str_ip (network_address net) = network.
Proof.
  intros Hs _ Hnet%ip_network_IPv4.
  unfold ipaddress.IPv4Network_init, ipaddress._split_addr_prefix in Hnet.
  rewrite (split_no_sep slash network Hs) in Hnet.
  cbn [length Nat.ltb Nat.leb mbind Res_bind] in Hnet.
  unfold ipaddress.IPv4Address_init in Hnet. rewrite Hs in Hnet.
  destruct (ipaddress._ip_int_from_string network) as [a|e] eqn:Ha; [|discriminate].
  cbn [mbind Res_bind ipaddress._make_netmask] in Hnet.
  change (negb ((0 <=? ipaddress._max_prefixlen) &&
                (ipaddress._max_prefixlen <=? ipaddress._max_prefixlen)))
    with false in Hnet.
  cbn [mbind Res_bind] in Hnet.
  destruct (negb (Z.land a (ipaddress._ip_int_from_prefix ipaddress._max_prefixlen) =? a));
    [discriminate|].
  injection Hnet as <-. cbn [prefixlen network_address].
  split; [done|]. split; [done|].
  by apply str_ip_of_parsed in Ha as [? _].
Qed.

(** X18 at 192.168.1.7. *)
Lemma bare_address_is_single_host_witness :
  prefixlen (mkNet (ip 192 168 1 7) 32) = 32 ∧
  ipaddress.hosts (mkNet (ip 192 168 1 7) 32)
    = [network_address (mkNet (ip 192 168 1 7) 32)] ∧
  str_ip (network_address (mkNet (ip 192 168 1 7) 32)) = "192.168.1.7".
Proof.
  apply (bare_address_is_single_host "192.168.1.7" (mkNet (ip 192 168 1 7) 32)).
  - reflexivity.
  - reflexivity.
  - vm_compute. reflexivity.
Defined.

(** ** [output] before [run], in general *)

Section OutputRunsOnce.

Context `{SetOrder}.

(** X19: a call of [output] on an object with two different networks,
    written without a colon (so not IPv6 text), on which [run] has not
    run makes exactly the pings of one [run] and leaves the object as
    [run] leaves it.  It hands back [None] when both
    children ended normally and raises [KeyError] when one of them ended
    with an exception; the list is what the next call returns. *)
Theorem output_before_run_runs_once (envs envs' : nat → Env)
    (in_order in_order' : bool) (self : NetworkPingComparator) (n1 n2 : string) :
  contains colon n1 = false → contains colon n2 = false →
  ping_failures self = None →
  networks self = [n1; n2] → n1 ≠ n2 →
  let first := output envs in_order self in
  let after := (run envs in_order self).1.2 in
  first.1.2 = after ∧
  first.2 = (run envs in_order self).2 ∧
  ((∀ c, c ∈ first.2 → child_result c = Ok tt) →
   first.1.1 = Ok PyNone ∧
   ∃ l, output envs' in_order' first.1.2 = (Ok (PyList l), after, [])) ∧
  ((∃ c, c ∈ first.2 ∧ child_result c ≠ Ok tt) →
   first.1.1 = Raise KeyError ∧
   output envs' in_order' first.1.2 = (Raise KeyError, after, [])).
Proof.
  intros _ _ Hpf Hn Hne. cbn zeta.
  destruct (run_two_spec envs in_order self n1 n2 Hn Hne)
    as (shared & Hrun & H1 & H2 & _ & C1 & C2).
  cbn zeta in Hrun, C1, C2.
  set (c1 := (run_child (envs 0%nat) (set_ping_failures ∅ self) n1 ∅).2) in *.
  set (c2 := (run_child (envs 1%nat) (set_ping_failures ∅ self) n2 ∅).2) in *.
  set (children := if in_order then [c1; c2] else [c2; c1]) in *.
  assert (Hin : ∀ c, c ∈ children ↔ c = c1 ∨ c = c2).
  { intros c. subst children.
    destruct in_order; rewrite !elem_of_cons, elem_of_nil; tauto. }
  assert (Hsecond : ∀ envs'' in_order'',
            output envs'' in_order'' (set_ping_failures shared self) =
            (match shared !! n1, shared !! n2 with
             | Some f1, Some f2 => Ok (PyList (report n1 n2 f1 f2))
             | _, _ => Raise KeyError
             end, set_ping_failures shared self, [])).
  { intros envs'' in_order''. unfold output, recursion_limit.
    cbn [output_fuel ping_failures set_ping_failures].
    rewrite (output_stored_spec (set_ping_failures shared self) shared n1 n2 Hn).
    destruct (shared !! n1) as [f1|]; [|done].
    by destruct (shared !! n2) as [f2|]. }
  assert (Hfirst : output envs in_order self =
            (match shared !! n1, shared !! n2 with
             | Some f1, Some f2 => Ok PyNone
             | _, _ => Raise KeyError
             end, set_ping_failures shared self, children)).
  { unfold output, recursion_limit.
    rewrite (output_fuel_enough 999 envs in_order self).
    cbn [output_fuel]. rewrite Hpf, Hrun.
    cbn [ping_failures set_ping_failures].
    rewrite (output_stored_spec (set_ping_failures shared self) shared n1 n2 Hn).
    rewrite app_nil_r.
    destruct (shared !! n1) as [f1|]; [|done].
    by destruct (shared !! n2) as [f2|]. }
  rewrite Hfirst, Hrun. cbn [fst snd]. rewrite Hsecond, H1, H2.
  split; [done|]. split; [done|].
  destruct (sweep_result (envs 0%nat) self n1) as [f1|],
           (sweep_result (envs 1%nat) self n2) as [f2|].
  - split; [intros _; split; [done|by eexists]|].
    intros (c & [-> | ->]%Hin & Hc); exfalso; apply Hc; [apply C1|apply C2]; by eexists.
  - split; [|done]. intros Hall.
    destruct (proj1 C2 (Hall c2 (proj2 (Hin c2) (or_intror eq_refl)))) as [? [=]].
  - split; [|done]. intros Hall.
    destruct (proj1 C1 (Hall c1 (proj2 (Hin c1) (or_introl eq_refl)))) as [? [=]].
  - split; [|done]. intros Hall.
    destruct (proj1 C1 (Hall c1 (proj2 (Hin c1) (or_introl eq_refl)))) as [? [=]].
Qed.

End OutputRunsOnce.

(** X19 on the flaky network. *)
Lemma output_before_run_runs_once_witness :
  let self := init "192.168.1.0/29" "192.168.2.0/29" in
  let first := @output first_seen_order (λ _, flaky_env) true self in
  let after := (run (λ _, flaky_env) true self).1.2 in
  first.1.2 = after ∧
  first.2 = (run (λ _, flaky_env) true self).2 ∧
  ((∀ c, c ∈ first.2 → child_result c = Ok tt) →
   first.1.1 = Ok PyNone ∧
   ∃ l, @output first_seen_order (λ _, flaky_env) true first.1.2
        = (Ok (PyList l), after, [])) ∧
  ((∃ c, c ∈ first.2 ∧ child_result c ≠ Ok tt) →
   first.1.1 = Raise KeyError ∧
   @output first_seen_order (λ _, flaky_env) true first.1.2
   = (Raise KeyError, after, [])).
Proof.
  apply (@output_before_run_runs_once first_seen_order (λ _, flaky_env)
           (λ _, flaky_env) true true (init "192.168.1.0/29" "192.168.2.0/29")
           "192.168.1.0/29" "192.168.2.0/29").
  - reflexivity.
  - reflexivity.
  - reflexivity.
  - reflexivity.
  - intros Heq. discriminate Heq.
Defined.

(** ** A network written with a dotted netmask *)

Section DottedMask.

Context `{SetOrder}.

Lemma rpartition_app_r sep a b p o :
  rpartition sep b = Some (p, o) →
  rpartition sep (a +:+ b) = Some (a +:+ p, o).
Proof.
  intros Hb. induction a as [|c a IH]; [done|].
  rewrite !append_String. cbn [rpartition]. by rewrite IH.
Qed.

Lemma rpartition_Some sep s :
  contains sep s = true → ∃ p o, rpartition sep s = Some (p, o).
Proof.
  induction s as [|c s IH]; [done|]. cbn [contains rpartition].
  destruct (rpartition sep s) as [[p o]|] eqn:E; [by eauto|].
  destruct (Ascii.eqb c sep); [by eauto|].
  cbn [orb]. intros Hs. by destruct (IH Hs) as (? & ? & ?).
Qed.

(** The text up to the last dot of a network written [addr/mask] with a
    dot in the mask: it runs into the mask. *)
Lemma subnet_of_dotted_mask network addr mask :
  split slash network = [addr; mask] → contains dot mask = true →
  subnet_of network = addr +:+ String slash (subnet_of mask) ∧
  contains slash (subnet_of network) = true.
Proof.
  intros Hsp Hdot.
  destruct (split_cons_inv slash network addr [mask] Hsp) as (_ & s' & -> & Hs').
  assert (s' = mask) as ->.
  { destruct (split_cons_inv slash s' mask [] Hs') as (_ & Heq). done. }
  destruct (rpartition_Some dot mask Hdot) as (p & o & Hp).
  unfold subnet_of.
  rewrite (rpartition_app_r dot addr (String slash mask) (String slash p) o)
    by (cbn [rpartition]; by rewrite Hp).
  rewrite Hp. split; [done|].
  rewrite contains_app. cbn [contains].
  rewrite Ascii.eqb_refl. cbn [orb]. apply orb_true_r.
Qed.

(** X20: when the first network is written with a dotted netmask (or
    hostmask) after the slash, the entries that [output] builds for it
    run into the mask: each is the address text of the network, the slash,
    the mask up to its last dot, a dot and a last octet.  So the text of
    an address that failed on this network never is in the list [output]
    returns. *)
Theorem dotted_mask_failures_not_listed (envs : nat → Env) (in_order : bool)
    (self : NetworkPingComparator) (pf : gmap string (list IPv4Address))
    (n1 n2 addr mask : string) (f1 f2 : list IPv4Address) (l : list string)
    (x : IPv4Address) :
  networks self = [n1; n2] → ping_failures self = Some pf →
  pf !! n1 = Some f1 → pf !! n2 = Some f2 →
  split slash n1 = [addr; mask] → contains dot mask = true →
  (output envs in_order self).1.1 = Ok (PyList l) →
  x ∈ f1 →
  (str_ip x ∉ l) ∧
  (last_octet x ∉ identifiers f2 →
   addr +:+ "/" +:+ subnet_of mask +:+ "." +:+ last_octet x ∈ l).
Proof.
  intros Hn Hpf H1 H2 Hsp Hdot Hout Hx.
  destruct (subnet_of_dotted_mask n1 addr mask Hsp Hdot) as [Hsub Hslash].
  unfold output, recursion_limit in Hout. cbn [output_fuel] in Hout.
  rewrite Hpf, (output_stored_spec self pf n1 n2 Hn), H1, H2 in Hout.
  cbn [fst] in Hout. injection Hout as <-.
  assert (Hid : last_octet x ∈ identifiers f1) by by apply list_elem_of_fmap_2.
  split.
  - rewrite elem_of_report. intros [(o & Heq & _ & _)|(o & Heq & Ho2 & Ho1)].
    + assert (Hc : contains slash (render n1 o) = true).
      { rewrite render_eq, contains_app, Hslash. done. }
      rewrite <- Heq, str_ip_no_slash in Hc. discriminate.
    + apply Ho1.
      destruct (str_ip_last_octet x) as [p Hp].
      assert (Hox : contains dot o = false) by by eapply identifiers_no_dot.
      pose proof (rpartition_app dot p (last_octet x) (last_octet_no_dot x)) as R.
      pose proof (rpartition_app dot (subnet_of n2) o Hox) as R'.
      rewrite <- Hp, Heq, render_eq, R' in R. by injection R as _ ->.
  - intros Hno. rewrite elem_of_report. left. exists (last_octet x).
    split; [|done]. rewrite render_eq, Hsub.
    by repeat first [rewrite append_assoc | rewrite append_String].
Qed.

End DottedMask.

(** X20 on 192.168.1.0 with netmask 255.255.255.0. *)
Lemma dotted_mask_failures_not_listed_witness :
  (str_ip (ip 192 168 1 20) ∉ ["192.168.1.0/255.255.255.20"]) ∧
  (last_octet (ip 192 168 1 20) ∉ identifiers [] →
   "192.168.1.0" +:+ "/" +:+ subnet_of "255.255.255.0" +:+ "." +:+
     last_octet (ip 192 168 1 20) ∈ ["192.168.1.0/255.255.255.20"]).
Proof.
  apply (@dotted_mask_failures_not_listed first_seen_order (λ _ _ _, Exit 0) true
           (set_ping_failures
              (<[NETWORK_2 := []]> (<["192.168.1.0/255.255.255.0" := [ip 192 168 1 20]]> ∅))
              (init "192.168.1.0/255.255.255.0" NETWORK_2))
           (<[NETWORK_2 := []]> (<["192.168.1.0/255.255.255.0" := [ip 192 168 1 20]]> ∅))
           "192.168.1.0/255.255.255.0" NETWORK_2 "192.168.1.0" "255.255.255.0"
           [ip 192 168 1 20] []).
  - reflexivity.
  - reflexivity.
  - vm_compute. reflexivity.
  - vm_compute. reflexivity.
  - vm_compute. reflexivity.
  - reflexivity.
  - vm_compute. reflexivity.
  - left.
Defined.

(** ** More attempts, more exclusions *)

Section Monotone.

Context (env : Env).

Lemma nil_no_elem_hosts (l : list IPv4Address) : (∀ h, h ∉ l) → l = [].
Proof. destruct l as [|x l]; [done|]. intros Hl. exfalso. apply (Hl x). left. Qed.

(** The result of a sweep that returns is part of its first pass. *)
Lemma sweep_from_result_subseteq ex n k hs f :
  (sweep_from env ex k n hs).1 = Ok f → f ⊆ candidates ex hs.
Proof.
  destruct (sweep_from env ex k n hs) as [r log] eqn:Hsw. cbn [fst].
  intros ->.
  destruct (sweep_from_narrowing env ex n k hs f log Hsw) as ([rest ->] & Hnar & _).
  by apply (narrowing_final_subseteq env (candidates ex hs :: rest) k f).
Qed.

(** With more retries allowed a sweep stores no host that it does not
    store with fewer. *)
Lemma sweep_from_more_retries ex : ∀ n m k hs f f',
  (n ≤ m)%nat →
  (sweep_from env ex k n hs).1 = Ok f →
  (sweep_from env ex k m hs).1 = Ok f' →
  f' ⊆ f.
Proof.
  induction n as [|n IH]; intros m k hs f f' Hnm.
  - cbn [sweep_from].
    destruct (spawns_ok env k (candidates ex hs)) eqn:Hok; [|discriminate].
    cbn [fst]. intros [= <-].
    destruct m as [|m]; cbn [sweep_from]; rewrite Hok.
    { by intros [= <-]. }
    destruct (failed env k (candidates ex hs)) as [|x fs] eqn:Hfs.
    { by intros [= <-]. }
    destruct (sweep_from env ex (S k) m (x :: fs)) as [r log] eqn:Hsw.
    cbn [fst]. intros ->.
    pose proof (sweep_from_result_subseteq ex m (S k) (x :: fs) f') as Hsub.
    rewrite Hsw in Hsub. etrans; [by apply Hsub|]. apply candidates_subseteq.
  - destruct m as [|m]; [lia|]. cbn [sweep_from].
    destruct (spawns_ok env k (candidates ex hs)); [|discriminate].
    destruct (failed env k (candidates ex hs)) as [|x fs] eqn:Hfs.
    { by intros [= <-] [= <-]. }
    specialize (IH m (S k) (x :: fs) f f' ltac:(lia)).
    destruct (sweep_from env ex (S k) n (x :: fs)) as [r log].
    destruct (sweep_from env ex (S k) m (x :: fs)) as [r' log'].
    cbn [fst] in *. done.
Qed.

Lemma candidates_candidates ex ex' hs :
  excluded_list ex ⊆ excluded_list ex' →
  candidates ex' (candidates ex hs) = candidates ex' hs.
Proof.
  intros Hsub. unfold candidates. rewrite list_filter_filter.
  apply list_filter_iff. intros h. split; [tauto|].
  intros Hh. split; [done|]. intros Hin. by apply Hh, Hsub.
Qed.

Lemma candidates_failed_comm ex k hs :
  failed env k (candidates ex hs) = candidates ex (failed env k hs).
Proof.
  unfold failed, candidates. rewrite !list_filter_filter.
  apply list_filter_iff. intros h. tauto.
Qed.

(** A sweep looks at its host list through the exclusion list only. *)
Lemma sweep_from_candidates ex n k hs :
  sweep_from env ex k n (candidates ex hs) = sweep_from env ex k n hs.
Proof.
  destruct n; cbn [sweep_from];
    by rewrite (candidates_candidates ex ex hs).
Qed.

(** With a longer exclusion list a sweep stores what it stored before,
    less the hosts now excluded. *)
Lemma sweep_from_more_excluded ex ex' :
  excluded_list ex ⊆ excluded_list ex' →
  ∀ n k hs f f',
    (sweep_from env ex k n hs).1 = Ok f →
    (sweep_from env ex' k n hs).1 = Ok f' →
    f' = candidates ex' f.
Proof.
  intros Hsub. induction n as [|n IH]; intros k hs f f'; cbn [sweep_from];
    rewrite <- (candidates_candidates ex ex' hs Hsub);
    set (cs := candidates ex hs);
    (destruct (spawns_ok env k cs); [|discriminate]);
    (destruct (spawns_ok env k (candidates ex' cs)); [|discriminate]);
    rewrite (candidates_failed_comm ex' k cs).
  - by intros [= <-] [= <-].
  - destruct (failed env k cs) as [|x fs] eqn:Hfs.
    { by intros [= <-] [= <-]. }
    destruct (sweep_from env ex (S k) n (x :: fs)) as [r log] eqn:Hsw.
    cbn [fst]. intros ->.
    assert (Hf : f ⊆ x :: fs).
    { pose proof (sweep_from_result_subseteq ex n (S k) (x :: fs) f) as Hs.
      rewrite Hsw in Hs. etrans; [by apply Hs|]. apply candidates_subseteq. }
    destruct (candidates ex' (x :: fs)) as [|y fs'] eqn:Hfs'.
    + intros [= <-]. symmetry. apply nil_no_elem_hosts.
      intros h Hh.
      assert (Hin : h ∈ candidates ex' (x :: fs)).
      { unfold candidates in *. apply list_elem_of_filter in Hh as [Hex Hh].
        apply list_elem_of_filter. split; [done|by apply Hf]. }
      rewrite Hfs' in Hin. by apply not_elem_of_nil in Hin.
    + rewrite <- Hfs', sweep_from_candidates.
      specialize (IH (S k) (x :: fs) f f'). rewrite Hsw in IH.
      destruct (sweep_from env ex' (S k) n (x :: fs)) as [r' log'].
      cbn [fst] in *. intros ->. by apply IH.
Qed.

End Monotone.

(** X21: with the same network behaviour, a larger [NUM_ATTEMPTS] never
    adds a stored failure: when the sweep returns with both numbers of
    attempts, the list stored with the larger number is part of the list
    stored with the smaller. *)
Theorem more_attempts_fewer_failures (env : Env) (network : string)
    (pf pf1 pf2 : gmap string (list IPv4Address)) (self : NetworkPingComparator)
    (m : Z) (st1 st2 : St) :
  NUM_ATTEMPTS self ≤ m →
  not_pingable env network pf (mkSt self []) = (Ok pf1, st1) →
  not_pingable env network pf (mkSt (with_attempts m self) []) = (Ok pf2, st2) →
  ∃ f1 f2, pf1 !! network = Some f1 ∧ pf2 !! network = Some f2 ∧ f2 ⊆ f1.
Proof.
  intros Hm (net & f1 & Hnet & -> & Hsw1)%not_pingable_ok
            (net' & f2 & Hnet' & -> & Hsw2)%not_pingable_ok.
  assert (net' = net) as -> by congruence.
  exists f1, f2. rewrite !lookup_insert_eq. split; [done|]. split; [done|].
  unfold retries in *. cbn [excluded_host NUM_ATTEMPTS with_attempts] in Hsw2.
  apply (sweep_from_more_retries env (excluded_host self)
           (Z.to_nat (NUM_ATTEMPTS self - 1)) (Z.to_nat (m - 1)) 0
           (ipaddress.hosts net)); [lia|by rewrite Hsw1|by rewrite Hsw2].
Qed.

(** X21 on the flaky network, with one attempt and with two. *)
Lemma more_attempts_fewer_failures_witness :
  ∃ f1 f2,
    (<["192.168.1.0/29" := [ip 192 168 1 2; ip 192 168 1 5]]> ∅
       : gmap string (list IPv4Address)) !! "192.168.1.0/29" = Some f1 ∧
    (<["192.168.1.0/29" := [ip 192 168 1 2]]> ∅
       : gmap string (list IPv4Address)) !! "192.168.1.0/29" = Some f2 ∧
    f2 ⊆ f1.
Proof.
  apply (more_attempts_fewer_failures flaky_env "192.168.1.0/29" ∅
           (<["192.168.1.0/29" := [ip 192 168 1 2; ip 192 168 1 5]]> ∅)
           (<["192.168.1.0/29" := [ip 192 168 1 2]]> ∅)
           (with_attempts 1 (init "192.168.1.0/29" "192.168.2.0/29")) 2
           (mkSt (set_hosts (ipaddress.hosts (mkNet (ip 192 168 1 0) 29))
                    (with_attempts 1 (init "192.168.1.0/29" "192.168.2.0/29")))
                 [[ip 192 168 1 1; ip 192 168 1 2; ip 192 168 1 3;
                   ip 192 168 1 4; ip 192 168 1 5; ip 192 168 1 6]])
           (mkSt (set_hosts [ip 192 168 1 2; ip 192 168 1 5]
                    (with_attempts 2
                       (with_attempts 1 (init "192.168.1.0/29" "192.168.2.0/29"))))
                 [[ip 192 168 1 1; ip 192 168 1 2; ip 192 168 1 3;
                   ip 192 168 1 4; ip 192 168 1 5; ip 192 168 1 6];
                  [ip 192 168 1 2; ip 192 168 1 5]])).
  - cbn. lia.
  - vm_compute. reflexivity.
  - vm_compute. reflexivity.
Defined.

(** X22: with the same network behaviour, excluding more hosts changes
    nothing for the others: when the sweep returns with both exclusion
    lists, the list stored with the longer one holds the hosts stored
    with the shorter one whose last octet the longer one does not
    exclude. *)
Theorem excluding_leaves_others_unchanged (env : Env) (network : string)
    (pf pf1 pf2 : gmap string (list IPv4Address)) (self : NetworkPingComparator)
    (more : list string) (st1 st2 : St) :
  excluded_list (excluded_host self) ⊆ more →
  not_pingable env network pf (mkSt self []) = (Ok pf1, st1) →
  not_pingable env network pf (mkSt (exclude_host more self) []) = (Ok pf2, st2) →
  ∃ f1 f2, pf1 !! network = Some f1 ∧ pf2 !! network = Some f2 ∧
           ∀ h, h ∈ f2 ↔ h ∈ f1 ∧ last_octet h ∉ more.
Proof.
  intros Hsub (net & f1 & Hnet & -> & Hsw1)%not_pingable_ok
              (net' & f2 & Hnet' & -> & Hsw2)%not_pingable_ok.
  assert (net' = net) as -> by congruence.
  exists f1, f2. rewrite !lookup_insert_eq. split; [done|]. split; [done|].
  unfold retries in *. cbn [excluded_host NUM_ATTEMPTS exclude_host] in Hsw2.
  rewrite (sweep_from_more_excluded env (excluded_host self) (Some more) Hsub
             (Z.to_nat (NUM_ATTEMPTS self - 1)) 0 (ipaddress.hosts net) f1 f2)
    by (by rewrite ?Hsw1, ?Hsw2).
  intros h. unfold candidates. rewrite list_elem_of_filter. cbn [excluded_list default].
  tauto.
Qed.

(** X22 on the flaky network, excluding host 2. *)
Lemma excluding_leaves_others_unchanged_witness :
  ∃ f1 f2,
    (<["192.168.1.0/29" := [ip 192 168 1 2; ip 192 168 1 5]]> ∅
       : gmap string (list IPv4Address)) !! "192.168.1.0/29" = Some f1 ∧
    (<["192.168.1.0/29" := [ip 192 168 1 5]]> ∅
       : gmap string (list IPv4Address)) !! "192.168.1.0/29" = Some f2 ∧
    ∀ h, h ∈ f2 ↔ h ∈ f1 ∧ last_octet h ∉ ["2"].
Proof.
  apply (excluding_leaves_others_unchanged flaky_env "192.168.1.0/29" ∅
           (<["192.168.1.0/29" := [ip 192 168 1 2; ip 192 168 1 5]]> ∅)
           (<["192.168.1.0/29" := [ip 192 168 1 5]]> ∅)
           (with_attempts 1 (init "192.168.1.0/29" "192.168.2.0/29")) ["2"]
           (mkSt (set_hosts (ipaddress.hosts (mkNet (ip 192 168 1 0) 29))
                    (with_attempts 1 (init "192.168.1.0/29" "192.168.2.0/29")))
                 [[ip 192 168 1 1; ip 192 168 1 2; ip 192 168 1 3;
                   ip 192 168 1 4; ip 192 168 1 5; ip 192 168 1 6]])
           (mkSt (set_hosts (ipaddress.hosts (mkNet (ip 192 168 1 0) 29))
                    (exclude_host ["2"]
                       (with_attempts 1 (init "192.168.1.0/29" "192.168.2.0/29"))))
                 [[ip 192 168 1 1; ip 192 168 1 3;
                   ip 192 168 1 4; ip 192 168 1 5; ip 192 168 1 6]])).
  - intros x Hx. by apply not_elem_of_nil in Hx.
  - vm_compute. reflexivity.
  - vm_compute. reflexivity.
Defined.
